(** * aiortc jitter buffer: a shallow embedding of [src/aiortc/jitterbuffer.py]

    The Python class [JitterBuffer] is a mutable object; its methods are
    modelled in a state-and-exception monad over the record of its four
    attributes.  Python integers are unbounded, hence [Z]; [a % b] is the
    floor modulus (sign of the divisor), which is [Z.modulo] for [b <> 0]
    and raises [ZeroDivisionError] for [b = 0]. *)

From Stdlib Require Import ZArith Lia.
From stdpp Require Import base list.

Local Open Scope Z_scope.

(** ** Data model *)

(** Exceptions the methods can raise. *)
Inductive exn : Type :=
  | AssertionError
  | TypeError
  | ZeroDivisionError
  | IndexError
  | UnboundLocalError.

Definition bytes : Type := list Byte.byte.

(** [datetime] values are only carried through, never inspected. *)
Definition datetime : Type := Z.

(** The attributes of [RtpPacket] that the buffer reads. *)
Module RtpPacket.
Record t : Type := mk {
    sequence_number : Z;
    timestamp : Z;
    ntp_timestamp : datetime;
    rtp_diff : Z;
    _data : bytes
  }.
End RtpPacket.

(** [@dataclass class JitterFrame] *)
Module JitterFrame.
Record t : Type := mk {
    data : bytes;
    packets : list RtpPacket.t;
    timestamp : Z;
    ntp_timestamp : datetime;
    rtp_diff : Z
  }.
End JitterFrame.

(** The attributes of a [JitterBuffer] instance. *)
Record JitterBuffer : Type := mkJitterBuffer {
  _capacity : Z;
  _origin : option Z;
  _packets : list (option RtpPacket.t);
  _prefetch : Z
}.

Definition MAX_MISORDER : Z := 100.

(** ** The monad of methods: state that survives a raised exception *)

Inductive outcome (A : Type) : Type :=
  | Val (a : A)
  | Raise (e : exn).
Arguments Val {A} a.
Arguments Raise {A} e.

Definition M (A : Type) : Type := JitterBuffer -> outcome A * JitterBuffer.

Definition ret {A} (a : A) : M A := fun self => (Val a, self).

Definition raise {A} (e : exn) : M A := fun self => (Raise e, self).

Definition bind {A B} (m : M A) (k : A -> M B) : M B :=
  fun self =>
    match m self with
    | (Val a, self') => k a self'
    | (Raise e, self') => (Raise e, self')
    end.

Notation "'let*' x ':=' m 'in' k" := (bind m (fun x => k))
  (at level 10, x name, m at level 100, k at level 200).
Notation "m1 '>>' m2" := (bind m1 (fun _ => m2))
  (at level 100, m2 at level 200, right associativity).

(** Attribute reads and writes. *)
Definition get_capacity : M Z := fun self => (Val (_capacity self), self).
Definition get_prefetch : M Z := fun self => (Val (_prefetch self), self).
Definition get_origin : M (option Z) := fun self => (Val (_origin self), self).

Definition set_origin (o : Z) : M unit :=
  fun self =>
    (Val tt, mkJitterBuffer (_capacity self) (Some o) (_packets self) (_prefetch self)).

(** [self._origin] used as an operand of [+], [-] or [%]: [None] raises
    [TypeError]. *)
Definition origin_int : M Z :=
  let* o := get_origin in
  match o with
  | Some n => ret n
  | None => raise TypeError
  end.

(** [a % b] *)
Definition py_mod (a b : Z) : M Z :=
  if b =? 0 then raise ZeroDivisionError else ret (a mod b).

(** Python list indexing: [-len <= pos < 0] counts from the end, anything
    outside [-len, len) raises [IndexError]. *)
Definition py_index (len pos : Z) : option nat :=
  if (0 <=? pos) && (pos <? len) then Some (Z.to_nat pos)
  else if (- len <=? pos) && (pos <? 0) then Some (Z.to_nat (pos + len))
  else None.

(** [self._packets[pos]] *)
Definition getitem (pos : Z) : M (option RtpPacket.t) :=
  fun self =>
    match py_index (Z.of_nat (length (_packets self))) pos with
    | Some i =>
        match _packets self !! i with
        | Some slot => (Val slot, self)
        | None => (Raise IndexError, self)
        end
    | None => (Raise IndexError, self)
    end.

(** [self._packets[pos] = v] *)
Definition setitem (pos : Z) (v : option RtpPacket.t) : M unit :=
  fun self =>
    match py_index (Z.of_nat (length (_packets self))) pos with
    | Some i =>
        (Val tt,
         mkJitterBuffer (_capacity self) (_origin self)
           (<[i := v]> (_packets self)) (_prefetch self))
    | None => (Raise IndexError, self)
    end.

(** ** [JitterBuffer.__init__] *)

Definition init (capacity prefetch : Z) : exn + JitterBuffer :=
  if Z.land capacity (capacity - 1) =? 0 then
    inr (mkJitterBuffer capacity None (replicate (Z.to_nat capacity) None) prefetch)
  else inl AssertionError.

(** ** [JitterBuffer.capacity] *)

(** Lines 35-37: the read-only property. *)
Definition capacity : M Z := get_capacity.

(** ** [JitterBuffer.remove] *)

(** The body of [for i in range(count)], run [n] times. *)
Fixpoint remove_loop (n : nat) : M unit :=
  match n with
  | O => ret tt
  | S n' =>
      let* o := origin_int in
      let* cap := get_capacity in
      let* pos := py_mod o cap in
      setitem pos None >>
      set_origin (o + 1) >>
      remove_loop n'
  end.

Definition remove (count : Z) : M unit :=
  let* cap := get_capacity in
  if count <=? cap then remove_loop (Z.to_nat count)
  else raise AssertionError.

(** ** [JitterBuffer._remove_frame] *)

(** The local variables of [_remove_frame].  [rtp_diff] is unbound until the
    first packet has been seen; [timestamp], [ntp_timestamp] and [rtp_diff]
    are assigned together at lines 78-80. *)
Record locals : Type := mkLocals {
  l_frame : option JitterFrame.t;
  l_frames : Z;
  l_packets : list RtpPacket.t;
  l_remove : Z;
  l_timestamp : option Z;
  l_ntp_timestamp : option datetime;
  l_rtp_diff : option Z
}.

Definition locals0 : locals := mkLocals None 0 [] 0 None None None.

(** [b"".join([x._data for x in packets])] *)
Definition join_data (ps : list RtpPacket.t) : bytes :=
  concat (map RtpPacket._data ps).

(** Lines 83-91: build the frame unless one is already held.  The branch is
    entered with [timestamp] set, hence with [ntp_timestamp] and [rtp_diff]
    set as well; reading an unbound [rtp_diff] would raise. *)
Definition hold_frame (count : Z) (l : locals) : M locals :=
  match l_frame l with
  | Some _ => ret l
  | None =>
      match l_timestamp l, l_ntp_timestamp l, l_rtp_diff l with
      | Some ts, Some ntp, Some rd =>
          ret (mkLocals
                 (Some (JitterFrame.mk (join_data (l_packets l)) (l_packets l) ts ntp rd))
                 (l_frames l) (l_packets l) count
                 (l_timestamp l) (l_ntp_timestamp l) (l_rtp_diff l))
      | _, _, _ => raise UnboundLocalError
      end
  end.

(** Lines 77-103: one packet of the scan.  [continue] is the rest of the
    loop, entered with the updated local variables. *)
Definition scan_packet (continue : locals -> M (option JitterFrame.t))
    (count : Z) (l : locals) (packet : RtpPacket.t) : M (option JitterFrame.t) :=
  match l_timestamp l with
  | None =>
      continue
        (mkLocals (l_frame l) (l_frames l) (l_packets l ++ [packet]) (l_remove l)
           (Some (RtpPacket.timestamp packet))
           (Some (RtpPacket.ntp_timestamp packet))
           (Some (RtpPacket.rtp_diff packet)))
  | Some ts =>
      if negb (RtpPacket.timestamp packet =? ts) then
        let* l1 := hold_frame count l in
        let frames := l_frames l1 + 1 in
        let* prefetch := get_prefetch in
        if prefetch <=? frames then
          remove (l_remove l1) >> ret (l_frame l1)
        else
          continue
            (mkLocals (l_frame l1) frames ([] ++ [packet]) (l_remove l1)
               (Some (RtpPacket.timestamp packet))
               (l_ntp_timestamp l1) (l_rtp_diff l1))
      else
        continue
          (mkLocals (l_frame l) (l_frames l) (l_packets l ++ [packet]) (l_remove l)
             (l_timestamp l) (l_ntp_timestamp l) (l_rtp_diff l))
  end.

(** [for count in range(self.capacity)] with [fuel] iterations left.
    [break] and falling off the end both reach [return None]. *)
Fixpoint scan (fuel : nat) (count : Z) (l : locals) : M (option JitterFrame.t) :=
  match fuel with
  | O => ret None
  | S fuel' =>
      let* o := origin_int in
      let* cap := get_capacity in
      let* pos := py_mod (o + count) cap in
      let* slot := getitem pos in
      match slot with
      | None => ret None
      | Some packet => scan_packet (scan fuel' (count + 1)) count l packet
      end
  end.

Definition _remove_frame (sequence_number : Z) : M (option JitterFrame.t) :=
  let* cap := get_capacity in
  scan (Z.to_nat cap) 0 locals0.

(** ** [JitterBuffer.add] *)

(** Lines 40-46.  The result is [true] when the method returns [None] at
    line 46. *)
Definition establish_origin (packet : RtpPacket.t) : M bool :=
  let* o := get_origin in
  match o with
  | None => set_origin (RtpPacket.sequence_number packet) >> ret false
  | Some origin =>
      if RtpPacket.sequence_number packet <=? origin - MAX_MISORDER then
        (let* cap := get_capacity in remove cap) >>
        set_origin (RtpPacket.sequence_number packet) >>
        ret false
      else if RtpPacket.sequence_number packet <? origin then ret true
      else ret false
  end.

(** Lines 48-57. *)
Definition fit_window (packet : RtpPacket.t) : M unit :=
  let* o := origin_int in
  let delta := RtpPacket.sequence_number packet - o in
  let* cap := get_capacity in
  if 2 * cap <=? delta then
    (let* cap' := get_capacity in remove cap') >>
    set_origin (RtpPacket.sequence_number packet)
  else if cap <=? delta then
    let* cap' := get_capacity in
    let excess := delta - cap' + 1 in
    remove excess
  else ret tt.

(** Lines 59-60. *)
Definition store (packet : RtpPacket.t) : M unit :=
  let* cap := get_capacity in
  let* pos := py_mod (RtpPacket.sequence_number packet) cap in
  setitem pos (Some packet).

Definition add (packet : RtpPacket.t) : M (option JitterFrame.t) :=
  let* late := establish_origin packet in
  if late then ret None
  else
    fit_window packet >>
    store packet >>
    _remove_frame (RtpPacket.sequence_number packet).

(** [add] applied to each packet of a list in turn: the outcome of every
    call together with the buffer it leaves behind. *)
Fixpoint add_trace (ps : list RtpPacket.t) (self : JitterBuffer)
  : list (outcome (option JitterFrame.t) * JitterBuffer) :=
  match ps with
  | [] => []
  | p :: ps' => let r := add p self in r :: add_trace ps' (snd r)
  end.

(** ** Predicates on buffers *)

(** What [__init__] establishes and no method changes: the list of slots
    has [capacity] entries. *)
Definition shape (jb : JitterBuffer) : Prop :=
  0 <= _capacity jb /\ Z.of_nat (length (_packets jb)) = _capacity jb.

(** The slot that sequence number [s] maps to. *)
Definition slot (jb : JitterBuffer) (s : Z) : option RtpPacket.t :=
  default None (_packets jb !! Z.to_nat (s mod _capacity jb)).

(** Every stored packet lies in the window that starts at the origin and
    sits at the index given by its sequence number. *)
Definition window_inv (jb : JitterBuffer) : Prop :=
  forall (j : nat) (p : RtpPacket.t),
    _packets jb !! j = Some (Some p) ->
    exists o, _origin jb = Some o /\
      0 <= RtpPacket.sequence_number p - o < _capacity jb /\
      Z.of_nat j = RtpPacket.sequence_number p mod _capacity jb.

Definition is_pow2 (c : Z) : Prop := exists k, 0 <= k /\ c = 2 ^ k.

(** Buffers that a program can hold: built by [__init__], then changed by
    any calls of [add] and [remove], whether they return or raise. *)
Inductive reachable : JitterBuffer -> Prop :=
  | reach_init capacity prefetch jb :
      init capacity prefetch = inr jb -> reachable jb
  | reach_add jb packet r jb' :
      reachable jb -> add packet jb = (r, jb') -> reachable jb'
  | reach_remove jb count r jb' :
      reachable jb -> remove count jb = (r, jb') -> reachable jb'.

(** The slots after [n] iterations of the loop of [remove] started at
    origin [o]. *)
Fixpoint clear_slots (n : nat) (o cap : Z) (l : list (option RtpPacket.t))
  : list (option RtpPacket.t) :=
  match n with
  | O => l
  | S n' => clear_slots n' (o + 1) cap (<[Z.to_nat (o mod cap) := None]> l)
  end.

(** The buffer after [remove(n)] has run to completion. *)
Definition removed (n : Z) (o : Z) (jb : JitterBuffer) : JitterBuffer :=
  mkJitterBuffer (_capacity jb) (Some (o + Z.of_nat (Z.to_nat n)))
    (clear_slots (Z.to_nat n) o (_capacity jb) (_packets jb)) (_prefetch jb).

Definition mk_frame (ps : list RtpPacket.t) : option JitterFrame.t :=
  match ps with
  | [] => None
  | p :: _ =>
      Some (JitterFrame.mk (join_data ps) ps (RtpPacket.timestamp p)
              (RtpPacket.ntp_timestamp p) (RtpPacket.rtp_diff p))
  end.

(** The packets [ps] fill the consecutive slots that start at sequence
    number [o]. *)
Definition run_at (jb : JitterBuffer) (o : Z) (ps : list RtpPacket.t) : Prop :=
  forall (i : nat) (q : RtpPacket.t),
    ps !! i = Some q -> slot jb (o + Z.of_nat i) = Some q.

(** [f] is the first frame of the buffer: a run of packets with one
    timestamp from the origin on, closed by a packet with another. *)
Definition frame_at (jb : JitterBuffer) (o : Z) (ps : list RtpPacket.t)
    (f : JitterFrame.t) : Prop :=
  mk_frame ps = Some f /\
  Z.of_nat (length ps) < _capacity jb /\
  run_at jb o ps /\
  (forall q, q ∈ ps -> RtpPacket.timestamp q = JitterFrame.timestamp f) /\
  exists q', slot jb (o + Z.of_nat (length ps)) = Some q' /\
             RtpPacket.timestamp q' <> JitterFrame.timestamp f.

(** What a call of [_remove_frame] can do: nothing, or hand out the first
    frame and remove its packets. *)
Definition scan_post (jb : JitterBuffer) (o : Z)
    (r : outcome (option JitterFrame.t) * JitterBuffer) : Prop :=
  r = (Val None, jb) \/
  exists ps f, frame_at jb o ps f /\
    r = (Val (Some f), removed (Z.of_nat (length ps)) o jb).

(** The scan before the first boundary: the packets read so far share the
    timestamp held in the local variable. *)
Definition scanning (jb : JitterBuffer) (o : Z) (count : Z) (l : locals) : Prop :=
  l_frame l = None /\
  count = Z.of_nat (length (l_packets l)) /\
  run_at jb o (l_packets l) /\
  (l_packets l = [] -> l_timestamp l = None) /\
  (forall q, q ∈ l_packets l -> l_timestamp l = Some (RtpPacket.timestamp q)) /\
  (forall p ps', l_packets l = p :: ps' ->
     l_ntp_timestamp l = Some (RtpPacket.ntp_timestamp p) /\
     l_rtp_diff l = Some (RtpPacket.rtp_diff p)).

Definition with_origin (o : Z) (jb : JitterBuffer) : JitterBuffer :=
  mkJitterBuffer (_capacity jb) (Some o) (_packets jb) (_prefetch jb).

Definition with_slot (s : Z) (v : option RtpPacket.t) (jb : JitterBuffer)
  : JitterBuffer :=
  mkJitterBuffer (_capacity jb) (_origin jb)
    (<[Z.to_nat (s mod _capacity jb) := v]> (_packets jb)) (_prefetch jb).

(** The buffer after a full flush that restarts the window at [s]. *)
Definition flushed (s o : Z) (jb : JitterBuffer) : JitterBuffer :=
  with_origin s (removed (_capacity jb) o jb).

(** Capacity, prefetch and the number of slots are fixed by [__init__]. *)
Definition same_frame (jb jb' : JitterBuffer) : Prop :=
  _capacity jb' = _capacity jb /\
  _prefetch jb' = _prefetch jb /\
  length (_packets jb') = length (_packets jb).

Definition preserves {A} (m : M A) : Prop :=
  forall jb r jb', m jb = (r, jb') -> same_frame jb jb'.

(** The buffer on which [add] runs [_remove_frame]; [None] when the packet
    is dropped at line 46. *)
Definition placed (p : RtpPacket.t) (jb : JitterBuffer) : option JitterBuffer :=
  let s := RtpPacket.sequence_number p in
  match _origin jb with
  | None => Some (with_slot s (Some p) (with_origin s jb))
  | Some o =>
      if s <=? o - MAX_MISORDER then Some (with_slot s (Some p) (flushed s o jb))
      else if s <? o then None
      else if 2 * _capacity jb <=? s - o then
        Some (with_slot s (Some p) (flushed s o jb))
      else if _capacity jb <=? s - o then
        Some (with_slot s (Some p) (removed (s - o - _capacity jb + 1) o jb))
      else Some (with_slot s (Some p) jb)
  end.

(** The buffer after the packets [ps] have been written to their slots, in
    that order. *)
Definition stored (ps : list RtpPacket.t) (jb : JitterBuffer) : JitterBuffer :=
  foldl (fun b p => with_slot (RtpPacket.sequence_number p) (Some p) b) jb ps.

(** A packet with the given sequence number and timestamp. *)
Definition tagged (s ts : Z) (p : RtpPacket.t) : Prop :=
  RtpPacket.sequence_number p = s /\ RtpPacket.timestamp p = ts.

(** Equality of buffers up to the prefetch depth. *)
Definition same_state (jb jb' : JitterBuffer) : Prop :=
  _capacity jb = _capacity jb' /\ _origin jb = _origin jb' /\
  _packets jb = _packets jb'.

Definition set_prefetch (pf : Z) (jb : JitterBuffer) : JitterBuffer :=
  mkJitterBuffer (_capacity jb) (_origin jb) (_packets jb) pf.

(** A buffer with a gap at sequence number [g] of its window, the packets
    stored before the gap all carrying timestamp [T]. *)
Definition stalled (o g T : Z) (jb : JitterBuffer) : Prop :=
  shape jb /\ _origin jb = Some o /\ o <= g < o + _capacity jb /\
  slot jb g = None /\
  forall s q, o <= s < g -> slot jb s = Some q -> RtpPacket.timestamp q = T.

(** A packet of the window that does not fill the gap at [g]; before the
    gap it carries timestamp [T]. *)
Definition beside_gap (o g T cap : Z) (p : RtpPacket.t) : Prop :=
  RtpPacket.sequence_number p <> g /\
  o <= RtpPacket.sequence_number p < o + cap /\
  (RtpPacket.sequence_number p < g -> RtpPacket.timestamp p = T).

(** The result of a method on the buffer with another prefetch depth, if
    the method does not depend on it. *)
Definition lift_prefetch {A} (pf : Z) (r : outcome A * JitterBuffer)
  : outcome A * JitterBuffer :=
  (fst r, set_prefetch pf (snd r)).

(** [m] behaves the same with prefetch 0 and with prefetch 1. *)
Definition agree01 {A} (m : M A) : Prop :=
  forall jb, _prefetch jb = 0 -> m (set_prefetch 1 jb) = lift_prefetch 1 (m jb).

(** Two runs that return the same thing and leave the same buffer. *)
Definition same_step {A} (r r' : outcome A * JitterBuffer) : Prop :=
  fst r = fst r' /\ same_state (snd r) (snd r').

(** Every stored packet carries timestamp [T]. *)
Definition uniform (T : Z) (jb : JitterBuffer) : Prop :=
  forall (j : nat) (q : RtpPacket.t),
    _packets jb !! j = Some (Some q) -> RtpPacket.timestamp q = T.

(** A call of one of the two public methods. *)
Inductive call : Type :=
  | call_add (packet : RtpPacket.t)
  | call_remove (count : Z).

(** The buffer a call leaves behind, whether it returns or raises. *)
Definition after_call (jb : JitterBuffer) (c : call) : JitterBuffer :=
  match c with
  | call_add packet => snd (add packet jb)
  | call_remove count => snd (remove count jb)
  end.

(** The packet is not one that line 45 drops. *)
Definition accepted (p : RtpPacket.t) (jb : JitterBuffer) : Prop :=
  forall o, _origin jb = Some o ->
    RtpPacket.sequence_number p <= o - MAX_MISORDER \/
    o <= RtpPacket.sequence_number p.

(** Packets with consecutive sequence numbers from [s0] on, all with
    timestamp [T]. *)
Definition in_sequence (s0 T : Z) (ps : list RtpPacket.t) : Prop :=
  forall (i : nat) (q : RtpPacket.t),
    ps !! i = Some q ->
    RtpPacket.sequence_number q = s0 + Z.of_nat i /\ RtpPacket.timestamp q = T.

(** The first [k] packets of [ps] fill the slots from origin [s0] on, and
    the rest of the window is empty. *)
Definition filled (s0 : Z) (ps : list RtpPacket.t) (k : nat) (jb : JitterBuffer)
  : Prop :=
  shape jb /\ _origin jb = Some s0 /\ run_at jb s0 (take k ps) /\
  forall i, Z.of_nat k <= i < _capacity jb -> slot jb (s0 + i) = None.

(** ** Example data *)

(** A packet with a one-byte payload, for the concrete runs below. *)
Definition example_packet (s ts : Z) (b : Byte.byte) : RtpPacket.t :=
  RtpPacket.mk s ts (7000 + s) (10 + s) [b].

(** A fresh buffer as [__init__] builds it. *)
Definition fresh (capacity prefetch : Z) : JitterBuffer :=
  mkJitterBuffer capacity None (replicate (Z.to_nat capacity) None) prefetch.

(** The stream of the examples: packets 0, 1, 2 of one frame, then the
    first packets of the next two frames. *)
Definition ex0 : RtpPacket.t := example_packet 0 1000 Byte.x00.
Definition ex1 : RtpPacket.t := example_packet 1 1000 Byte.x01.
Definition ex2 : RtpPacket.t := example_packet 2 1000 Byte.x02.
Definition ex3 : RtpPacket.t := example_packet 3 2000 Byte.x03.
Definition ex4 : RtpPacket.t := example_packet 4 3000 Byte.x04.

(** ** Elementary facts *)

Lemma py_index_in_range (len pos : Z) :
  0 <= pos < len -> py_index len pos = Some (Z.to_nat pos).
Proof.
  intros H. unfold py_index.
  destruct (Z.leb_spec 0 pos); [|lia].
  destruct (Z.ltb_spec pos len); [|lia]. reflexivity.
Qed.

Lemma mod_in_range (a c : Z) : 0 < c -> 0 <= a mod c < c.
Proof. intros H. apply Z.mod_pos_bound. exact H. Qed.

Lemma clear_slots_length n : forall o cap l,
  length (clear_slots n o cap l) = length l.
Proof.
  induction n as [|n IH]; intros o cap l; simpl; [reflexivity|].
  rewrite IH. apply length_insert.
Qed.

(** [remove] only ever empties slots. *)
Lemma clear_slots_some n : forall o cap l j p,
  clear_slots n o cap l !! j = Some (Some p) -> l !! j = Some (Some p).
Proof.
  induction n as [|n IH]; intros o cap l j p H; simpl in H; [exact H|].
  apply IH in H.
  destruct (decide (Z.to_nat (o mod cap) = j)) as [Heq|Hne].
  - subst j.
    destruct (decide (Z.to_nat (o mod cap) < length l)%nat) as [Hlt|Hge].
    + rewrite list_lookup_insert_eq in H by exact Hlt. discriminate.
    + rewrite list_insert_ge in H by lia. exact H.
  - rewrite list_lookup_insert_ne in H by exact Hne. exact H.
Qed.

(** Slots off the path of the loop are untouched. *)
Lemma clear_slots_other n : forall o cap l j,
  (forall i, 0 <= i < Z.of_nat n -> Z.to_nat ((o + i) mod cap) <> j) ->
  clear_slots n o cap l !! j = l !! j.
Proof.
  induction n as [|n IH]; intros o cap l j H; simpl; [reflexivity|].
  rewrite IH.
  - apply list_lookup_insert_ne.
    specialize (H 0). rewrite Z.add_0_r in H. apply H. lia.
  - intros i Hi. replace (o + 1 + i) with (o + (i + 1)) by lia.
    apply H. lia.
Qed.

(** Slots on the path of the loop are empty afterwards. *)
Lemma clear_slots_cleared n : forall o cap l i,
  0 < cap -> Z.of_nat (length l) = cap ->
  0 <= i < Z.of_nat n ->
  clear_slots n o cap l !! Z.to_nat ((o + i) mod cap) = Some None.
Proof.
  induction n as [|n IH]; intros o cap l i Hc Hl Hi; [lia|]. simpl.
  destruct (decide (i = 0)) as [->|Hne].
  - rewrite Z.add_0_r.
    pose proof (mod_in_range o cap Hc) as Hm.
    destruct (clear_slots n (o + 1) cap (<[Z.to_nat (o mod cap):=None]> l)
                !! Z.to_nat (o mod cap)) as [[p|]|] eqn:E.
    + apply clear_slots_some in E.
      rewrite list_lookup_insert_eq in E by lia. discriminate.
    + reflexivity.
    + apply lookup_ge_None in E.
      rewrite clear_slots_length, length_insert in E. lia.
  - replace (o + i) with (o + 1 + (i - 1)) by lia.
    apply IH; [exact Hc| rewrite length_insert; exact Hl | lia].
Qed.

(** In a window of [cap] consecutive sequence numbers every index occurs. *)
Lemma window_covers (o cap : Z) (j : nat) :
  0 < cap -> Z.of_nat j < cap ->
  exists i, 0 <= i < cap /\ Z.to_nat ((o + i) mod cap) = j.
Proof.
  intros Hc Hj. exists ((Z.of_nat j - o) mod cap). split.
  - apply mod_in_range. exact Hc.
  - rewrite Zplus_mod_idemp_r.
    replace (o + (Z.of_nat j - o)) with (Z.of_nat j) by lia.
    rewrite Z.mod_small by lia. apply Nat2Z.id.
Qed.

(** Two sequence numbers of one window that share an index are equal. *)
Lemma window_index_inj (a b cap : Z) :
  0 < cap -> 0 <= a - b < cap -> a mod cap = b mod cap -> a = b.
Proof.
  intros Hc Hab Hm.
  assert (H : (a - b) mod cap = 0).
  { rewrite Zminus_mod, Hm, Z.sub_diag. apply Z.mod_0_l. lia. }
  rewrite Z.mod_small in H by lia. lia.
Qed.

(** ** [remove] on a buffer with an origin *)

#[local] Arguments py_index : simpl never.
#[local] Arguments Z.modulo : simpl never.
#[local] Arguments Z.mul : simpl never.
#[local] Arguments Z.add : simpl never.
#[local] Arguments Z.sub : simpl never.
#[local] Arguments Z.of_nat : simpl never.
#[local] Arguments Z.to_nat : simpl never.

Lemma remove_loop_ok n : forall cap o l pf,
  0 < cap -> Z.of_nat (length l) = cap ->
  remove_loop n (mkJitterBuffer cap (Some o) l pf) =
  (Val tt, mkJitterBuffer cap (Some (o + Z.of_nat n)) (clear_slots n o cap l) pf).
Proof.
  induction n as [|n IH]; intros cap o l pf Hc Hl.
  - cbn. rewrite Z.add_0_r. reflexivity.
  - cbn [remove_loop]. unfold bind, origin_int, get_origin, get_capacity, py_mod,
      setitem, set_origin, ret. simpl.
    destruct (Z.eqb_spec cap 0) as [?|_]; [lia|]. simpl.
    rewrite py_index_in_range by (rewrite Hl; apply mod_in_range; exact Hc).
    simpl.
    rewrite IH by (rewrite ?length_insert; assumption).
    replace (o + 1 + Z.of_nat n) with (o + Z.of_nat (S n)) by lia. reflexivity.
Qed.

Lemma remove_ok (n : Z) (jb : JitterBuffer) (o : Z) :
  shape jb -> 0 < _capacity jb -> _origin jb = Some o -> n <= _capacity jb ->
  remove n jb = (Val tt, removed n o jb).
Proof.
  destruct jb as [cap og l pf]. unfold shape. cbn. intros [_ Hl] Hc -> Hn.
  unfold remove, bind, get_capacity. cbn.
  destruct (Z.leb_spec n cap); [|lia].
  rewrite remove_loop_ok by assumption. reflexivity.
Qed.

(** [remove(count)] with [count <= 0] runs no iteration. *)
Lemma remove_nonpos (n : Z) (jb : JitterBuffer) :
  n <= 0 -> n <= _capacity jb -> remove n jb = (Val tt, jb).
Proof.
  intros H0 Hn. unfold remove, bind, get_capacity. cbn.
  destruct (Z.leb_spec n (_capacity jb)); [|lia].
  replace (Z.to_nat n) with O by lia. reflexivity.
Qed.

Lemma removed_shape (n o : Z) (jb : JitterBuffer) :
  shape jb -> shape (removed n o jb).
Proof.
  unfold shape, removed. cbn. rewrite clear_slots_length. tauto.
Qed.

Lemma removed_inv (n o : Z) (jb : JitterBuffer) :
  shape jb -> 0 < _capacity jb -> _origin jb = Some o ->
  window_inv jb -> window_inv (removed n o jb).
Proof.
  intros [_ Hl] Hc Ho Hinv j p Hj. unfold removed in *. cbn in *.
  pose proof (clear_slots_some _ _ _ _ _ _ Hj) as Hold.
  destruct (Hinv j p Hold) as (o' & Ho' & Hw & Hidx).
  rewrite Ho in Ho'. injection Ho' as <-.
  exists (o + Z.of_nat (Z.to_nat n)). split; [reflexivity|]. split; [|exact Hidx].
  destruct (Z.lt_ge_cases (RtpPacket.sequence_number p - o) (Z.of_nat (Z.to_nat n)))
    as [Hlt|Hge]; [|lia].
  exfalso.
  pose proof (clear_slots_cleared (Z.to_nat n) o (_capacity jb) (_packets jb)
                (RtpPacket.sequence_number p - o) Hc Hl ltac:(lia)) as Hcl.
  replace (o + (RtpPacket.sequence_number p - o))
    with (RtpPacket.sequence_number p) in Hcl by lia.
  rewrite <- Hidx, Nat2Z.id in Hcl. congruence.
Qed.

(** ** The scan of [_remove_frame] *)

Lemma slot_lookup (jb : JitterBuffer) (s : Z) :
  shape jb -> 0 < _capacity jb ->
  _packets jb !! Z.to_nat (s mod _capacity jb) = Some (slot jb s).
Proof.
  intros [_ Hl] Hc. unfold slot.
  destruct (_packets jb !! Z.to_nat (s mod _capacity jb)) as [x|] eqn:E;
    [reflexivity|].
  apply lookup_ge_None in E.
  pose proof (mod_in_range s (_capacity jb) Hc). lia.
Qed.

(** Equations for the steps of a method body. *)
Lemma bind_Val {A B} (m : M A) (k : A -> M B) (jb jb' : JitterBuffer) (a : A) :
  m jb = (Val a, jb') -> bind m k jb = k a jb'.
Proof. intros H. unfold bind. rewrite H. reflexivity. Qed.

Lemma bind_Raise {A B} (m : M A) (k : A -> M B) (jb jb' : JitterBuffer) (e : exn) :
  m jb = (Raise e, jb') -> bind m k jb = (Raise e, jb').
Proof. intros H. unfold bind. rewrite H. reflexivity. Qed.

Lemma origin_int_some (jb : JitterBuffer) (o : Z) :
  _origin jb = Some o -> origin_int jb = (Val o, jb).
Proof. intros H. unfold origin_int, bind, get_origin. rewrite H. reflexivity. Qed.

Lemma origin_int_none (jb : JitterBuffer) :
  _origin jb = None -> origin_int jb = (Raise TypeError, jb).
Proof. intros H. unfold origin_int, bind, get_origin. rewrite H. reflexivity. Qed.

Lemma py_mod_ok (a b : Z) (jb : JitterBuffer) :
  b <> 0 -> py_mod a b jb = (Val (a mod b), jb).
Proof.
  intros H. unfold py_mod. destruct (Z.eqb_spec b 0); [contradiction|reflexivity].
Qed.

Lemma getitem_ok (jb : JitterBuffer) (s : Z) :
  shape jb -> 0 < _capacity jb ->
  getitem (s mod _capacity jb) jb = (Val (slot jb s), jb).
Proof.
  intros Hs Hc. pose proof (slot_lookup jb s Hs Hc) as Hslot.
  destruct Hs as [_ Hl]. unfold getitem.
  rewrite py_index_in_range by (rewrite Hl; apply mod_in_range; exact Hc).
  rewrite Hslot. reflexivity.
Qed.

Lemma setitem_ok (jb : JitterBuffer) (s : Z) (v : option RtpPacket.t) :
  shape jb -> 0 < _capacity jb ->
  setitem (s mod _capacity jb) v jb =
  (Val tt, mkJitterBuffer (_capacity jb) (_origin jb)
             (<[Z.to_nat (s mod _capacity jb) := v]> (_packets jb)) (_prefetch jb)).
Proof.
  intros [_ Hl] Hc. unfold setitem.
  rewrite py_index_in_range by (rewrite Hl; apply mod_in_range; exact Hc).
  reflexivity.
Qed.

(** One iteration of the loop, on a buffer with an origin. *)
Lemma scan_S (fuel : nat) (count : Z) (l : locals) (jb : JitterBuffer) (o : Z) :
  shape jb -> 0 < _capacity jb -> _origin jb = Some o ->
  scan (S fuel) count l jb =
  match slot jb (o + count) with
  | None => (Val None, jb)
  | Some packet => scan_packet (scan fuel (count + 1)) count l packet jb
  end.
Proof.
  intros Hs Hc Ho. cbn [scan].
  assert (Hne : _capacity jb <> 0) by lia.
  rewrite (bind_Val _ _ _ _ _ (origin_int_some _ _ Ho)).
  rewrite (bind_Val get_capacity _ jb jb _ eq_refl).
  rewrite (bind_Val _ _ _ _ _ (py_mod_ok _ _ jb Hne)).
  rewrite (bind_Val _ _ _ _ _ (getitem_ok jb _ Hs Hc)).
  destruct (slot jb (o + count)); reflexivity.
Qed.

Section Scan.
Variable jb : JitterBuffer.
Variable o : Z.
Hypothesis Hshape : shape jb.
Hypothesis Hcap : 0 < _capacity jb.
Hypothesis Horigin : _origin jb = Some o.

  (** After the first boundary: a frame is held. *)
Lemma scan_held (ps : list RtpPacket.t) (f : JitterFrame.t) :
    frame_at jb o ps f ->
    forall fuel count l,
      l_frame l = Some f -> l_remove l = Z.of_nat (length ps) ->
      scan_post jb o (scan fuel count l jb).
  Proof.
    intros Hf. induction fuel as [|fuel IH]; intros count l Hlf Hlr.
    - left. reflexivity.
    - rewrite (scan_S _ _ _ _ o) by assumption.
      destruct (slot jb (o + count)) as [packet|]; [|left; reflexivity].
      unfold scan_packet. destruct (l_timestamp l) as [ts|].
      + destruct (negb (RtpPacket.timestamp packet =? ts)).
        * unfold hold_frame. rewrite Hlf. unfold bind at 1. unfold ret at 1.
          unfold bind at 1. unfold get_prefetch at 1.
          destruct (_prefetch jb <=? l_frames l + 1).
          -- right. exists ps, f. split; [exact Hf|].
             unfold bind. rewrite Hlr.
             rewrite (remove_ok _ _ o) by (try assumption; destruct Hf; lia).
             rewrite Hlf. reflexivity.
          -- apply IH; assumption.
        * apply IH; assumption.
      + apply IH; assumption.
  Qed.

Lemma run_at_snoc (ps : list RtpPacket.t) (p : RtpPacket.t) :
    run_at jb o ps -> slot jb (o + Z.of_nat (length ps)) = Some p ->
    run_at jb o (ps ++ [p]).
  Proof.
    intros Hr Hp i q Hi.
    destruct (decide (i < length ps)%nat) as [Hlt|Hge].
    - rewrite lookup_app_l in Hi by exact Hlt. apply Hr. exact Hi.
    - rewrite lookup_app_r in Hi by lia.
      destruct (i - length ps)%nat as [|k] eqn:E; [|destruct k; discriminate].
      injection Hi as <-. replace i with (length ps) by lia. exact Hp.
  Qed.

Lemma scan_scanning :
    forall fuel count l,
      scanning jb o count l -> count + Z.of_nat fuel <= _capacity jb ->
      scan_post jb o (scan fuel count l jb).
  Proof.
    induction fuel as [|fuel IH]; intros count l Hl Hfuel.
    - left. reflexivity.
    - rewrite (scan_S _ _ _ _ o) by assumption.
      destruct (slot jb (o + count)) as [packet|] eqn:Hslot; [|left; reflexivity].
      destruct Hl as (Hlf & Hcount & Hrun & Hnil & Hts & Hhead).
      unfold scan_packet.
      destruct (l_packets l) as [|p0 ps'] eqn:Hps.
      + (* first packet of the scan *)
        rewrite Hnil by reflexivity. apply IH; [|lia].
        unfold scanning. cbn [l_frame l_packets l_timestamp l_ntp_timestamp l_rtp_diff].
        rewrite ?Hps. cbn [app length].
        split; [exact Hlf|]. split; [simpl in *; lia|].
        split.
        { intros i q Hi. destruct i as [|i]; [|discriminate].
          injection Hi as <-. simpl in Hcount. subst count. exact Hslot. }
        split; [discriminate|]. split.
        { intros q Hq. apply list_elem_of_singleton in Hq. subst q. reflexivity. }
        intros p ps'' Heq. injection Heq as <- <-. split; reflexivity.
      + rewrite (Hts p0) by (left).
        destruct (Hhead p0 ps' eq_refl) as [Hntp Hrd].
        destruct (Z.eqb_spec (RtpPacket.timestamp packet) (RtpPacket.timestamp p0))
          as [Heq|Hne]; cbn [negb].
        * (* same frame *)
          apply IH; [|lia].
          unfold scanning. cbn [l_frame l_packets l_timestamp l_ntp_timestamp l_rtp_diff].
          rewrite ?Hps.
          split; [exact Hlf|]. split; [rewrite length_app; simpl in *; lia|].
          split.
          { apply run_at_snoc; [exact Hrun|].
            rewrite <- Hcount. exact Hslot. }
          split; [discriminate|]. split.
          { intros q Hq. apply elem_of_app in Hq. destruct Hq as [Hq|Hq].
            - rewrite <- (Hts p0) by left. apply Hts. exact Hq.
            - apply list_elem_of_singleton in Hq. subst q.
              rewrite Heq. reflexivity. }
          intros p ps'' Heq'. injection Heq' as <- _.
          split; assumption.
        * (* boundary: the first frame is complete *)
          assert (Hframe : frame_at jb o (p0 :: ps')
                    (JitterFrame.mk (join_data (p0 :: ps')) (p0 :: ps')
                       (RtpPacket.timestamp p0) (RtpPacket.ntp_timestamp p0)
                       (RtpPacket.rtp_diff p0))).
          { split; [reflexivity|]. split; [lia|].
            split; [exact Hrun|]. split.
            - intros q Hq. cbn [JitterFrame.timestamp].
              pose proof (Hts q Hq) as Hq'. rewrite (Hts p0) in Hq' by left.
              injection Hq' as ->. reflexivity.
            - exists packet. rewrite <- Hcount. split; [exact Hslot|exact Hne]. }
          unfold hold_frame. rewrite Hlf, (Hts p0), Hntp, Hrd by left.
          rewrite !Hps.
          unfold bind at 1. unfold ret at 1.
          cbn [l_frame l_frames l_packets l_remove l_timestamp l_ntp_timestamp l_rtp_diff].
          unfold bind at 1. unfold get_prefetch at 1.
          destruct (_prefetch jb <=? l_frames l + 1).
          -- right. eexists _, _. split; [exact Hframe|].
             unfold bind. rewrite ?Hps.
             rewrite (remove_ok _ _ o) by (try assumption; lia).
             rewrite Hcount. reflexivity.
          -- eapply scan_held; [exact Hframe|reflexivity|].
             cbn [l_remove]. rewrite ?Hps. exact Hcount.
  Qed.

Lemma _remove_frame_post (s : Z) : scan_post jb o (_remove_frame s jb).
  Proof.
    unfold _remove_frame, bind, get_capacity.
    apply scan_scanning; [|lia].
    unfold scanning, locals0. cbn.
    split; [reflexivity|]. split; [reflexivity|].
    split; [intros i q Hi; discriminate|].
    split; [reflexivity|].
    split; [intros q Hq; inversion Hq|].
    intros p ps' Heq. discriminate.
  Qed.
End Scan.

(** ** The blocks of [add] *)

Lemma establish_origin_none (p : RtpPacket.t) (jb : JitterBuffer) :
  _origin jb = None ->
  establish_origin p jb = (Val false, with_origin (RtpPacket.sequence_number p) jb).
Proof.
  intros Ho. unfold establish_origin.
  rewrite (bind_Val get_origin _ jb jb _ eq_refl). rewrite Ho. reflexivity.
Qed.

Lemma establish_origin_some (p : RtpPacket.t) (jb : JitterBuffer) (o : Z) :
  shape jb -> 0 < _capacity jb -> _origin jb = Some o ->
  establish_origin p jb =
  if RtpPacket.sequence_number p <=? o - MAX_MISORDER then
    (Val false, flushed (RtpPacket.sequence_number p) o jb)
  else if RtpPacket.sequence_number p <? o then (Val true, jb)
  else (Val false, jb).
Proof.
  intros Hs Hc Ho. unfold establish_origin.
  rewrite (bind_Val get_origin _ jb jb _ eq_refl). rewrite Ho.
  destruct (RtpPacket.sequence_number p <=? o - MAX_MISORDER).
  - assert (Hr : (let* cap := get_capacity in remove cap) jb
                 = (Val tt, removed (_capacity jb) o jb)).
    { rewrite (bind_Val get_capacity _ jb jb _ eq_refl).
      apply remove_ok; try assumption. lia. }
    rewrite (bind_Val _ _ _ _ _ Hr). reflexivity.
  - destruct (RtpPacket.sequence_number p <? o); reflexivity.
Qed.

Lemma fit_window_some (p : RtpPacket.t) (jb : JitterBuffer) (o : Z) :
  shape jb -> 0 < _capacity jb -> _origin jb = Some o ->
  fit_window p jb =
  let delta := RtpPacket.sequence_number p - o in
  if 2 * _capacity jb <=? delta then
    (Val tt, flushed (RtpPacket.sequence_number p) o jb)
  else if _capacity jb <=? delta then
    (Val tt, removed (delta - _capacity jb + 1) o jb)
  else (Val tt, jb).
Proof.
  intros Hs Hc Ho. unfold fit_window.
  rewrite (bind_Val _ _ _ _ _ (origin_int_some _ _ Ho)).
  rewrite (bind_Val get_capacity _ jb jb _ eq_refl). cbv zeta.
  destruct (Z.leb_spec (2 * _capacity jb) (RtpPacket.sequence_number p - o)).
  - assert (Hr : (let* cap := get_capacity in remove cap) jb
                 = (Val tt, removed (_capacity jb) o jb)).
    { rewrite (bind_Val get_capacity _ jb jb _ eq_refl).
      apply remove_ok; try assumption. lia. }
    rewrite (bind_Val _ _ _ _ _ Hr). reflexivity.
  - destruct (Z.leb_spec (_capacity jb) (RtpPacket.sequence_number p - o)).
    + rewrite (bind_Val get_capacity _ jb jb _ eq_refl).
      apply remove_ok; try assumption. lia.
    + reflexivity.
Qed.

Lemma store_ok (p : RtpPacket.t) (jb : JitterBuffer) :
  shape jb -> 0 < _capacity jb ->
  store p jb = (Val tt, with_slot (RtpPacket.sequence_number p) (Some p) jb).
Proof.
  intros Hs Hc. unfold store.
  assert (Hne : _capacity jb <> 0) by lia.
  rewrite (bind_Val get_capacity _ jb jb _ eq_refl).
  rewrite (bind_Val _ _ _ _ _ (py_mod_ok _ _ jb Hne)).
  apply setitem_ok; assumption.
Qed.

Lemma with_origin_shape (o : Z) (jb : JitterBuffer) :
  shape jb -> shape (with_origin o jb).
Proof. unfold shape, with_origin. cbn. tauto. Qed.

Lemma with_slot_shape (s : Z) (v : option RtpPacket.t) (jb : JitterBuffer) :
  shape jb -> shape (with_slot s v jb).
Proof. unfold shape, with_slot. cbn. rewrite length_insert. tauto. Qed.

Lemma flushed_shape (s o : Z) (jb : JitterBuffer) :
  shape jb -> shape (flushed s o jb).
Proof. intros H. apply with_origin_shape, removed_shape, H. Qed.

(** A full flush leaves no packet behind. *)
Lemma flushed_empty (s o : Z) (jb : JitterBuffer) (j : nat) (p : RtpPacket.t) :
  shape jb -> 0 < _capacity jb ->
  _packets (flushed s o jb) !! j <> Some (Some p).
Proof.
  intros [_ Hl] Hc H. unfold flushed, with_origin, removed in H. cbn in H.
  assert (Hj : Z.of_nat j < _capacity jb).
  { apply lookup_lt_Some in H. rewrite clear_slots_length in H. lia. }
  destruct (window_covers o (_capacity jb) j Hc Hj) as (i & Hi & <-).
  rewrite clear_slots_cleared in H by (try assumption; lia). discriminate.
Qed.

Lemma flushed_inv (s o : Z) (jb : JitterBuffer) :
  shape jb -> 0 < _capacity jb -> window_inv (flushed s o jb).
Proof.
  intros Hs Hc j p H. exfalso. exact (flushed_empty s o jb j p Hs Hc H).
Qed.

Lemma slot_with_slot_eq (s : Z) (v : option RtpPacket.t) (jb : JitterBuffer) :
  shape jb -> 0 < _capacity jb -> slot (with_slot s v jb) s = v.
Proof.
  intros [_ Hl] Hc. unfold slot, with_slot. cbn.
  pose proof (mod_in_range s (_capacity jb) Hc).
  rewrite list_lookup_insert_eq by lia. reflexivity.
Qed.

Lemma slot_with_slot_ne (s s' : Z) (v : option RtpPacket.t) (jb : JitterBuffer) :
  0 < _capacity jb -> s mod _capacity jb <> s' mod _capacity jb ->
  slot (with_slot s v jb) s' = slot jb s'.
Proof.
  intros Hc Hne. unfold slot, with_slot. cbn.
  pose proof (mod_in_range s (_capacity jb) Hc).
  pose proof (mod_in_range s' (_capacity jb) Hc).
  rewrite list_lookup_insert_ne by lia. reflexivity.
Qed.

(** Storing a packet of the current window keeps the invariant. *)
Lemma with_slot_inv (p : RtpPacket.t) (jb : JitterBuffer) (o : Z) :
  shape jb -> 0 < _capacity jb -> _origin jb = Some o ->
  0 <= RtpPacket.sequence_number p - o < _capacity jb ->
  window_inv jb ->
  window_inv (with_slot (RtpPacket.sequence_number p) (Some p) jb).
Proof.
  intros [_ Hl] Hc Ho Hw Hinv j q Hj. unfold with_slot in *. cbn in *.
  pose proof (mod_in_range (RtpPacket.sequence_number p) (_capacity jb) Hc) as Hm.
  destruct (decide (Z.to_nat (RtpPacket.sequence_number p mod _capacity jb) = j))
    as [Heq|Hne].
  - subst j. rewrite list_lookup_insert_eq in Hj by lia.
    injection Hj as <-. exists o. split; [exact Ho|]. split; [exact Hw|lia].
  - rewrite list_lookup_insert_ne in Hj by exact Hne. apply Hinv. exact Hj.
Qed.

(** ** What no method changes *)

Lemma same_frame_refl jb : same_frame jb jb.
Proof. unfold same_frame. tauto. Qed.

Lemma same_frame_trans jb1 jb2 jb3 :
  same_frame jb1 jb2 -> same_frame jb2 jb3 -> same_frame jb1 jb3.
Proof. unfold same_frame. intros (-> & -> & ->) (-> & -> & ->). tauto. Qed.

Lemma same_frame_shape jb jb' : same_frame jb jb' -> shape jb -> shape jb'.
Proof. unfold same_frame, shape. intros (-> & _ & ->). tauto. Qed.

Lemma preserves_pure {A} (m : M A) :
  (forall jb, snd (m jb) = jb) -> preserves m.
Proof.
  intros H jb r jb' E. specialize (H jb). rewrite E in H. simpl in H. subst jb'.
  apply same_frame_refl.
Qed.

Lemma preserves_ret {A} (a : A) : preserves (ret a).
Proof. apply preserves_pure. reflexivity. Qed.

Lemma preserves_raise {A} (e : exn) : preserves (@raise A e).
Proof. apply preserves_pure. reflexivity. Qed.

Lemma preserves_bind {A B} (m : M A) (k : A -> M B) :
  preserves m -> (forall a, preserves (k a)) -> preserves (bind m k).
Proof.
  intros Hm Hk jb r jb' E. unfold bind in E.
  destruct (m jb) as [[a|e] jb1] eqn:Em.
  - eapply same_frame_trans; [eapply Hm; exact Em | eapply Hk; exact E].
  - injection E as _ <-. eapply Hm. exact Em.
Qed.

Lemma preserves_get_capacity : preserves get_capacity.
Proof. apply preserves_pure. reflexivity. Qed.

Lemma preserves_get_prefetch : preserves get_prefetch.
Proof. apply preserves_pure. reflexivity. Qed.

Lemma preserves_get_origin : preserves get_origin.
Proof. apply preserves_pure. reflexivity. Qed.

Lemma preserves_set_origin o : preserves (set_origin o).
Proof.
  intros jb r jb' E. unfold set_origin in E. injection E as _ <-.
  unfold same_frame. cbn. tauto.
Qed.

Lemma preserves_origin_int : preserves origin_int.
Proof.
  unfold origin_int. apply preserves_bind; [apply preserves_get_origin|].
  intros [n|]; [apply preserves_ret|apply preserves_raise].
Qed.

Lemma preserves_py_mod a b : preserves (py_mod a b).
Proof.
  unfold py_mod. destruct (b =? 0); [apply preserves_raise|apply preserves_ret].
Qed.

Lemma preserves_getitem pos : preserves (getitem pos).
Proof.
  apply preserves_pure. intros jb. unfold getitem.
  destruct (py_index _ pos); [|reflexivity].
  destruct (_packets jb !! n); reflexivity.
Qed.

Lemma preserves_setitem pos v : preserves (setitem pos v).
Proof.
  intros jb r jb' E. unfold setitem in E.
  destruct (py_index _ pos).
  - injection E as _ <-. unfold same_frame. cbn. rewrite length_insert. tauto.
  - injection E as _ <-. apply same_frame_refl.
Qed.

Create HintDb preserves.
#[local] Hint Resolve preserves_ret preserves_raise preserves_get_capacity
  preserves_get_prefetch preserves_get_origin preserves_set_origin
  preserves_origin_int preserves_py_mod preserves_getitem preserves_setitem
  : preserves.

Ltac preserves_step :=
  first [ solve [auto with preserves] | apply preserves_bind; [|intros ?] ].

Lemma preserves_remove_loop n : preserves (remove_loop n).
Proof.
  induction n as [|n IH]; cbn [remove_loop]; [apply preserves_ret|].
  repeat preserves_step.
Qed.

Lemma preserves_remove count : preserves (remove count).
Proof.
  unfold remove. preserves_step; [preserves_step|].
  destruct (count <=? a); [apply preserves_remove_loop|apply preserves_raise].
Qed.
#[local] Hint Resolve preserves_remove : preserves.

Lemma preserves_hold_frame count l : preserves (hold_frame count l).
Proof.
  unfold hold_frame. destruct (l_frame l); [apply preserves_ret|].
  destruct (l_timestamp l), (l_ntp_timestamp l), (l_rtp_diff l);
    auto with preserves.
Qed.
#[local] Hint Resolve preserves_hold_frame : preserves.

Lemma preserves_scan_packet continue count l packet :
  (forall l', preserves (continue l')) ->
  preserves (scan_packet continue count l packet).
Proof.
  intros Hk. unfold scan_packet. destruct (l_timestamp l); [|apply Hk].
  destruct (negb _); [|apply Hk].
  preserves_step; [preserves_step|]. preserves_step; [preserves_step|].
  destruct (_ <=? _); [|apply Hk]. repeat preserves_step.
Qed.

Lemma preserves_scan fuel : forall count l, preserves (scan fuel count l).
Proof.
  induction fuel as [|fuel IH]; intros count l; cbn [scan]; [apply preserves_ret|].
  do 4 (preserves_step; [preserves_step|]).
  destruct a2; [|apply preserves_ret].
  apply preserves_scan_packet. intros l'. apply IH.
Qed.

Lemma preserves__remove_frame s : preserves (_remove_frame s).
Proof.
  unfold _remove_frame. preserves_step; [preserves_step|]. apply preserves_scan.
Qed.

Lemma preserves_establish_origin p : preserves (establish_origin p).
Proof.
  unfold establish_origin. preserves_step; [preserves_step|].
  destruct a as [o|]; [|repeat preserves_step].
  destruct (_ <=? _); [repeat preserves_step|].
  destruct (_ <? _); apply preserves_ret.
Qed.

Lemma preserves_fit_window p : preserves (fit_window p).
Proof.
  unfold fit_window. do 2 (preserves_step; [preserves_step|]). cbv zeta.
  destruct (_ <=? _); [repeat preserves_step|].
  destruct (_ <=? _); repeat preserves_step.
Qed.

Lemma preserves_store p : preserves (store p).
Proof. unfold store. repeat preserves_step. Qed.

Lemma preserves_add p : preserves (add p).
Proof.
  unfold add. preserves_step; [apply preserves_establish_origin|].
  destruct a; [apply preserves_ret|].
  preserves_step; [apply preserves_fit_window|].
  preserves_step; [apply preserves_store|]. apply preserves__remove_frame.
Qed.

Lemma init_shape capacity prefetch jb :
  init capacity prefetch = inr jb ->
  jb = mkJitterBuffer capacity None (replicate (Z.to_nat capacity) None) prefetch /\
  Z.land capacity (capacity - 1) = 0.
Proof.
  unfold init. destruct (Z.eqb_spec (Z.land capacity (capacity - 1)) 0) as [E|E];
    [|discriminate].
  intros H. injection H as <-. split; [reflexivity|exact E].
Qed.

(** ** [add] up to the scan *)

Lemma fit_store (p : RtpPacket.t) (jb : JitterBuffer) (o : Z)
    (k : M (option JitterFrame.t)) :
  shape jb -> 0 < _capacity jb -> _origin jb = Some o ->
  (fit_window p >> store p >> k) jb =
  let s := RtpPacket.sequence_number p in
  k (with_slot s (Some p)
       (if 2 * _capacity jb <=? s - o then flushed s o jb
        else if _capacity jb <=? s - o then removed (s - o - _capacity jb + 1) o jb
        else jb)).
Proof.
  intros Hs Hc Ho. cbv zeta.
  pose proof (fit_window_some p jb o Hs Hc Ho) as Hfit. cbv zeta in Hfit.
  destruct (2 * _capacity jb <=? RtpPacket.sequence_number p - o).
  - rewrite (bind_Val _ _ _ _ _ Hfit).
    rewrite (bind_Val _ _ _ _ _ (store_ok p _ (flushed_shape _ _ _ Hs) Hc)).
    reflexivity.
  - destruct (_capacity jb <=? RtpPacket.sequence_number p - o).
    + rewrite (bind_Val _ _ _ _ _ Hfit).
      rewrite (bind_Val _ _ _ _ _ (store_ok p _ (removed_shape _ _ _ Hs) Hc)).
      reflexivity.
    + rewrite (bind_Val _ _ _ _ _ Hfit).
      rewrite (bind_Val _ _ _ _ _ (store_ok p _ Hs Hc)). reflexivity.
Qed.

Lemma add_placed (p : RtpPacket.t) (jb : JitterBuffer) :
  shape jb -> 0 < _capacity jb ->
  add p jb =
  match placed p jb with
  | None => (Val None, jb)
  | Some jb1 => _remove_frame (RtpPacket.sequence_number p) jb1
  end.
Proof.
  intros Hs Hc. unfold add, placed. cbv zeta.
  destruct (_origin jb) as [o|] eqn:Ho.
  - pose proof (establish_origin_some p jb o Hs Hc Ho) as He.
    destruct (Z.leb_spec (RtpPacket.sequence_number p) (o - MAX_MISORDER)) as [Hm|Hm].
    + rewrite (bind_Val _ _ _ _ _ He).
      rewrite (fit_store p _ (RtpPacket.sequence_number p))
        by (try apply flushed_shape; try assumption; reflexivity).
      cbv zeta. change (_capacity (flushed _ o jb)) with (_capacity jb).
      rewrite Z.sub_diag.
      destruct (Z.leb_spec (2 * _capacity jb) 0); [lia|].
      destruct (Z.leb_spec (_capacity jb) 0); [lia|]. reflexivity.
    + destruct (Z.ltb_spec (RtpPacket.sequence_number p) o) as [Hl|Hl].
      * rewrite (bind_Val _ _ _ _ _ He). reflexivity.
      * rewrite (bind_Val _ _ _ _ _ He).
        rewrite (fit_store p _ o) by assumption. cbv zeta.
        destruct (2 * _capacity jb <=? RtpPacket.sequence_number p - o);
          [reflexivity|].
        destruct (_capacity jb <=? RtpPacket.sequence_number p - o); reflexivity.
  - rewrite (bind_Val _ _ _ _ _ (establish_origin_none p jb Ho)).
    rewrite (fit_store p _ (RtpPacket.sequence_number p))
      by (try apply with_origin_shape; try assumption; reflexivity).
    cbv zeta. change (_capacity (with_origin _ jb)) with (_capacity jb).
    rewrite Z.sub_diag.
    destruct (Z.leb_spec (2 * _capacity jb) 0); [lia|].
    destruct (Z.leb_spec (_capacity jb) 0); [lia|]. reflexivity.
Qed.

(** The buffer handed to the scan: the packet is in its slot, inside the
    window, and the window invariant has been kept. *)
Lemma placed_props (p : RtpPacket.t) (jb jb1 : JitterBuffer) :
  shape jb -> 0 < _capacity jb -> placed p jb = Some jb1 ->
  shape jb1 /\ _capacity jb1 = _capacity jb /\ _prefetch jb1 = _prefetch jb /\
  slot jb1 (RtpPacket.sequence_number p) = Some p /\
  (exists o1, _origin jb1 = Some o1 /\
     0 <= RtpPacket.sequence_number p - o1 < _capacity jb) /\
  (window_inv jb -> window_inv jb1).
Proof.
  intros Hs Hc. unfold placed. cbv zeta.
  set (s := RtpPacket.sequence_number p).
  assert (Hflush : forall o, 
    let jb1 := with_slot s (Some p) (flushed s o jb) in
    shape jb1 /\ _capacity jb1 = _capacity jb /\ _prefetch jb1 = _prefetch jb /\
    slot jb1 s = Some p /\
    (exists o1, _origin jb1 = Some o1 /\ 0 <= s - o1 < _capacity jb) /\
    (window_inv jb -> window_inv jb1)).
  { intros o. cbv zeta.
    split; [apply with_slot_shape, flushed_shape, Hs|].
    split; [reflexivity|]. split; [reflexivity|].
    split; [apply slot_with_slot_eq; [apply flushed_shape, Hs|exact Hc]|].
    split; [exists s; split; [reflexivity|lia]|].
    intros _. apply (with_slot_inv p _ s);
      [apply flushed_shape, Hs|exact Hc|reflexivity|
       change (_capacity (flushed s o jb)) with (_capacity jb); unfold s; lia|
       apply flushed_inv; assumption]. }
  destruct (_origin jb) as [o|] eqn:Ho.
  - destruct (Z.leb_spec s (o - MAX_MISORDER)) as [Hm|Hm].
    { intros H. injection H as <-. apply Hflush. }
    destruct (Z.ltb_spec s o) as [Hl|Hl]; [discriminate|].
    destruct (Z.leb_spec (2 * _capacity jb) (s - o)) as [H2|H2].
    { intros H. injection H as <-. apply Hflush. }
    destruct (Z.leb_spec (_capacity jb) (s - o)) as [H1|H1].
    + intros H. injection H as <-.
      split; [apply with_slot_shape, removed_shape, Hs|].
      split; [reflexivity|]. split; [reflexivity|].
      split; [apply slot_with_slot_eq; [apply removed_shape, Hs|exact Hc]|].
      split.
      { eexists. split; [reflexivity|]. lia. }
      intros Hinv. eapply (with_slot_inv p);
        [apply removed_shape, Hs|exact Hc|reflexivity| |
         apply removed_inv; assumption].
      change (_capacity (removed _ o jb)) with (_capacity jb). fold s. lia.
    + intros H. injection H as <-.
      split; [apply with_slot_shape, Hs|].
      split; [reflexivity|]. split; [reflexivity|].
      split; [apply slot_with_slot_eq; assumption|].
      split; [exists o; split; [exact Ho|lia]|].
      intros Hinv. apply (with_slot_inv p jb o); try assumption. fold s. lia.
  - intros H. injection H as <-.
    split; [apply with_slot_shape, with_origin_shape, Hs|].
    split; [reflexivity|]. split; [reflexivity|].
    split; [apply slot_with_slot_eq; [apply with_origin_shape, Hs|exact Hc]|].
    split; [exists s; split; [reflexivity|lia]|].
    intros Hinv. apply (with_slot_inv p _ s);
      [apply with_origin_shape, Hs|exact Hc|reflexivity|
       change (_capacity (with_origin s jb)) with (_capacity jb); unfold s; lia|].
    intros j q Hj. cbn in Hj. destruct (Hinv j q Hj) as (o' & Ho' & _).
    congruence.
Qed.

(** ** Reachable buffers *)

Lemma init_capacity_nonneg capacity prefetch jb :
  init capacity prefetch = inr jb -> 0 <= capacity.
Proof.
  intros H. apply init_shape in H. destruct H as [_ Hland].
  destruct (Z.lt_ge_cases capacity 0) as [Hneg|Hpos]; [|lia].
  assert (Z.land capacity (capacity - 1) < 0) by (apply Z.land_neg; lia). lia.
Qed.

Lemma window_inv_no_packets (jb : JitterBuffer) :
  (forall j p, _packets jb !! j <> Some (Some p)) -> window_inv jb.
Proof. intros H j p Hj. exfalso. exact (H j p Hj). Qed.

Lemma window_inv_capacity_0 (jb : JitterBuffer) :
  shape jb -> _capacity jb = 0 -> window_inv jb.
Proof.
  intros [_ Hl] H0. apply window_inv_no_packets. intros j p Hj.
  apply lookup_lt_Some in Hj. lia.
Qed.

(** [remove] either leaves the buffer as it is (no iteration, or an
    exception before the first write) or runs to completion. *)
Lemma remove_cases (count : Z) (jb : JitterBuffer) r jb' :
  shape jb -> remove count jb = (r, jb') ->
  jb' = jb \/
  exists o, _origin jb = Some o /\ 0 < _capacity jb /\ count <= _capacity jb /\
            r = Val tt /\ jb' = removed count o jb.
Proof.
  intros Hs H.
  destruct (Z.leb_spec count (_capacity jb)) as [Hle|Hgt].
  - destruct (Z.le_gt_cases count 0) as [H0|H0].
    { rewrite remove_nonpos in H by assumption. injection H as _ <-. left. reflexivity. }
    destruct (_origin jb) as [o|] eqn:Ho.
    + right. exists o. rewrite (remove_ok count jb o) in H by (try assumption; lia).
      injection H as <- <-. repeat split; try reflexivity; lia.
    + left. unfold remove in H.
      rewrite (bind_Val get_capacity _ jb jb _ eq_refl) in H.
      destruct (Z.leb_spec count (_capacity jb)); [|lia].
      destruct (Z.to_nat count) as [|n] eqn:En; [lia|].
      cbn [remove_loop] in H.
      rewrite (bind_Raise _ _ _ _ _ (origin_int_none jb Ho)) in H.
      injection H as _ <-. reflexivity.
  - left. unfold remove in H.
    rewrite (bind_Val get_capacity _ jb jb _ eq_refl) in H.
    destruct (Z.leb_spec count (_capacity jb)); [lia|].
    injection H as _ <-. reflexivity.
Qed.

(** What [add] does to a buffer with at least one slot. *)
Lemma add_cases (p : RtpPacket.t) (jb : JitterBuffer) :
  shape jb -> 0 < _capacity jb ->
  (placed p jb = None /\ add p jb = (Val None, jb)) \/
  exists jb1 o1, placed p jb = Some jb1 /\ _origin jb1 = Some o1 /\
    scan_post jb1 o1 (add p jb).
Proof.
  intros Hs Hc. rewrite add_placed by assumption.
  destruct (placed p jb) as [jb1|] eqn:Hp; [right|left; split; reflexivity].
  destruct (placed_props p jb jb1 Hs Hc Hp)
    as (Hs1 & Hc1 & _ & _ & (o1 & Ho1 & _) & _).
  exists jb1, o1. split; [reflexivity|]. split; [exact Ho1|].
  apply _remove_frame_post; [exact Hs1|lia|exact Ho1].
Qed.

Lemma add_keeps_inv (p : RtpPacket.t) (jb : JitterBuffer) r jb' :
  shape jb -> window_inv jb -> add p jb = (r, jb') ->
  shape jb' /\ window_inv jb'.
Proof.
  intros Hs Hinv H.
  assert (Hs' : shape jb').
  { eapply same_frame_shape; [eapply preserves_add; exact H|exact Hs]. }
  split; [exact Hs'|].
  destruct (Z.eq_dec (_capacity jb) 0) as [H0|H0].
  { apply window_inv_capacity_0; [exact Hs'|].
    destruct (preserves_add p jb r jb' H) as (-> & _). exact H0. }
  assert (Hc : 0 < _capacity jb) by (destruct Hs; lia).
  destruct (add_cases p jb Hs Hc) as [[_ Hd]|(jb1 & o1 & Hp & Ho1 & Hpost)].
  - rewrite Hd in H. injection H as _ <-. exact Hinv.
  - destruct (placed_props p jb jb1 Hs Hc Hp) as (Hs1 & Hc1 & _ & _ & _ & Hinv1).
    rewrite H in Hpost. destruct Hpost as [E|(ps & f & _ & E)].
    + injection E as _ ->. apply Hinv1, Hinv.
    + injection E as _ ->. apply removed_inv; try assumption; [lia|].
      apply Hinv1, Hinv.
Qed.

Lemma remove_keeps_inv (count : Z) (jb : JitterBuffer) r jb' :
  shape jb -> window_inv jb -> remove count jb = (r, jb') ->
  shape jb' /\ window_inv jb'.
Proof.
  intros Hs Hinv H.
  destruct (remove_cases count jb r jb' Hs H) as [->|(o & Ho & Hc & _ & _ & ->)].
  - split; assumption.
  - split; [apply removed_shape, Hs|apply removed_inv; assumption].
Qed.

Lemma init_inv capacity prefetch jb :
  init capacity prefetch = inr jb -> shape jb /\ window_inv jb.
Proof.
  intros H. pose proof (init_capacity_nonneg _ _ _ H) as Hc.
  apply init_shape in H. destruct H as [-> _]. split.
  - unfold shape. cbn. rewrite length_replicate. lia.
  - apply window_inv_no_packets. intros j p Hj. cbn in Hj.
    apply lookup_replicate in Hj. destruct Hj as [Hj _]. discriminate.
Qed.

Lemma reachable_inv (jb : JitterBuffer) :
  reachable jb -> shape jb /\ window_inv jb.
Proof.
  induction 1 as [capacity prefetch jb Hi | jb p r jb' _ [Hs Hinv] Ha
                 | jb count r jb' _ [Hs Hinv] Hr].
  - eapply init_inv. exact Hi.
  - eapply add_keeps_inv; eassumption.
  - eapply remove_keeps_inv; eassumption.
Qed.

(** ** The window invariant *)

(** C5. Window invariant: in every reachable buffer, a packet stored in a
    slot has a sequence number [s] with [s - origin] in [[0, capacity)], and
    its slot index is [s mod capacity]. *)
Theorem window_invariant (jb : JitterBuffer) (H : reachable jb) :
  forall (j : nat) (p : RtpPacket.t),
    _packets jb !! j = Some (Some p) ->
    exists o, _origin jb = Some o /\
      0 <= RtpPacket.sequence_number p - o < _capacity jb /\
      Z.of_nat j = RtpPacket.sequence_number p mod _capacity jb.
Proof.
  assert (Hboth : shape jb /\ window_inv jb).
  { induction H as [capacity prefetch jb Hi | jb p r jb' _ [Hs Hinv] Ha
                   | jb count r jb' _ [Hs Hinv] Hr].
    - (* __init__: every slot is empty *)
      eapply init_inv. exact Hi.
    - (* add: late drop, or store within the window and scan *)
      eapply add_keeps_inv; eassumption.
    - (* remove: the cleared slots are those below the new origin *)
      eapply remove_keeps_inv; eassumption. }
  exact (proj2 Hboth).
Qed.

Lemma window_invariant_witness :
  let jb := snd (add (example_packet 5 1000 Byte.x05) (fresh 4 0)) in
  reachable jb /\
  forall (j : nat) (p : RtpPacket.t),
    _packets jb !! j = Some (Some p) ->
    exists o, _origin jb = Some o /\
      0 <= RtpPacket.sequence_number p - o < _capacity jb /\
      Z.of_nat j = RtpPacket.sequence_number p mod _capacity jb.
Proof.
  assert (Hr : reachable (snd (add (example_packet 5 1000 Byte.x05) (fresh 4 0)))).
  { eapply reach_add; [apply (reach_init 4 0); reflexivity|].
    apply surjective_pairing. }
  split; [exact Hr|]. exact (window_invariant _ Hr).
Defined.

(** ** Running [add] on explicit buffers *)

Lemma fresh_shape (c pf : Z) : 0 <= c -> shape (fresh c pf).
Proof. intros H. unfold shape, fresh. cbn. rewrite length_replicate. lia. Qed.

Lemma slot_fresh (c pf s : Z) : slot (fresh c pf) s = None.
Proof.
  unfold slot, fresh. cbn.
  destruct (replicate (Z.to_nat c) None !! Z.to_nat (s mod c)) as [x|] eqn:E;
    [|reflexivity].
  apply lookup_replicate in E. destruct E as [-> _]. reflexivity.
Qed.

Lemma slot_origin (o s : Z) (jb : JitterBuffer) (x : option RtpPacket.t) :
  slot jb s = x -> slot (with_origin o jb) s = x.
Proof. intros H. exact H. Qed.

Lemma slot_here (s s' : Z) (v : option RtpPacket.t) (jb : JitterBuffer) :
  shape jb -> 0 <= s < _capacity jb -> s' = s ->
  slot (with_slot s v jb) s' = v.
Proof. intros Hs Hc ->. apply slot_with_slot_eq; [exact Hs|lia]. Qed.

Lemma slot_there (s s' : Z) (v x : option RtpPacket.t) (jb : JitterBuffer) :
  0 <= s < _capacity jb -> 0 <= s' < _capacity jb -> s' <> s ->
  slot jb s' = x -> slot (with_slot s v jb) s' = x.
Proof.
  intros Hs Hs' Hne <-. apply slot_with_slot_ne; [lia|].
  rewrite !Z.mod_small by lia. lia.
Qed.

(** One iteration of the scan with the slot content supplied. *)
Lemma scan_S_slot (fuel : nat) (count count' : Z) (l : locals) (jb : JitterBuffer)
    (o : Z) (x : option RtpPacket.t) :
  shape jb -> 0 < _capacity jb -> _origin jb = Some o ->
  slot jb (o + count) = x -> count' = count + 1 ->
  scan (S fuel) count l jb =
  match x with
  | None => (Val None, jb)
  | Some packet => scan_packet (scan fuel count') count l packet jb
  end.
Proof. intros Hs Hc Ho <- ->. apply scan_S; assumption. Qed.

(** The return at the first boundary when the prefetch test passes. *)
Lemma scan_packet_boundary (continue : locals -> M (option JitterFrame.t))
    (count : Z) (l : locals) (packet : RtpPacket.t) (jb : JitterBuffer)
    (o ts : Z) (ntp : datetime) (rd : Z) :
  shape jb -> 0 < _capacity jb -> _origin jb = Some o -> count <= _capacity jb ->
  l_frame l = None -> l_timestamp l = Some ts ->
  l_ntp_timestamp l = Some ntp -> l_rtp_diff l = Some rd ->
  RtpPacket.timestamp packet <> ts ->
  _prefetch jb <= l_frames l + 1 ->
  scan_packet continue count l packet jb =
  (Val (Some (JitterFrame.mk (join_data (l_packets l)) (l_packets l) ts ntp rd)),
   removed count o jb).
Proof.
  intros Hs Hc Ho Hcount Hf Hts Hntp Hrd Hne Hpf.
  unfold scan_packet, hold_frame. rewrite Hts, Hf, Hntp, Hrd.
  destruct (Z.eqb_spec (RtpPacket.timestamp packet) ts); [contradiction|].
  cbn [negb]. unfold bind at 1. unfold ret at 1.
  cbn [l_frame l_frames l_remove].
  rewrite (bind_Val get_prefetch _ jb jb _ eq_refl).
  destruct (Z.leb_spec (_prefetch jb) (l_frames l + 1)); [|lia].
  rewrite (bind_Val _ _ _ _ _ (remove_ok count jb o Hs Hc Ho Hcount)).
  reflexivity.
Qed.

Ltac buffer_shape :=
  repeat first [ apply with_slot_shape | apply with_origin_shape
               | apply fresh_shape; lia ].

Ltac buffer_arith :=
  cbn [_capacity _origin _prefetch with_slot with_origin fresh]; unfold MAX_MISORDER;
  try lia.

Ltac buffer_slot :=
  repeat first
    [ apply slot_fresh
    | apply slot_origin
    | apply slot_here; [buffer_shape | buffer_arith | solve [buffer_arith]]
    | apply slot_there; [buffer_arith | buffer_arith | solve [buffer_arith] |] ].

(** Decide the integer tests of the goal from the context. *)
Ltac decide_tests :=
  repeat match goal with
  | |- context [Z.leb ?a ?b] =>
      first [ replace (Z.leb a b) with true by (symmetry; apply Z.leb_le; buffer_arith)
            | replace (Z.leb a b) with false by (symmetry; apply Z.leb_gt; buffer_arith) ]
  | |- context [Z.ltb ?a ?b] =>
      first [ replace (Z.ltb a b) with true by (symmetry; apply Z.ltb_lt; buffer_arith)
            | replace (Z.ltb a b) with false by (symmetry; apply Z.ltb_ge; buffer_arith) ]
  | |- context [Z.eqb ?a ?b] =>
      first [ replace (Z.eqb a b) with true by (symmetry; apply Z.eqb_eq; buffer_arith)
            | replace (Z.eqb a b) with false by (symmetry; apply Z.eqb_neq; buffer_arith) ]
  end.

(** [add] up to the start of the scan. *)
Ltac add_start :=
  rewrite add_placed by (first [solve [buffer_shape] | solve [buffer_arith]]);
  unfold placed; cbn [_origin _capacity with_slot with_origin fresh RtpPacket.sequence_number];
  cbv zeta; decide_tests; cbv iota;
  unfold _remove_frame;
  match goal with
  | |- context [bind get_capacity ?k ?jb] =>
      rewrite (bind_Val get_capacity k jb jb _ eq_refl)
  end;
  cbn [_capacity with_slot with_origin fresh].

(** One iteration of the scan that reads slot content [x]. *)
Ltac scan_step x :=
  match goal with
  | |- context [scan (S ?fuel) ?count ?l ?jb] =>
      let o := eval cbn [_origin with_slot with_origin fresh] in (_origin jb) in
      match o with
      | Some ?ov =>
          let c' := eval vm_compute in (count + 1) in
          rewrite (scan_S_slot fuel count c' l jb ov x);
          [ | buffer_shape | buffer_arith | reflexivity | solve [buffer_slot]
            | reflexivity ]
      end
  end.

(** A packet that continues the current group. *)
Ltac scan_same :=
  unfold scan_packet at 1;
  cbn [l_frame l_frames l_packets l_remove l_timestamp l_ntp_timestamp l_rtp_diff
       locals0 RtpPacket.timestamp RtpPacket.ntp_timestamp RtpPacket.rtp_diff app];
  decide_tests; cbn [negb].

(** The return of the first frame at a boundary. *)
Ltac scan_return :=
  match goal with
  | |- context [scan_packet ?k ?count ?l ?packet ?jb] =>
      erewrite (scan_packet_boundary k count l packet jb);
      [ | buffer_shape | buffer_arith | reflexivity | buffer_arith
        | reflexivity | reflexivity | reflexivity | reflexivity
        | cbn [RtpPacket.timestamp]; lia
        | cbn [l_frames locals0]; buffer_arith ]
  end.

(** Expose enough iterations of the loop over [range(capacity)]. *)
Ltac fuel c n :=
  let k := eval vm_compute in (Z.of_nat n) in
  replace (Z.to_nat c) with (n + Z.to_nat (c - k))%nat by lia;
  cbn [Nat.add].

(** A boundary at which the prefetch test fails: the frame is held and
    the scan goes on with a new group. *)
Lemma scan_packet_boundary_wait (continue : locals -> M (option JitterFrame.t))
    (count : Z) (l : locals) (packet : RtpPacket.t) (jb : JitterBuffer)
    (ts : Z) (ntp : datetime) (rd : Z) :
  l_frame l = None -> l_timestamp l = Some ts ->
  l_ntp_timestamp l = Some ntp -> l_rtp_diff l = Some rd ->
  RtpPacket.timestamp packet <> ts ->
  l_frames l + 1 < _prefetch jb ->
  scan_packet continue count l packet jb =
  continue
    (mkLocals (Some (JitterFrame.mk (join_data (l_packets l)) (l_packets l) ts ntp rd))
       (l_frames l + 1) [packet] count (Some (RtpPacket.timestamp packet))
       (Some ntp) (Some rd)) jb.
Proof.
  intros Hf Hts Hntp Hrd Hne Hpf.
  unfold scan_packet, hold_frame. rewrite Hts, Hf, Hntp, Hrd.
  destruct (Z.eqb_spec (RtpPacket.timestamp packet) ts); [contradiction|].
  cbn [negb]. unfold bind at 1. unfold ret at 1.
  cbn [l_frame l_frames l_remove l_ntp_timestamp l_rtp_diff].
  rewrite (bind_Val get_prefetch _ jb jb _ eq_refl).
  destruct (Z.leb_spec (_prefetch jb) (l_frames l + 1)); [lia|].
  reflexivity.
Qed.

(** A later boundary at which the prefetch test passes: the held frame is
    returned. *)
Lemma scan_packet_held_return (continue : locals -> M (option JitterFrame.t))
    (count : Z) (l : locals) (packet : RtpPacket.t) (jb : JitterBuffer)
    (o ts : Z) (f : JitterFrame.t) :
  shape jb -> 0 < _capacity jb -> _origin jb = Some o ->
  l_remove l <= _capacity jb ->
  l_frame l = Some f -> l_timestamp l = Some ts ->
  RtpPacket.timestamp packet <> ts ->
  _prefetch jb <= l_frames l + 1 ->
  scan_packet continue count l packet jb = (Val (Some f), removed (l_remove l) o jb).
Proof.
  intros Hs Hc Ho Hrem Hf Hts Hne Hpf.
  unfold scan_packet, hold_frame. rewrite Hts, Hf.
  destruct (Z.eqb_spec (RtpPacket.timestamp packet) ts); [contradiction|].
  cbn [negb]. unfold bind at 1. unfold ret at 1.
  rewrite (bind_Val get_prefetch _ jb jb _ eq_refl).
  destruct (Z.leb_spec (_prefetch jb) (l_frames l + 1)); [|lia].
  rewrite (bind_Val _ _ _ _ _ (remove_ok (l_remove l) jb o Hs Hc Ho Hrem)).
  rewrite Hf. reflexivity.
Qed.

Ltac scan_wait :=
  match goal with
  | |- context [scan_packet ?k ?count ?l ?packet ?jb] =>
      erewrite (scan_packet_boundary_wait k count l packet jb);
      [ | reflexivity | reflexivity | reflexivity | reflexivity
        | cbn [RtpPacket.timestamp]; lia
        | cbn [l_frames locals0]; buffer_arith ]
  end.

Ltac scan_return_held :=
  match goal with
  | |- context [scan_packet ?k ?count ?l ?packet ?jb] =>
      erewrite (scan_packet_held_return k count l packet jb);
      [ | buffer_shape | buffer_arith | reflexivity
        | cbn [l_remove]; buffer_arith
        | reflexivity | reflexivity
        | cbn [RtpPacket.timestamp]; lia
        | cbn [l_frames locals0]; buffer_arith ]
  end.

(** ** A stream of packets with consecutive sequence numbers

    Packets 0, 1, 2 carry timestamp [ta], packet 3 carries [tb] and packet 4
    carries [tc]; the other fields are arbitrary. *)
Section Stream.
Variables (c pf : Z) (ta tb tc : Z).
Variables (n0 n1 n2 n3 n4 : datetime) (r0 r1 r2 r3 r4 : Z) (d0 d1 d2 d3 d4 : bytes).
Hypothesis Hc : 4 <= c.
Hypothesis Hab : ta <> tb.

Let p0 := RtpPacket.mk 0 ta n0 r0 d0.
Let p1 := RtpPacket.mk 1 ta n1 r1 d1.
Let p2 := RtpPacket.mk 2 ta n2 r2 d2.
Let p3 := RtpPacket.mk 3 tb n3 r3 d3.
Let p4 := RtpPacket.mk 4 tc n4 r4 d4.
Let start (o : Z) := with_origin o (fresh c pf).

(** In order. *)
Lemma in_order_1 : add p0 (fresh c pf) = (Val None, stored [p0] (start 0)).
Proof.
  subst start p0. cbn [stored foldl RtpPacket.sequence_number].
  add_start. fuel c 2%nat.
  scan_step (Some (RtpPacket.mk 0 ta n0 r0 d0)). scan_same.
  scan_step (@None RtpPacket.t). reflexivity.
Qed.

Lemma in_order_2 :
  add p1 (stored [p0] (start 0)) = (Val None, stored [p0; p1] (start 0)).
Proof.
  subst start p0 p1. cbn [stored foldl RtpPacket.sequence_number].
  add_start. fuel c 3%nat.
  scan_step (Some (RtpPacket.mk 0 ta n0 r0 d0)). scan_same.
  scan_step (Some (RtpPacket.mk 1 ta n1 r1 d1)). scan_same.
  scan_step (@None RtpPacket.t). reflexivity.
Qed.

Lemma in_order_3 :
  add p2 (stored [p0; p1] (start 0)) = (Val None, stored [p0; p1; p2] (start 0)).
Proof.
  subst start p0 p1 p2. cbn [stored foldl RtpPacket.sequence_number].
  add_start. fuel c 4%nat.
  scan_step (Some (RtpPacket.mk 0 ta n0 r0 d0)). scan_same.
  scan_step (Some (RtpPacket.mk 1 ta n1 r1 d1)). scan_same.
  scan_step (Some (RtpPacket.mk 2 ta n2 r2 d2)). scan_same.
  scan_step (@None RtpPacket.t). reflexivity.
Qed.

(** The first boundary releases the frame when [prefetch <= 1]. *)
Lemma in_order_4_return :
  pf <= 1 ->
  add p3 (stored [p0; p1; p2] (start 0)) =
  (Val (Some (JitterFrame.mk (join_data [p0; p1; p2]) [p0; p1; p2] ta n0 r0)),
   removed 3 0 (stored [p0; p1; p2; p3] (start 0))).
Proof.
  intros Hpf. subst start p0 p1 p2 p3. cbn [stored foldl RtpPacket.sequence_number].
  add_start. fuel c 4%nat.
  scan_step (Some (RtpPacket.mk 0 ta n0 r0 d0)). scan_same.
  scan_step (Some (RtpPacket.mk 1 ta n1 r1 d1)). scan_same.
  scan_step (Some (RtpPacket.mk 2 ta n2 r2 d2)). scan_same.
  scan_step (Some (RtpPacket.mk 3 tb n3 r3 d3)).
  scan_return. reflexivity.
Qed.

(** With [prefetch >= 2] the first boundary only holds the frame. *)
Lemma in_order_4_wait :
  8 <= c -> 2 <= pf ->
  add p3 (stored [p0; p1; p2] (start 0)) =
  (Val None, stored [p0; p1; p2; p3] (start 0)).
Proof.
  intros Hc8 Hpf. subst start p0 p1 p2 p3.
  cbn [stored foldl RtpPacket.sequence_number].
  add_start. fuel c 5%nat.
  scan_step (Some (RtpPacket.mk 0 ta n0 r0 d0)). scan_same.
  scan_step (Some (RtpPacket.mk 1 ta n1 r1 d1)). scan_same.
  scan_step (Some (RtpPacket.mk 2 ta n2 r2 d2)). scan_same.
  scan_step (Some (RtpPacket.mk 3 tb n3 r3 d3)). scan_wait.
  scan_step (@None RtpPacket.t). reflexivity.
Qed.

(** With [prefetch = 2] the second boundary releases the first frame. *)
Lemma in_order_5_return :
  8 <= c -> pf = 2 -> tb <> tc ->
  add p4 (stored [p0; p1; p2; p3] (start 0)) =
  (Val (Some (JitterFrame.mk (join_data [p0; p1; p2]) [p0; p1; p2] ta n0 r0)),
   removed 3 0 (stored [p0; p1; p2; p3; p4] (start 0))).
Proof.
  intros Hc8 Hpf Hbc. subst start p0 p1 p2 p3 p4.
  cbn [stored foldl RtpPacket.sequence_number].
  add_start. fuel c 5%nat.
  scan_step (Some (RtpPacket.mk 0 ta n0 r0 d0)). scan_same.
  scan_step (Some (RtpPacket.mk 1 ta n1 r1 d1)). scan_same.
  scan_step (Some (RtpPacket.mk 2 ta n2 r2 d2)). scan_same.
  scan_step (Some (RtpPacket.mk 3 tb n3 r3 d3)). scan_wait.
  scan_step (Some (RtpPacket.mk 4 tc n4 r4 d4)). scan_return_held.
  reflexivity.
Qed.

(** Packet 1 first: packet 0 is behind the origin and dropped. *)
Lemma late_first_1 : add p1 (fresh c pf) = (Val None, stored [p1] (start 1)).
Proof.
  subst start p1. cbn [stored foldl RtpPacket.sequence_number].
  add_start. fuel c 2%nat.
  scan_step (Some (RtpPacket.mk 1 ta n1 r1 d1)). scan_same.
  scan_step (@None RtpPacket.t). reflexivity.
Qed.

Lemma late_first_2 :
  add p0 (stored [p1] (start 1)) = (Val None, stored [p1] (start 1)).
Proof.
  subst start p0 p1. cbn [stored foldl RtpPacket.sequence_number].
  rewrite add_placed by (first [solve [buffer_shape] | solve [buffer_arith]]).
  unfold placed.
  cbn [_origin _capacity with_slot with_origin fresh RtpPacket.sequence_number].
  cbv zeta. decide_tests. reflexivity.
Qed.

Lemma late_first_3 :
  add p2 (stored [p1] (start 1)) = (Val None, stored [p1; p2] (start 1)).
Proof.
  subst start p1 p2. cbn [stored foldl RtpPacket.sequence_number].
  add_start. fuel c 3%nat.
  scan_step (Some (RtpPacket.mk 1 ta n1 r1 d1)). scan_same.
  scan_step (Some (RtpPacket.mk 2 ta n2 r2 d2)). scan_same.
  scan_step (@None RtpPacket.t). reflexivity.
Qed.

Lemma late_first_4 :
  pf <= 1 ->
  add p3 (stored [p1; p2] (start 1)) =
  (Val (Some (JitterFrame.mk (join_data [p1; p2]) [p1; p2] ta n1 r1)),
   removed 2 1 (stored [p1; p2; p3] (start 1))).
Proof.
  intros Hpf. subst start p1 p2 p3. cbn [stored foldl RtpPacket.sequence_number].
  add_start. fuel c 3%nat.
  scan_step (Some (RtpPacket.mk 1 ta n1 r1 d1)). scan_same.
  scan_step (Some (RtpPacket.mk 2 ta n2 r2 d2)). scan_same.
  scan_step (Some (RtpPacket.mk 3 tb n3 r3 d3)).
  scan_return. reflexivity.
Qed.

(** Packet 0 first, packets 1 and 2 swapped. *)
Lemma swapped_2 :
  add p2 (stored [p0] (start 0)) = (Val None, stored [p0; p2] (start 0)).
Proof.
  subst start p0 p2. cbn [stored foldl RtpPacket.sequence_number].
  add_start. fuel c 2%nat.
  scan_step (Some (RtpPacket.mk 0 ta n0 r0 d0)). scan_same.
  scan_step (@None RtpPacket.t). reflexivity.
Qed.

Lemma swapped_3 :
  add p1 (stored [p0; p2] (start 0)) = (Val None, stored [p0; p2; p1] (start 0)).
Proof.
  subst start p0 p1 p2. cbn [stored foldl RtpPacket.sequence_number].
  add_start. fuel c 4%nat.
  scan_step (Some (RtpPacket.mk 0 ta n0 r0 d0)). scan_same.
  scan_step (Some (RtpPacket.mk 1 ta n1 r1 d1)). scan_same.
  scan_step (Some (RtpPacket.mk 2 ta n2 r2 d2)). scan_same.
  scan_step (@None RtpPacket.t). reflexivity.
Qed.

Lemma swapped_4 :
  pf <= 1 ->
  add p3 (stored [p0; p2; p1] (start 0)) =
  (Val (Some (JitterFrame.mk (join_data [p0; p1; p2]) [p0; p1; p2] ta n0 r0)),
   removed 3 0 (stored [p0; p2; p1; p3] (start 0))).
Proof.
  intros Hpf. subst start p0 p1 p2 p3. cbn [stored foldl RtpPacket.sequence_number].
  add_start. fuel c 4%nat.
  scan_step (Some (RtpPacket.mk 0 ta n0 r0 d0)). scan_same.
  scan_step (Some (RtpPacket.mk 1 ta n1 r1 d1)). scan_same.
  scan_step (Some (RtpPacket.mk 2 ta n2 r2 d2)). scan_same.
  scan_step (Some (RtpPacket.mk 3 tb n3 r3 d3)).
  scan_return. reflexivity.
Qed.
End Stream.

Lemma init_fresh (c pf : Z) (jb : JitterBuffer) :
  init c pf = inr jb -> jb = fresh c pf.
Proof. intros H. apply init_shape in H. destruct H as [-> _]. reflexivity. Qed.

Ltac literal_packets :=
  repeat match goal with
  | H : tagged _ _ ?p |- _ =>
      destruct p; destruct H as [? ?];
      cbn [RtpPacket.sequence_number RtpPacket.timestamp] in *; subst
  end;
  cbn [RtpPacket.ntp_timestamp RtpPacket.rtp_diff RtpPacket._data].

(** C1, as stated, fails: with arrival order 1, 0, 2, 3 packet 0 is behind
    the origin that packet 1 set and is dropped, so the frame returned by
    the fourth [add] lacks its payload and differs from the in-order one. *)
Lemma reordering_tolerance_counterexample :
  fst <$> add_trace [ex1; ex0; ex2; ex3] (fresh 16 0) !! 3%nat =
    Some (Val (Some (JitterFrame.mk [Byte.x01; Byte.x02] [ex1; ex2] 1000 7001 11))) /\
  fst <$> add_trace [ex0; ex1; ex2; ex3] (fresh 16 0) !! 3%nat =
    Some (Val (Some (JitterFrame.mk [Byte.x00; Byte.x01; Byte.x02] [ex0; ex1; ex2]
                       1000 7000 10))) /\
  fst <$> add_trace [ex1; ex0; ex2; ex3] (fresh 16 0) !! 3%nat <>
  fst <$> add_trace [ex0; ex1; ex2; ex3] (fresh 16 0) !! 3%nat.
Proof.
  split; [vm_compute; reflexivity|]. split; [vm_compute; reflexivity|].
  vm_compute. discriminate.
Qed.

(** C1, amended. On a fresh buffer with [prefetch = 0] that can hold the
    four packets: in arrival order 1, 0, 2, 3 the [add] of packet 0 returns
    nothing and leaves the buffer unchanged, and the fourth [add] returns
    the frame made of packets 1 and 2 only (timestamp 1000, [ntp_timestamp]
    and [rtp_diff] of packet 1); in arrival order 0, 2, 1, 3, where the
    first packet still arrives first, the fourth [add] returns the same
    frame as the in-order arrival. *)
Theorem reordering_after_first_packet (c : Z) (jb0 : JitterBuffer)
    (p0 p1 p2 p3 : RtpPacket.t) :
  init c 0 = inr jb0 -> 4 <= c ->
  tagged 0 1000 p0 -> tagged 1 1000 p1 -> tagged 2 1000 p2 -> tagged 3 2000 p3 ->
  add_trace [p1; p0; p2; p3] jb0 =
  [ (Val None, stored [p1] (with_origin 1 jb0));
    (Val None, stored [p1] (with_origin 1 jb0));
    (Val None, stored [p1; p2] (with_origin 1 jb0));
    (Val (Some (JitterFrame.mk
                  (RtpPacket._data p1 ++ RtpPacket._data p2)
                  [p1; p2] 1000
                  (RtpPacket.ntp_timestamp p1) (RtpPacket.rtp_diff p1))),
     removed 2 1 (stored [p1; p2; p3] (with_origin 1 jb0))) ] /\
  add_trace [p0; p2; p1; p3] jb0 =
  [ (Val None, stored [p0] (with_origin 0 jb0));
    (Val None, stored [p0; p2] (with_origin 0 jb0));
    (Val None, stored [p0; p2; p1] (with_origin 0 jb0));
    (Val (Some (JitterFrame.mk
                  (RtpPacket._data p0 ++ RtpPacket._data p1 ++ RtpPacket._data p2)
                  [p0; p1; p2] 1000
                  (RtpPacket.ntp_timestamp p0) (RtpPacket.rtp_diff p0))),
     removed 3 0 (stored [p0; p2; p1; p3] (with_origin 0 jb0))) ].
Proof.
  intros Hi Hc T0 T1 T2 T3. apply init_fresh in Hi. subst jb0. literal_packets.
  split; cbn [add_trace].
  - rewrite late_first_1 by assumption. cbn [snd].
    rewrite (late_first_2 c 0 1000) by assumption. cbn [snd].
    rewrite late_first_3 by assumption. cbn [snd].
    rewrite late_first_4 by (try assumption; lia).
    unfold join_data. cbn [map concat RtpPacket._data]. rewrite app_nil_r.
    reflexivity.
  - rewrite in_order_1 by assumption. cbn [snd].
    rewrite swapped_2 by assumption. cbn [snd].
    rewrite swapped_3 by assumption. cbn [snd].
    rewrite swapped_4 by (try assumption; lia).
    unfold join_data. cbn [map concat RtpPacket._data]. rewrite app_nil_r.
    reflexivity.
Qed.

Lemma reordering_after_first_packet_witness :
  add_trace [ex1; ex0; ex2; ex3] (fresh 4 0) =
  [ (Val None, stored [ex1] (with_origin 1 (fresh 4 0)));
    (Val None, stored [ex1] (with_origin 1 (fresh 4 0)));
    (Val None, stored [ex1; ex2] (with_origin 1 (fresh 4 0)));
    (Val (Some (JitterFrame.mk
                  (RtpPacket._data ex1 ++ RtpPacket._data ex2)
                  [ex1; ex2] 1000
                  (RtpPacket.ntp_timestamp ex1) (RtpPacket.rtp_diff ex1))),
     removed 2 1 (stored [ex1; ex2; ex3] (with_origin 1 (fresh 4 0)))) ] /\
  add_trace [ex0; ex2; ex1; ex3] (fresh 4 0) =
  [ (Val None, stored [ex0] (with_origin 0 (fresh 4 0)));
    (Val None, stored [ex0; ex2] (with_origin 0 (fresh 4 0)));
    (Val None, stored [ex0; ex2; ex1] (with_origin 0 (fresh 4 0)));
    (Val (Some (JitterFrame.mk
                  (RtpPacket._data ex0 ++ RtpPacket._data ex1 ++ RtpPacket._data ex2)
                  [ex0; ex1; ex2] 1000
                  (RtpPacket.ntp_timestamp ex0) (RtpPacket.rtp_diff ex0))),
     removed 3 0 (stored [ex0; ex2; ex1; ex3] (with_origin 0 (fresh 4 0)))) ].
Proof.
  apply (reordering_after_first_packet 4 (fresh 4 0) ex0 ex1 ex2 ex3);
    [reflexivity | lia | split; reflexivity | split; reflexivity
    | split; reflexivity | split; reflexivity].
Defined.

(** C2, as stated, fails: with [prefetch = 1] the first frame is returned
    by the [add] of packet 3, since the first boundary already gives
    [frames = 1 >= prefetch]. *)
Lemma prefetch_delay_counterexample :
  init 16 1 = inr (fresh 16 1) /\
  fst <$> add_trace [ex0; ex1; ex2; ex3] (fresh 16 1) !! 3%nat =
    Some (Val (Some (JitterFrame.mk [Byte.x00; Byte.x01; Byte.x02] [ex0; ex1; ex2]
                       1000 7000 10))) /\
  fst <$> add_trace [ex0; ex1; ex2; ex3] (fresh 16 1) !! 3%nat <> Some (Val None).
Proof.
  split; [reflexivity|]. split; [vm_compute; reflexivity|].
  vm_compute. discriminate.
Qed.

(** C2, amended. With [prefetch = 1] and capacity at least 4 the stream of
    the basic case returns nothing for packets 0, 1, 2, which stay stored
    with origin 0, and returns the first frame when packet 3 is added.  The
    delay holds for [prefetch = 2] and capacity at least 8: the [add] of
    packet 3 returns nothing, packets 0, 1, 2 stay stored with origin 0,
    and the first frame is returned by the [add] of packet 4, which opens a
    third timestamp group.  With [prefetch = 2] and capacity 4 the [add] of
    packet 3 returns nothing as well, but packet 4 does not fit the window:
    its [add] evicts packet 0, whose slot packet 4 takes, and returns a
    frame made of packets 1 and 2 only, leaving the origin at 3. *)
Theorem prefetch_delay (c : Z) (p0 p1 p2 p3 p4 : RtpPacket.t) :
  tagged 0 1000 p0 -> tagged 1 1000 p1 -> tagged 2 1000 p2 ->
  tagged 3 2000 p3 -> tagged 4 3000 p4 ->
  let frame :=
    JitterFrame.mk
      (RtpPacket._data p0 ++ RtpPacket._data p1 ++ RtpPacket._data p2)
      [p0; p1; p2] 1000 (RtpPacket.ntp_timestamp p0) (RtpPacket.rtp_diff p0) in
  (forall jb0, init c 1 = inr jb0 -> 4 <= c ->
     add_trace [p0; p1; p2; p3] jb0 =
     [ (Val None, stored [p0] (with_origin 0 jb0));
       (Val None, stored [p0; p1] (with_origin 0 jb0));
       (Val None, stored [p0; p1; p2] (with_origin 0 jb0));
       (Val (Some frame), removed 3 0 (stored [p0; p1; p2; p3] (with_origin 0 jb0))) ]) /\
  (forall jb0, init c 2 = inr jb0 -> 8 <= c ->
     let held := stored [p0; p1; p2; p3] (with_origin 0 jb0) in
     add_trace [p0; p1; p2; p3; p4] jb0 =
     [ (Val None, stored [p0] (with_origin 0 jb0));
       (Val None, stored [p0; p1] (with_origin 0 jb0));
       (Val None, stored [p0; p1; p2] (with_origin 0 jb0));
       (Val None, held);
       (Val (Some frame),
        removed 3 0 (stored [p0; p1; p2; p3; p4] (with_origin 0 jb0))) ] /\
     _origin held = Some 0 /\
     slot held 0 = Some p0 /\ slot held 1 = Some p1 /\ slot held 2 = Some p2) /\
  (forall jb0, init 4 2 = inr jb0 ->
     let held := stored [p0; p1; p2; p3] (with_origin 0 jb0) in
     add_trace [p0; p1; p2; p3] jb0 =
     [ (Val None, stored [p0] (with_origin 0 jb0));
       (Val None, stored [p0; p1] (with_origin 0 jb0));
       (Val None, stored [p0; p1; p2] (with_origin 0 jb0));
       (Val None, held) ] /\
     _origin held = Some 0 /\
     slot held 0 = Some p0 /\ slot held 1 = Some p1 /\ slot held 2 = Some p2 /\
     fst (add p4 held) =
     Val (Some (JitterFrame.mk
                  (RtpPacket._data p1 ++ RtpPacket._data p2)
                  [p1; p2] 1000
                  (RtpPacket.ntp_timestamp p1) (RtpPacket.rtp_diff p1))) /\
     _origin (snd (add p4 held)) = Some 3 /\
     slot (snd (add p4 held)) 0 = Some p4).
Proof.
  intros T0 T1 T2 T3 T4. literal_packets. cbv zeta. split; [|split].
  - intros jb0 Hi Hc. apply init_fresh in Hi. subst jb0. cbn [add_trace].
    rewrite in_order_1 by assumption. cbn [snd].
    rewrite in_order_2 by assumption. cbn [snd].
    rewrite in_order_3 by assumption. cbn [snd].
    rewrite in_order_4_return by (try assumption; lia).
    unfold join_data. cbn [map concat RtpPacket._data]. rewrite app_nil_r.
    reflexivity.
  - intros jb0 Hi Hc. apply init_fresh in Hi. subst jb0.
    assert (Hc4 : 4 <= c) by lia. split; [|split; [reflexivity|]].
    + cbn [add_trace].
      rewrite in_order_1 by assumption. cbn [snd].
      rewrite in_order_2 by assumption. cbn [snd].
      rewrite in_order_3 by assumption. cbn [snd].
      rewrite in_order_4_wait by (try assumption; lia). cbn [snd].
      rewrite (in_order_5_return c 2 1000 2000 3000) by (try assumption; lia).
      unfold join_data. cbn [map concat RtpPacket._data]. rewrite app_nil_r.
      reflexivity.
    + cbn [stored foldl RtpPacket.sequence_number].
      repeat split; buffer_slot.
  - intros jb0 Hi. apply init_fresh in Hi. subst jb0.
    split; [vm_compute; reflexivity|].
    split; [reflexivity|].
    split; [vm_compute; reflexivity|].
    split; [vm_compute; reflexivity|].
    split; [vm_compute; reflexivity|].
    split; [|split; vm_compute; reflexivity].
    match goal with |- _ = Val (Some (JitterFrame.mk (?d1 ++ ?d2) ?ps ?t ?n ?r)) =>
      replace (JitterFrame.mk (d1 ++ d2) ps t n r)
        with (JitterFrame.mk (d1 ++ d2 ++ []) ps t n r)
        by (rewrite app_nil_r; reflexivity)
    end.
    vm_compute. reflexivity.
Qed.

Lemma prefetch_delay_witness :
  let frame :=
    JitterFrame.mk
      (RtpPacket._data ex0 ++ RtpPacket._data ex1 ++ RtpPacket._data ex2)
      [ex0; ex1; ex2] 1000 (RtpPacket.ntp_timestamp ex0) (RtpPacket.rtp_diff ex0) in
  fst <$> add_trace [ex0; ex1; ex2; ex3] (fresh 16 1) =
    [Val None; Val None; Val None; Val (Some frame)] /\
  fst <$> add_trace [ex0; ex1; ex2; ex3; ex4] (fresh 16 2) =
    [Val None; Val None; Val None; Val None; Val (Some frame)] /\
  fst <$> add_trace [ex0; ex1; ex2; ex3] (fresh 4 2) =
    [Val None; Val None; Val None; Val None] /\
  fst (add ex4 (stored [ex0; ex1; ex2; ex3] (with_origin 0 (fresh 4 2)))) =
    Val (Some (JitterFrame.mk
                 (RtpPacket._data ex1 ++ RtpPacket._data ex2)
                 [ex1; ex2] 1000
                 (RtpPacket.ntp_timestamp ex1) (RtpPacket.rtp_diff ex1))).
Proof.
  destruct (prefetch_delay 16 ex0 ex1 ex2 ex3 ex4) as (HA & HB & HC);
    [split; reflexivity | split; reflexivity | split; reflexivity
    | split; reflexivity | split; reflexivity |].
  split; [|split].
  - rewrite (HA (fresh 16 1)); [reflexivity | reflexivity | lia].
  - destruct (HB (fresh 16 2)) as [-> _]; [reflexivity | lia | reflexivity].
  - destruct (HC (fresh 4 2)) as (-> & _ & _ & _ & _ & Hf & _); [reflexivity|].
    split; [reflexivity | exact Hf].
Defined.

(** ** The capacity test of [__init__] *)

Lemma land_pred_pow2 (k : Z) : 0 <= k -> Z.land (2 ^ k) (2 ^ k - 1) = 0.
Proof.
  intros Hk. rewrite Z.sub_1_r, <- Z.ones_equiv, Z.land_ones by exact Hk.
  apply Z_mod_same_full.
Qed.

Lemma pow2_of_land_pred (p : positive) :
  Z.land (Z.pos p) (Z.pos p - 1) = 0 -> is_pow2 (Z.pos p).
Proof.
  induction p as [p IH|p IH|]; intros H.
  - (* 2a+1: the top bit of a survives *)
    exfalso.
    replace (Z.pos p~1 - 1) with (2 * Z.pos p) in H by lia.
    replace (Z.pos p~1) with (2 * Z.pos p + 1) in H by lia.
    pose proof (Z.bit_log2 (Z.pos p) ltac:(lia)) as Hb.
    pose proof (Z.log2_nonneg (Z.pos p)) as Hn.
    assert (Ht : Z.testbit (Z.land (2 * Z.pos p + 1) (2 * Z.pos p))
                   (Z.succ (Z.log2 (Z.pos p))) = true).
    { rewrite Z.land_spec, Z.testbit_odd_succ, Z.testbit_even_succ by exact Hn.
      rewrite Hb. reflexivity. }
    rewrite H, Z.bits_0 in Ht. discriminate.
  - (* 2a: the test passes on a as well *)
    assert (Ha : Z.land (Z.pos p) (Z.pos p - 1) = 0).
    { apply Z.bits_inj'. intros n Hn. rewrite Z.bits_0, Z.land_spec.
      rewrite <- (Z.testbit_even_succ (Z.pos p) n Hn).
      rewrite <- (Z.testbit_odd_succ (Z.pos p - 1) n Hn).
      rewrite <- Z.land_spec.
      replace (2 * Z.pos p) with (Z.pos p~0) by lia.
      replace (2 * (Z.pos p - 1) + 1) with (Z.pos p~0 - 1) by lia.
      rewrite H. apply Z.bits_0. }
    destruct (IH Ha) as (k & Hk & Hp).
    exists (Z.succ k). split; [lia|].
    rewrite Z.pow_succ_r by exact Hk. lia.
  - exists 0. split; [lia|reflexivity].
Qed.

Lemma not_pow2_0 : ~ is_pow2 0.
Proof.
  intros (k & Hk & H). pose proof (Z.pow_pos_nonneg 2 k ltac:(lia) Hk). lia.
Qed.

Lemma init_pow2 (c pf : Z) : is_pow2 c -> init c pf = inr (fresh c pf).
Proof.
  intros (k & Hk & ->). unfold init. rewrite land_pred_pow2 by exact Hk.
  reflexivity.
Qed.

(** For every capacity other than 0 the test is exact. *)
Lemma init_nonzero_capacity (c pf : Z) :
  c <> 0 ->
  (is_pow2 c -> init c pf = inr (fresh c pf)) /\
  (~ is_pow2 c -> init c pf = inl AssertionError).
Proof.
  intros Hc. split; [apply init_pow2|]. intros Hn. unfold init.
  destruct (Z.eqb_spec (Z.land c (c - 1)) 0) as [E|E]; [|reflexivity].
  exfalso. destruct c as [|p|p]; [lia| |].
  - apply Hn, pow2_of_land_pred, E.
  - assert (Z.land (Z.neg p) (Z.neg p - 1) < 0) by (apply Z.land_neg; lia). lia.
Qed.

(** C7, as stated, fails: the claim names no capacity, and [__init__]
    accepts capacity 2; there the overflow step of [add] evicts packets 0
    and 1 before packet 3 arrives, and the fourth [add] returns a frame
    made of packet 2 alone instead of packets 0, 1, 2. *)
Lemma basic_single_frame_assembly_counterexample :
  init 2 0 = inr (fresh 2 0) /\
  fst <$> add_trace [ex0; ex1; ex2; ex3] (fresh 2 0) =
  [ Val None; Val None; Val None;
    Val (Some (JitterFrame.mk [Byte.x02] [ex2] 1000 7002 12)) ] /\
  fst <$> add_trace [ex0; ex1; ex2; ex3] (fresh 2 0) !! 3%nat <>
    Some (Val (Some (JitterFrame.mk [Byte.x00; Byte.x01; Byte.x02] [ex0; ex1; ex2]
                       1000 7000 10))).
Proof.
  split; [reflexivity|]. split; [vm_compute; reflexivity|].
  vm_compute. discriminate.
Qed.

(** C7, amended. On a fresh buffer with [prefetch = 0], adding packets
    0, 1, 2 (timestamp 1000) and then packet 3 (timestamp 2000) behaves as
    follows; the capacities that [__init__] accepts are 0, 1, 2 and those
    that are at least 4.  With capacity at least 4 the first three adds
    return nothing and the fourth returns the frame whose data is the
    payloads of packets 0, 1, 2 concatenated in that order, with timestamp
    1000 and with [ntp_timestamp] and [rtp_diff] of packet 0.  With
    capacity 2 the first three adds return nothing and the fourth returns a
    frame made of packet 2 alone.  With capacity 1 none of the four adds
    returns a frame.  With capacity 0 every add raises
    [ZeroDivisionError]. *)
Theorem basic_single_frame_assembly (p0 p1 p2 p3 : RtpPacket.t) :
  tagged 0 1000 p0 -> tagged 1 1000 p1 -> tagged 2 1000 p2 -> tagged 3 2000 p3 ->
  (forall c jb0, init c 0 = inr jb0 -> 4 <= c \/ c = 2 \/ c = 1 \/ c = 0) /\
  (forall c jb0, init c 0 = inr jb0 -> 4 <= c ->
   add_trace [p0; p1; p2; p3] jb0 =
   [ (Val None, stored [p0] (with_origin 0 jb0));
     (Val None, stored [p0; p1] (with_origin 0 jb0));
     (Val None, stored [p0; p1; p2] (with_origin 0 jb0));
     (Val (Some (JitterFrame.mk
                   (RtpPacket._data p0 ++ RtpPacket._data p1 ++ RtpPacket._data p2)
                   [p0; p1; p2] 1000
                   (RtpPacket.ntp_timestamp p0) (RtpPacket.rtp_diff p0))),
      removed 3 0 (stored [p0; p1; p2; p3] (with_origin 0 jb0))) ]) /\
  (forall jb0, init 2 0 = inr jb0 ->
   fst <$> add_trace [p0; p1; p2; p3] jb0 =
   [ Val None; Val None; Val None;
     Val (Some (JitterFrame.mk (RtpPacket._data p2) [p2] 1000
                  (RtpPacket.ntp_timestamp p2) (RtpPacket.rtp_diff p2))) ]) /\
  (forall jb0, init 1 0 = inr jb0 ->
   fst <$> add_trace [p0; p1; p2; p3] jb0 =
   [ Val None; Val None; Val None; Val None ]) /\
  (forall jb0, init 0 0 = inr jb0 ->
   fst <$> add_trace [p0; p1; p2; p3] jb0 =
   [ Raise ZeroDivisionError; Raise ZeroDivisionError;
     Raise ZeroDivisionError; Raise ZeroDivisionError ]).
Proof.
  intros T0 T1 T2 T3. literal_packets.
  split; [|split; [|split; [|split]]].
  - intros c jb0 Hi.
    destruct (Z.eq_dec c 0) as [E|E]; [auto|].
    assert (Hp : is_pow2 c).
    { unfold init in Hi.
      destruct (Z.eqb_spec (Z.land c (c - 1)) 0) as [L|L]; [|discriminate Hi].
      destruct c as [|p|p]; [lia| |].
      - apply pow2_of_land_pred, L.
      - assert (Z.land (Z.neg p) (Z.neg p - 1) < 0) by (apply Z.land_neg; lia).
        lia. }
    destruct Hp as (k & Hk & ->).
    destruct (Z.eq_dec k 0) as [->|K0]; [auto|].
    destruct (Z.eq_dec k 1) as [->|K1]; [auto|].
    left. change 4 with (2 ^ 2). apply Z.pow_le_mono_r; lia.
  - intros c jb0 Hi Hc. apply init_fresh in Hi. subst jb0. cbn [add_trace].
    rewrite in_order_1 by assumption. cbn [snd].
    rewrite in_order_2 by assumption. cbn [snd].
    rewrite in_order_3 by assumption. cbn [snd].
    rewrite in_order_4_return by (try assumption; lia).
    unfold join_data. cbn [map concat RtpPacket._data]. rewrite app_nil_r.
    reflexivity.
  - intros jb0 Hi. apply init_fresh in Hi. subst jb0.
    match goal with |- context [JitterFrame.mk ?d ?ps ?t ?n ?r] =>
      replace (JitterFrame.mk d ps t n r) with (JitterFrame.mk (d ++ []) ps t n r)
        by (rewrite app_nil_r; reflexivity)
    end.
    vm_compute. reflexivity.
  - intros jb0 Hi. apply init_fresh in Hi. subst jb0. vm_compute. reflexivity.
  - intros jb0 Hi. apply init_fresh in Hi. subst jb0. vm_compute. reflexivity.
Qed.

Lemma basic_single_frame_assembly_witness :
  add_trace [ex0; ex1; ex2; ex3] (fresh 16 0) =
  [ (Val None, stored [ex0] (with_origin 0 (fresh 16 0)));
    (Val None, stored [ex0; ex1] (with_origin 0 (fresh 16 0)));
    (Val None, stored [ex0; ex1; ex2] (with_origin 0 (fresh 16 0)));
    (Val (Some (JitterFrame.mk
                  (RtpPacket._data ex0 ++ RtpPacket._data ex1 ++ RtpPacket._data ex2)
                  [ex0; ex1; ex2] 1000
                  (RtpPacket.ntp_timestamp ex0) (RtpPacket.rtp_diff ex0))),
     removed 3 0 (stored [ex0; ex1; ex2; ex3] (with_origin 0 (fresh 16 0)))) ] /\
  fst <$> add_trace [ex0; ex1; ex2; ex3] (fresh 2 0) =
  [ Val None; Val None; Val None;
    Val (Some (JitterFrame.mk (RtpPacket._data ex2) [ex2] 1000
                 (RtpPacket.ntp_timestamp ex2) (RtpPacket.rtp_diff ex2))) ] /\
  fst <$> add_trace [ex0; ex1; ex2; ex3] (fresh 1 0) =
  [ Val None; Val None; Val None; Val None ] /\
  fst <$> add_trace [ex0; ex1; ex2; ex3] (fresh 0 0) =
  [ Raise ZeroDivisionError; Raise ZeroDivisionError;
    Raise ZeroDivisionError; Raise ZeroDivisionError ].
Proof.
  destruct (basic_single_frame_assembly ex0 ex1 ex2 ex3)
    as (_ & H16 & H2 & H1 & H0);
    [split; reflexivity | split; reflexivity
    | split; reflexivity | split; reflexivity |].
  split; [apply (H16 16); [reflexivity | lia]|].
  split; [apply H2; reflexivity|].
  split; [apply H1; reflexivity | apply H0; reflexivity].
Defined.

(** C4. Capacity validation.  The code accepts capacity 0, which is not a
    power of two: [0 & (0 - 1) == 0] holds, so [__init__] returns a buffer
    without slots. *)
Theorem init_accepts_capacity_zero (prefetch : Z) :
  ~ is_pow2 0 /\
  init 0 prefetch = inr (mkJitterBuffer 0 None [] prefetch).
Proof. split; [exact not_pow2_0|reflexivity]. Qed.

(** ** [remove] without an origin *)

Lemma removed_nonpos (n o : Z) (jb : JitterBuffer) :
  n <= 0 -> _origin jb = Some o -> removed n o jb = jb.
Proof.
  intros Hn Ho. destruct jb as [cap og l pf]. cbn in Ho. subst og.
  unfold removed. cbn. replace (Z.to_nat n) with O by lia.
  cbn. rewrite Z.add_0_r. reflexivity.
Qed.

(** C10. On a freshly constructed buffer [remove(count)] with [count >= 1]
    raises ([TypeError] from [None % capacity] when [count <= capacity],
    else the assertion) and changes nothing; on a buffer whose origin is
    set, [remove(count)] with [count <= capacity] returns normally. *)
Theorem remove_requires_origin :
  (forall capacity prefetch jb count,
     init capacity prefetch = inr jb -> 1 <= count ->
     remove count jb =
     (Raise (if count <=? capacity then TypeError else AssertionError), jb)) /\
  (forall jb o count,
     reachable jb -> _origin jb = Some o -> count <= _capacity jb ->
     remove count jb = (Val tt, removed count o jb)).
Proof.
  split.
  - intros capacity prefetch jb count Hi Hcount.
    apply init_fresh in Hi. subst jb. unfold remove.
    rewrite (bind_Val get_capacity _ _ _ _ eq_refl).
    cbn [_capacity fresh].
    destruct (count <=? capacity); [|reflexivity].
    destruct (Z.to_nat count) as [|n] eqn:E; [lia|].
    cbn [remove_loop]. apply bind_Raise. apply origin_int_none. reflexivity.
  - intros jb o count Hr Ho Hcount.
    destruct (reachable_inv jb Hr) as [Hs _].
    destruct (Z.le_gt_cases count 0) as [H0|H0].
    + rewrite remove_nonpos, removed_nonpos by assumption. reflexivity.
    + apply remove_ok; try assumption. lia.
Qed.

Lemma remove_requires_origin_witness :
  remove 1 (fresh 4 0) = (Raise TypeError, fresh 4 0) /\
  remove 5 (fresh 4 0) = (Raise AssertionError, fresh 4 0) /\
  (let jb := snd (add ex0 (fresh 4 0)) in
   remove 2 jb = (Val tt, removed 2 0 jb)).
Proof.
  destruct remove_requires_origin as [Hfresh Hset].
  split; [exact (Hfresh 4 0 (fresh 4 0) 1 eq_refl ltac:(lia))|].
  split; [exact (Hfresh 4 0 (fresh 4 0) 5 eq_refl ltac:(lia))|].
  apply Hset; [|reflexivity|apply Z.leb_le; vm_compute; reflexivity].
  eapply reach_add; [apply (reach_init 4 0); reflexivity|].
  apply surjective_pairing.
Defined.

(** ** Late packets and window overflow *)

Lemma mk_frame_packets (ps : list RtpPacket.t) (f : JitterFrame.t) :
  mk_frame ps = Some f ->
  JitterFrame.packets f = ps /\ (0 < length ps)%nat /\
  JitterFrame.data f = join_data ps /\
  exists p, head ps = Some p /\
    JitterFrame.timestamp f = RtpPacket.timestamp p /\
    JitterFrame.ntp_timestamp f = RtpPacket.ntp_timestamp p /\
    JitterFrame.rtp_diff f = RtpPacket.rtp_diff p.
Proof.
  destruct ps as [|p ps]; [discriminate|]. intros H. injection H as <-. cbn.
  split; [reflexivity|]. split; [lia|]. split; [reflexivity|].
  exists p. repeat split.
Qed.

Lemma slot_flushed (s o x : Z) (jb : JitterBuffer) :
  shape jb -> 0 < _capacity jb -> slot (flushed s o jb) x = None.
Proof.
  intros Hs Hc. unfold slot.
  destruct (_packets (flushed s o jb) !! _) as [[q|]|] eqn:E; try reflexivity.
  exfalso. exact (flushed_empty s o jb _ q Hs Hc E).
Qed.

(** A buffer that holds nothing outside the slot of its origin has no
    complete frame. *)
Lemma scan_single (x : Z) (jb : JitterBuffer) (o : Z) :
  shape jb -> 0 < _capacity jb -> _origin jb = Some o ->
  (forall n, 0 < n < _capacity jb -> slot jb (o + n) = None) ->
  _remove_frame x jb = (Val None, jb).
Proof.
  intros Hs Hc Ho Hempty.
  destruct (_remove_frame_post jb o Hs Hc Ho x) as [E|(ps & f & Hf & _)];
    [exact E|].
  exfalso. destruct Hf as (Hmk & Hlen & _ & _ & (q' & Hq' & _)).
  apply mk_frame_packets in Hmk. destruct Hmk as (_ & Hpos & _).
  rewrite Hempty in Hq' by lia. discriminate.
Qed.

(** C3, as stated, fails: once the origin is at least [MAX_MISORDER], a
    packet with sequence number 0 is taken for a forward jump; the window
    is flushed and restarted at 0 with the packet stored. *)
Lemma late_drop_counterexample :
  let jb := snd (add (example_packet 100 1000 Byte.x00) (fresh 16 0)) in
  reachable jb /\ _origin jb = Some 100 /\
  RtpPacket.sequence_number ex0 = 0 /\
  add ex0 jb <> (Val None, jb) /\
  _origin (snd (add ex0 jb)) = Some 0 /\
  slot (snd (add ex0 jb)) 0 = Some ex0.
Proof.
  cbv zeta. split.
  { eapply reach_add; [apply (reach_init 16 0); reflexivity|].
    apply surjective_pairing. }
  split; [vm_compute; reflexivity|]. split; [reflexivity|].
  split; [vm_compute; discriminate|].
  split; vm_compute; reflexivity.
Qed.

(** C3, amended. While the origin is past 0 but below [MAX_MISORDER]
    (= 100), [add] of a packet with sequence number 0 returns nothing and
    leaves the buffer unchanged.  From origin 100 on, the packet is not
    dropped: the buffer is flushed, the origin becomes 0, the packet is
    stored and nothing is returned. *)
Theorem late_packet_dropped_within_misorder (jb : JitterBuffer) (o : Z)
    (p : RtpPacket.t) :
  _origin jb = Some o -> RtpPacket.sequence_number p = 0 ->
  (0 < o < MAX_MISORDER -> add p jb = (Val None, jb)) /\
  (MAX_MISORDER <= o -> shape jb -> 0 < _capacity jb ->
   add p jb = (Val None, with_slot 0 (Some p) (flushed 0 o jb))).
Proof.
  intros Ho Hp. split.
  - intros Hlate. unfold add, establish_origin.
    rewrite (bind_Val _ _ jb jb true); [reflexivity|].
    rewrite (bind_Val get_origin _ jb jb _ eq_refl). rewrite Ho, Hp.
    destruct (Z.leb_spec 0 (o - MAX_MISORDER)); [lia|].
    destruct (Z.ltb_spec 0 o); [reflexivity|lia].
  - intros Hjump Hs Hc. rewrite add_placed by assumption.
    unfold placed. rewrite Ho, Hp. cbv zeta.
    destruct (Z.leb_spec 0 (o - MAX_MISORDER)); [|lia].
    apply (scan_single _ _ 0).
    + apply with_slot_shape, flushed_shape, Hs.
    + exact Hc.
    + reflexivity.
    + intros n Hn. cbn [_capacity with_slot flushed with_origin removed] in Hn.
      rewrite slot_with_slot_ne.
      * apply slot_flushed; assumption.
      * exact Hc.
      * cbn [_capacity flushed with_origin removed].
        rewrite Z.mod_0_l by lia. rewrite Z.mod_small by lia. lia.
Qed.

Lemma late_packet_dropped_within_misorder_witness :
  let jb := snd (add (example_packet 5 1000 Byte.x05) (fresh 16 0)) in
  let jb' := snd (add (example_packet 100 1000 Byte.x00) (fresh 16 0)) in
  add ex0 jb = (Val None, jb) /\
  add ex0 jb' = (Val None, with_slot 0 (Some ex0) (flushed 0 100 jb')).
Proof.
  cbv zeta. split.
  - apply (late_packet_dropped_within_misorder _ 5 ex0);
      [reflexivity | reflexivity | unfold MAX_MISORDER; lia].
  - apply (late_packet_dropped_within_misorder _ 100 ex0);
      [reflexivity | reflexivity | unfold MAX_MISORDER; lia | |].
    + split; [apply Z.leb_le|]; vm_compute; reflexivity.
    + apply Z.ltb_lt. vm_compute. reflexivity.
Defined.

Lemma slot_removed_cleared (n o i : Z) (jb : JitterBuffer) :
  shape jb -> 0 < _capacity jb -> 0 <= i < n ->
  slot (removed n o jb) (o + i) = None.
Proof.
  intros [_ Hl] Hc Hi. unfold slot, removed. cbn.
  rewrite clear_slots_cleared by (try assumption; lia). reflexivity.
Qed.

Lemma slot_removed_kept (n o s : Z) (jb : JitterBuffer) :
  0 < _capacity jb -> o + n <= s < o + _capacity jb ->
  slot (removed n o jb) s = slot jb s.
Proof.
  intros Hc Hs. unfold slot, removed. cbn.
  rewrite clear_slots_other; [reflexivity|].
  intros i Hi Heq.
  pose proof (mod_in_range (o + i) (_capacity jb) Hc).
  pose proof (mod_in_range s (_capacity jb) Hc).
  assert (Hm : s mod _capacity jb = (o + i) mod _capacity jb) by lia.
  apply window_index_inj in Hm; lia.
Qed.

(** C6, as stated, fails: the eviction of [add] is followed by the scan,
    which removes the packets of a frame it returns.  With capacity 4 and
    packets 0, 2, 3 stored (origin 0), adding packet 5 (delta 5, excess 2)
    evicts slots 0 and 1, then returns the frame made of packet 2: the
    origin ends at 3, not at 0 + 2. *)
Lemma bounded_eviction_counterexample :
  let q2 := example_packet 2 1000 Byte.x02 in
  let q5 := example_packet 5 2000 Byte.x05 in
  let jb := snd (add ex3 (snd (add q2 (snd (add ex0 (fresh 4 0)))))) in
  reachable jb /\ _capacity jb = 4 /\ _origin jb = Some 0 /\
  RtpPacket.sequence_number q5 - 0 = 5 /\
  fst (add q5 jb) =
    Val (Some (JitterFrame.mk [Byte.x02] [q2] 1000 7002 12)) /\
  _origin (snd (add q5 jb)) = Some 3 /\
  _origin (snd (add q5 jb)) <> Some (0 + (5 - 4 + 1)).
Proof.
  cbv zeta. split.
  { eapply reach_add; [|apply surjective_pairing].
    eapply reach_add; [|apply surjective_pairing].
    eapply reach_add; [|apply surjective_pairing].
    apply (reach_init 4 0). reflexivity. }
  split; [vm_compute; reflexivity|]. split; [vm_compute; reflexivity|].
  split; [vm_compute; reflexivity|]. split; [vm_compute; reflexivity|].
  split; [vm_compute; reflexivity|]. vm_compute. discriminate.
Qed.

(** C6, amended. On a buffer with capacity [C] and origin [o], for a packet
    with [delta = sequence_number - o] in [[C, 2C)], the overflow step of
    [add] (lines 48-57) evicts exactly the [delta - C + 1] oldest slots and
    advances the origin by exactly that amount, the rest of the window
    being untouched.  The call of [add] as a whole returns normally, and
    the origin it leaves is advanced by that amount plus the number of
    packets of the frame it returns, if it returns one. *)
Theorem bounded_eviction_on_overflow (jb : JitterBuffer) (o : Z) (p : RtpPacket.t) :
  shape jb -> _origin jb = Some o ->
  let C := _capacity jb in
  let delta := RtpPacket.sequence_number p - o in
  let excess := delta - C + 1 in
  C <= delta < 2 * C ->
  fit_window p jb = (Val tt, removed excess o jb) /\
  _origin (removed excess o jb) = Some (o + excess) /\
  (forall i, 0 <= i < excess -> slot (removed excess o jb) (o + i) = None) /\
  (forall s, o + excess <= s < o + C -> slot (removed excess o jb) s = slot jb s) /\
  exists r jb',
    add p jb = (Val r, jb') /\
    _origin jb' =
    Some (o + excess +
          match r with
          | Some f => Z.of_nat (length (JitterFrame.packets f))
          | None => 0
          end).
Proof.
  intros Hs Ho C delta excess Hd. subst C delta excess.
  set (s := RtpPacket.sequence_number p) in *.
  assert (Hc : 0 < _capacity jb) by lia.
  split.
  { rewrite (fit_window_some p jb o Hs Hc Ho). cbv zeta. fold s.
    destruct (Z.leb_spec (2 * _capacity jb) (s - o)); [lia|].
    destruct (Z.leb_spec (_capacity jb) (s - o)); [reflexivity|lia]. }
  split.
  { unfold removed. cbn [_origin]. f_equal. lia. }
  split.
  { intros i Hi. apply slot_removed_cleared; assumption. }
  split.
  { intros x Hx. apply slot_removed_kept; [exact Hc|lia]. }
  rewrite add_placed by assumption. unfold placed. rewrite Ho. cbv zeta. fold s.
  destruct (Z.leb_spec s (o - MAX_MISORDER)); [unfold MAX_MISORDER in *; lia|].
  destruct (Z.ltb_spec s o); [lia|].
  destruct (Z.leb_spec (2 * _capacity jb) (s - o)); [lia|].
  destruct (Z.leb_spec (_capacity jb) (s - o)); [|lia].
  set (jb1 := with_slot s (Some p) (removed (s - o - _capacity jb + 1) o jb)).
  assert (Ho1 : _origin jb1 = Some (o + (s - o - _capacity jb + 1))).
  { unfold jb1, with_slot, removed. cbn [_origin]. f_equal. lia. }
  assert (Hs1 : shape jb1) by (apply with_slot_shape, removed_shape, Hs).
  destruct (_remove_frame_post jb1 _ Hs1 Hc Ho1 s) as [E|(ps & f & Hf & E)].
  - exists None, jb1. split; [exact E|]. rewrite Ho1. f_equal. lia.
  - exists (Some f), (removed (Z.of_nat (length ps)) (o + (s - o - _capacity jb + 1)) jb1).
    split; [exact E|].
    destruct Hf as (Hmk & _). apply mk_frame_packets in Hmk.
    destruct Hmk as (-> & _). unfold removed. cbn [_origin]. f_equal. lia.
Qed.

Lemma bounded_eviction_on_overflow_witness :
  let q2 := example_packet 2 1000 Byte.x02 in
  let q5 := example_packet 5 2000 Byte.x05 in
  let jb := snd (add ex3 (snd (add q2 (snd (add ex0 (fresh 4 0)))))) in
  fit_window q5 jb = (Val tt, removed 2 0 jb) /\
  exists r jb',
    add q5 jb = (Val r, jb') /\
    _origin jb' =
    Some (0 + 2 +
          match r with
          | Some f => Z.of_nat (length (JitterFrame.packets f))
          | None => 0
          end).
Proof.
  cbv zeta.
  pose proof (bounded_eviction_on_overflow
                (snd (add ex3 (snd (add (example_packet 2 1000 Byte.x02)
                                      (snd (add ex0 (fresh 4 0)))))))
                0 (example_packet 5 2000 Byte.x05)) as H.
  cbv zeta in H.
  destruct H as (Hfit & _ & _ & _ & Hadd).
  - split; [apply Z.leb_le|]; vm_compute; reflexivity.
  - vm_compute. reflexivity.
  - split; [apply Z.leb_le|apply Z.ltb_lt]; vm_compute; reflexivity.
  - split; [exact Hfit|exact Hadd].
Defined.

(** ** The scan and gaps *)

(** Two sequence numbers of one window that share a slot are equal. *)
Lemma window_same_slot (a b o cap : Z) :
  0 < cap -> o <= a < o + cap -> o <= b < o + cap ->
  a mod cap = b mod cap -> a = b.
Proof.
  intros Hc Ha Hb Hm. destruct (Z.le_ge_cases b a).
  - apply (window_index_inj a b cap); [exact Hc|lia|exact Hm].
  - symmetry. apply (window_index_inj b a cap); [exact Hc|lia|symmetry; exact Hm].
Qed.

Lemma slot_Some_lookup (jb : JitterBuffer) (s : Z) (q : RtpPacket.t) :
  slot jb s = Some q ->
  _packets jb !! Z.to_nat (s mod _capacity jb) = Some (Some q).
Proof.
  unfold slot. destruct (_packets jb !! _) as [x|]; cbn; [|discriminate].
  intros ->. reflexivity.
Qed.

(** Under the window invariant the slot of [s] holds packet [s] or nothing. *)
Lemma slot_sequence_number (jb : JitterBuffer) (o s : Z) (q : RtpPacket.t) :
  0 < _capacity jb -> window_inv jb -> _origin jb = Some o ->
  o <= s < o + _capacity jb -> slot jb s = Some q ->
  RtpPacket.sequence_number q = s.
Proof.
  intros Hc Hinv Ho Hs Hq. apply slot_Some_lookup in Hq.
  destruct (Hinv _ _ Hq) as (o' & Ho' & Hw & Hidx).
  rewrite Ho in Ho'. injection Ho' as <-.
  pose proof (mod_in_range s (_capacity jb) Hc).
  rewrite Z2Nat.id in Hidx by lia.
  apply (window_same_slot _ _ o (_capacity jb)); [exact Hc|lia|exact Hs|].
  symmetry. exact Hidx.
Qed.

(** A buffer without slots never returns a frame: [add] raises at
    [sequence_number % 0] unless it drops the packet. *)
Lemma add_capacity_0 (p : RtpPacket.t) (jb : JitterBuffer) r jb' :
  _capacity jb = 0 -> add p jb = (r, jb') -> forall f, r <> Val (Some f).
Proof.
  intros H0 Ha f ->. unfold add in Ha. unfold bind at 1 in Ha.
  destruct (establish_origin p jb) as [[[|]|e] jb1] eqn:E1; try discriminate.
  assert (Hf1 : same_frame jb jb1) by (eapply preserves_establish_origin; exact E1).
  unfold bind at 1 in Ha.
  destruct (fit_window p jb1) as [[[]|e] jb2] eqn:E2; try discriminate.
  assert (Hf2 : same_frame jb1 jb2) by (eapply preserves_fit_window; exact E2).
  unfold bind at 1 in Ha. unfold store in Ha.
  rewrite (bind_Val get_capacity _ jb2 jb2 _ eq_refl) in Ha.
  destruct Hf1 as (Hc1 & _), Hf2 as (Hc2 & _).
  unfold py_mod in Ha. rewrite Hc2, Hc1, H0 in Ha. cbn in Ha. discriminate.
Qed.

(** A frame returned by [add] is made of the packets just below the
    origin that [add] leaves. *)
Lemma add_frame_before_origin (jb : JitterBuffer) (p : RtpPacket.t)
    (f : JitterFrame.t) (jb' : JitterBuffer) :
  shape jb -> window_inv jb -> add p jb = (Val (Some f), jb') ->
  exists o', _origin jb' = Some o' /\
    forall q, q ∈ JitterFrame.packets f -> RtpPacket.sequence_number q < o'.
Proof.
  intros Hs Hinv Ha.
  destruct (Z.eq_dec (_capacity jb) 0) as [H0|H0].
  { exfalso. exact (add_capacity_0 p jb _ jb' H0 Ha f eq_refl). }
  assert (Hc : 0 < _capacity jb) by (destruct Hs; lia).
  destruct (add_cases p jb Hs Hc) as [[_ Hd]|(jb1 & o1 & Hp & Ho1 & Hpost)].
  { rewrite Hd in Ha. discriminate. }
  destruct (placed_props p jb jb1 Hs Hc Hp) as (Hs1 & Hc1 & _ & _ & _ & Hinv1).
  specialize (Hinv1 Hinv).
  rewrite Ha in Hpost. destruct Hpost as [E|(ps & f' & Hf & E)]; [discriminate|].
  injection E as <- ->.
  destruct Hf as (Hmk & Hlen & Hrun & _).
  apply mk_frame_packets in Hmk. destruct Hmk as (Hps & _).
  exists (o1 + Z.of_nat (length ps)). split.
  { unfold removed. cbn [_origin]. f_equal. lia. }
  intros q Hq. rewrite Hps in Hq.
  apply list_elem_of_lookup in Hq. destruct Hq as (i & Hi).
  pose proof (lookup_lt_Some _ _ _ Hi) as Hlt.
  rewrite (slot_sequence_number jb1 o1 (o1 + Z.of_nat i) q);
    [lia|lia|exact Hinv1|exact Ho1|lia|apply Hrun, Hi].
Qed.

(** The scan returns nothing when a slot of the window is empty and the
    packets before it carry one timestamp. *)
Lemma scan_stalls (x : Z) (jb : JitterBuffer) (o g T : Z) :
  shape jb -> _origin jb = Some o -> o <= g < o + _capacity jb ->
  slot jb g = None ->
  (forall s q, o <= s < g -> slot jb s = Some q -> RtpPacket.timestamp q = T) ->
  _remove_frame x jb = (Val None, jb).
Proof.
  intros Hs Ho Hg Hgap Hts.
  assert (Hc : 0 < _capacity jb) by lia.
  destruct (_remove_frame_post jb o Hs Hc Ho x) as [E|(ps & f & Hf & _)];
    [exact E|].
  exfalso. destruct Hf as (Hmk & Hlen & Hrun & _ & (q' & Hq' & Hne)).
  apply mk_frame_packets in Hmk.
  destruct Hmk as (_ & Hpos & _ & (p0 & Hhead & Hft & _)).
  assert (Hbefore : o + Z.of_nat (length ps) < g).
  { destruct (Z.lt_ge_cases (o + Z.of_nat (length ps)) g) as [?|Hge]; [assumption|].
    exfalso.
    destruct (Z.eq_dec g (o + Z.of_nat (length ps))) as [->|Hneq].
    - congruence.
    - destruct (lookup_lt_is_Some_2 ps (Z.to_nat (g - o)) ltac:(lia)) as [q Hq].
      apply Hrun in Hq. rewrite Z2Nat.id in Hq by lia.
      replace (o + (g - o)) with g in Hq by lia. congruence. }
  apply Hne. rewrite Hft.
  rewrite (Hts (o + Z.of_nat (length ps)) q' ltac:(lia) Hq').
  symmetry. apply (Hts o p0); [lia|].
  destruct ps as [|p ps]; [discriminate|]. injection Hhead as ->.
  specialize (Hrun O p0 eq_refl). rewrite Z.add_0_r in Hrun. exact Hrun.
Qed.

(** Storing a packet beside the gap keeps the buffer stalled. *)
Lemma stalled_with_slot (jb : JitterBuffer) (o g T : Z) (p : RtpPacket.t) :
  stalled o g T jb -> beside_gap o g T (_capacity jb) p ->
  stalled o g T (with_slot (RtpPacket.sequence_number p) (Some p) jb).
Proof.
  intros (Hs & Ho & Hg & Hgap & Hts) (Hne & Hw & Hp).
  assert (Hc : 0 < _capacity jb) by lia.
  set (s := RtpPacket.sequence_number p) in *.
  split; [apply with_slot_shape, Hs|]. split; [exact Ho|]. split; [exact Hg|].
  split.
  - rewrite slot_with_slot_ne; [exact Hgap|exact Hc|].
    intros Hm. apply Hne.
    apply (window_same_slot _ _ o (_capacity jb)); assumption || lia.
  - intros x q Hx Hq. destruct (Z.eq_dec x s) as [->|Hxs].
    + rewrite slot_with_slot_eq in Hq by assumption. injection Hq as <-.
      apply Hp. lia.
    + rewrite slot_with_slot_ne in Hq; [apply (Hts x q Hx Hq)|exact Hc|].
      intros Hm. apply Hxs. symmetry.
      apply (window_same_slot _ _ o (_capacity jb)); assumption || lia.
Qed.

(** After a full flush the buffer holds the new packet alone, and the
    scan finds no frame. *)
Lemma flushed_single (x s o : Z) (p : RtpPacket.t) (jb : JitterBuffer) :
  shape jb -> 0 < _capacity jb ->
  let J := with_slot s (Some p) (flushed s o jb) in
  _remove_frame x J = (Val None, J) /\
  slot J s = Some p /\
  (forall y, y mod _capacity jb <> s mod _capacity jb -> slot J y = None).
Proof.
  intros Hs Hc J.
  assert (Hother : forall y, y mod _capacity jb <> s mod _capacity jb ->
                     slot J y = None).
  { intros y Hy. unfold J. rewrite slot_with_slot_ne.
    - apply slot_flushed; assumption.
    - exact Hc.
    - cbn [_capacity flushed with_origin removed]. congruence. }
  split; [|split; [apply slot_with_slot_eq; [apply flushed_shape, Hs|exact Hc]
                  |exact Hother]].
  apply (scan_single _ _ s).
  - apply with_slot_shape, flushed_shape, Hs.
  - exact Hc.
  - reflexivity.
  - intros n Hn. cbn [_capacity J with_slot flushed with_origin removed] in Hn.
    apply Hother. intros Hm.
    apply (window_index_inj (s + n) s) in Hm; lia.
Qed.

(** Gap stall, in general: from a stalled buffer, an [add] of a packet
    other than the missing one (carrying the timestamp [T] when it goes
    before the gap) that leaves the gap inside the window returns nothing
    and leaves the buffer stalled. *)
Lemma add_keeps_stalled (jb : JitterBuffer) (o g T : Z) (p : RtpPacket.t)
    (r : outcome (option JitterFrame.t)) (jb' : JitterBuffer) (o' : Z) :
  stalled o g T jb ->
  RtpPacket.sequence_number p <> g ->
  (RtpPacket.sequence_number p < g -> RtpPacket.timestamp p = T) ->
  add p jb = (r, jb') ->
  _origin jb' = Some o' -> o' <= g < o' + _capacity jb ->
  r = Val None /\ stalled o' g T jb'.
Proof.
  intros Hst Hne Hp Ha Ho' Hg'.
  pose proof Hst as (Hs & Ho & Hg & Hgap & Hts).
  assert (Hc : 0 < _capacity jb) by lia.
  set (s := RtpPacket.sequence_number p) in *.
  assert (Hflush : add p jb = _remove_frame s (with_slot s (Some p) (flushed s o jb)) ->
                   s <= g -> r = Val None /\ stalled o' g T jb').
  { intros E Hsg. rewrite E in Ha.
    destruct (flushed_single s s o p jb Hs Hc) as (HJ & Hps & Hother).
    cbv zeta in HJ. rewrite HJ in Ha. injection Ha as <- <-.
    cbn [_origin with_slot flushed with_origin] in Ho'. injection Ho' as <-.
    split; [reflexivity|].
    split; [apply with_slot_shape, flushed_shape, Hs|].
    split; [reflexivity|]. split; [exact Hg'|]. split.
    - apply Hother. intros Hm.
      apply (window_same_slot g s s) in Hm; lia.
    - intros y q Hy Hq. destruct (Z.eq_dec y s) as [->|Hys].
      + rewrite Hps in Hq. injection Hq as <-. apply Hp. lia.
      + rewrite Hother in Hq; [discriminate|]. intros Hm.
        apply (window_same_slot y s s) in Hm; lia. }
  rewrite add_placed in Ha, Hflush by assumption. unfold placed in Ha, Hflush.
  rewrite Ho in Ha, Hflush. cbv zeta in Ha, Hflush. fold s in Ha, Hflush.
  destruct (Z.leb_spec s (o - MAX_MISORDER)) as [Hback|Hback].
  { apply Hflush; [reflexivity|unfold MAX_MISORDER in *; lia]. }
  destruct (Z.ltb_spec s o) as [Hlate|Hlate].
  { injection Ha as <- <-. rewrite Ho in Ho'. injection Ho' as <-.
    split; [reflexivity|exact Hst]. }
  destruct (Z.leb_spec (2 * _capacity jb) (s - o)) as [Hfar|Hfar].
  { destruct (Z.le_gt_cases s g) as [Hsg|Hsg]; [lia|].
    exfalso. destruct (flushed_single s s o p jb Hs Hc) as (HJ & _).
    cbv zeta in HJ. rewrite HJ in Ha. injection Ha as _ <-.
    cbn [_origin with_slot flushed with_origin] in Ho'. injection Ho' as <-. lia. }
  destruct (Z.leb_spec (_capacity jb) (s - o)) as [Hover|Hfit].
  - (* overflow: the oldest slots are evicted, the gap stays *)
    set (e := s - o - _capacity jb + 1) in *.
    set (J := with_slot s (Some p) (removed e o jb)) in *.
    assert (HsJ : shape J) by (apply with_slot_shape, removed_shape, Hs).
    assert (HoJ : _origin J = Some (o + e)).
    { unfold J, with_slot, removed. cbn [_origin]. f_equal. lia. }
    assert (Ho1 : o + e <= o').
    { destruct (_remove_frame_post J _ HsJ Hc HoJ s) as [E|(ps & f & _ & E)];
        rewrite Ha in E; injection E as _ ->.
      - rewrite HoJ in Ho'. injection Ho' as <-. lia.
      - unfold removed in Ho'. cbn [_origin] in Ho'. injection Ho' as <-. lia. }
    assert (Hst1 : stalled (o + e) g T J).
    { split; [exact HsJ|]. split; [exact HoJ|].
      split; [cbn [_capacity J with_slot removed]; lia|].
      assert (Hkeep : forall y, o + e <= y < o + _capacity jb -> slot J y = slot jb y).
      { intros y Hy. unfold J. rewrite slot_with_slot_ne.
        - apply slot_removed_kept; [exact Hc|lia].
        - exact Hc.
        - cbn [_capacity removed]. intros Hm.
          apply (window_same_slot s y (o + e)) in Hm; unfold e in *; lia. }
      split.
      - rewrite Hkeep by lia. exact Hgap.
      - intros y q Hy Hq. rewrite Hkeep in Hq by lia. apply (Hts y q); [lia|exact Hq]. }
    pose proof Hst1 as (? & ? & ? & ? & ?).
    rewrite (scan_stalls s J (o + e) g T) in Ha by assumption.
    injection Ha as <- <-. rewrite HoJ in Ho'. injection Ho' as <-.
    split; [reflexivity|exact Hst1].
  - (* the packet fits the window *)
    assert (Hb : beside_gap o g T (_capacity jb) p).
    { split; [exact Hne|]. split; [fold s; lia|exact Hp]. }
    pose proof (stalled_with_slot jb o g T p Hst Hb) as Hst1. fold s in Hst1.
    pose proof Hst1 as (? & ? & ? & ? & ?).
    rewrite (scan_stalls s _ o g T) in Ha by assumption.
    injection Ha as <- <-.
    cbn [_origin with_slot] in Ho'. rewrite Ho in Ho'. injection Ho' as <-.
    split; [reflexivity|exact Hst1].
Qed.

(** No [add] of a stream of such packets returns a frame, as long as the
    gap stays inside the window. *)
Lemma add_trace_keeps_stalled (g T : Z) (qs : list RtpPacket.t) :
  forall jb o, stalled o g T jb ->
    Forall (fun q => RtpPacket.sequence_number q <> g /\
                     (RtpPacket.sequence_number q < g -> RtpPacket.timestamp q = T)) qs ->
    Forall (fun r => exists o', _origin (snd r) = Some o' /\
                       o' <= g < o' + _capacity (snd r)) (add_trace qs jb) ->
    Forall (fun r => fst r = Val None /\ slot (snd r) g = None) (add_trace qs jb).
Proof.
  induction qs as [|q qs IH]; intros jb o Hst Hqs Hwin; cbn [add_trace] in *;
    [constructor|].
  inversion Hqs as [|? ? [Hq1 Hq2] Hqs']; subst.
  inversion Hwin as [|? ? (o' & Ho' & Hg') Hwin']; subst.
  destruct (add q jb) as [r jb'] eqn:E. cbn [fst snd] in *.
  assert (Hcap : _capacity jb' = _capacity jb).
  { destruct (preserves_add q jb r jb' E) as (-> & _). reflexivity. }
  rewrite Hcap in Hg'.
  destruct (add_keeps_stalled jb o g T q r jb' o' Hst Hq1 Hq2 E Ho' Hg')
    as [-> Hst'].
  constructor.
  - split; [reflexivity|]. apply Hst'.
  - apply (IH jb' o'); assumption.
Qed.

(** ** Streams with one timestamp *)

(** The packets handed to the scan are the new one and old ones. *)
Lemma placed_packets (p : RtpPacket.t) (jb jb1 : JitterBuffer) :
  placed p jb = Some jb1 ->
  forall (j : nat) (q : RtpPacket.t),
    _packets jb1 !! j = Some (Some q) ->
    q = p \/ _packets jb !! j = Some (Some q).
Proof.
  intros Hp j q Hq.
  assert (Hin : forall X,
            jb1 = with_slot (RtpPacket.sequence_number p) (Some p) X ->
            (forall q', _packets X !! j = Some (Some q') ->
                        _packets jb !! j = Some (Some q')) ->
            q = p \/ _packets jb !! j = Some (Some q)).
  { intros X -> HX. unfold with_slot in Hq. cbn [_packets] in Hq.
    apply list_lookup_insert_Some in Hq.
    destruct Hq as [(_ & Heq & _)|(_ & Hq)].
    - left. congruence.
    - right. apply HX, Hq. }
  unfold placed in Hp. cbv zeta in Hp.
  destruct (_origin jb) as [o|].
  - destruct (_ <=? _) in Hp.
    { injection Hp as Hp. eapply Hin; [symmetry; exact Hp|].
      intros q'. apply clear_slots_some. }
    destruct (_ <? _) in Hp; [discriminate|].
    destruct (_ <=? _) in Hp.
    { injection Hp as Hp. eapply Hin; [symmetry; exact Hp|].
      intros q'. apply clear_slots_some. }
    destruct (_ <=? _) in Hp.
    + injection Hp as Hp. eapply Hin; [symmetry; exact Hp|].
      intros q'. apply clear_slots_some.
    + injection Hp as Hp. eapply Hin; [symmetry; exact Hp|]. tauto.
  - injection Hp as Hp. eapply Hin; [symmetry; exact Hp|]. tauto.
Qed.

(** Without two timestamps there is no boundary, hence no frame. *)
Lemma add_uniform (T : Z) (p : RtpPacket.t) (jb : JitterBuffer) r jb' :
  shape jb -> uniform T jb -> RtpPacket.timestamp p = T ->
  add p jb = (r, jb') ->
  (forall f, r <> Val (Some f)) /\ uniform T jb'.
Proof.
  intros Hs Hu Hp Ha.
  destruct (Z.eq_dec (_capacity jb) 0) as [H0|H0].
  { split; [eapply add_capacity_0; eassumption|].
    intros j q Hq. apply lookup_lt_Some in Hq.
    destruct (preserves_add p jb r jb' Ha) as (_ & _ & Hlen).
    destruct Hs as [_ Hl]. lia. }
  assert (Hc : 0 < _capacity jb) by (destruct Hs; lia).
  destruct (add_cases p jb Hs Hc) as [[_ Hd]|(jb1 & o1 & Hpl & Ho1 & Hpost)].
  { rewrite Hd in Ha. injection Ha as <- <-. split; [discriminate|exact Hu]. }
  assert (Hu1 : uniform T jb1).
  { intros j q Hq. destruct (placed_packets p jb jb1 Hpl j q Hq) as [->|Hold];
      [exact Hp|exact (Hu j q Hold)]. }
  rewrite Ha in Hpost. destruct Hpost as [E|(ps & f & Hf & E)].
  - injection E as -> ->. split; [discriminate|exact Hu1].
  - exfalso. destruct Hf as (Hmk & _ & Hrun & _ & (q' & Hq' & Hne)).
    apply mk_frame_packets in Hmk.
    destruct Hmk as (_ & _ & _ & (p0 & Hhead & Hft & _)).
    apply Hne. rewrite Hft.
    rewrite (Hu1 _ q' (slot_Some_lookup _ _ _ Hq')).
    destruct ps as [|p0' ps]; [discriminate|]. injection Hhead as ->.
    symmetry. apply (Hu1 _ p0 (slot_Some_lookup _ _ _ (Hrun O p0 eq_refl))).
Qed.

Lemma add_trace_uniform (T : Z) (qs : list RtpPacket.t) :
  forall jb, shape jb -> uniform T jb ->
    Forall (fun q => RtpPacket.timestamp q = T) qs ->
    Forall (fun r => forall f, fst r <> Val (Some f)) (add_trace qs jb).
Proof.
  induction qs as [|q qs IH]; intros jb Hs Hu Hqs; cbn [add_trace]; [constructor|].
  inversion Hqs as [|? ? Hq Hqs']; subst.
  destruct (add q jb) as [r jb'] eqn:E. cbn [snd].
  destruct (add_uniform _ q jb r jb' Hs Hu eq_refl E) as [Hr Hu'].
  constructor; [exact Hr|].
  apply IH; [|exact Hu'|exact Hqs'].
  eapply same_frame_shape; [eapply preserves_add; exact E|exact Hs].
Qed.

(** Packets 0, 1, 3, 4 on a fresh buffer, packet 2 missing. *)
Section Gap.
Variables (c pf : Z) (ta t3 t4 : Z).
Variables (n0 n1 n3 n4 : datetime) (r0 r1 r3 r4 : Z) (d0 d1 d3 d4 : bytes).
Hypothesis Hc : 5 <= c.

Let p0 := RtpPacket.mk 0 ta n0 r0 d0.
Let p1 := RtpPacket.mk 1 ta n1 r1 d1.
Let p3 := RtpPacket.mk 3 t3 n3 r3 d3.
Let p4 := RtpPacket.mk 4 t4 n4 r4 d4.
Let start := with_origin 0 (fresh c pf).

Lemma gap_3 :
  add p3 (stored [p0; p1] start) = (Val None, stored [p0; p1; p3] start).
Proof.
  subst start p0 p1 p3. cbn [stored foldl RtpPacket.sequence_number].
  add_start. fuel c 3%nat.
  scan_step (Some (RtpPacket.mk 0 ta n0 r0 d0)). scan_same.
  scan_step (Some (RtpPacket.mk 1 ta n1 r1 d1)). scan_same.
  scan_step (@None RtpPacket.t). reflexivity.
Qed.

Lemma gap_4 :
  add p4 (stored [p0; p1; p3] start) = (Val None, stored [p0; p1; p3; p4] start).
Proof.
  subst start p0 p1 p3 p4. cbn [stored foldl RtpPacket.sequence_number].
  add_start. fuel c 3%nat.
  scan_step (Some (RtpPacket.mk 0 ta n0 r0 d0)). scan_same.
  scan_step (Some (RtpPacket.mk 1 ta n1 r1 d1)). scan_same.
  scan_step (@None RtpPacket.t). reflexivity.
Qed.

Lemma gap_state : stalled 0 2 ta (stored [p0; p1; p3; p4] start).
Proof.
  subst start p0 p1 p3 p4. cbn [stored foldl RtpPacket.sequence_number].
  split; [buffer_shape|]. split; [reflexivity|]. split; [buffer_arith|].
  split; [buffer_slot|].
  intros s q Hs Hq. assert (Hcase : s = 0 \/ s = 1) by lia.
  destruct Hcase as [-> | ->].
  - match type of Hq with
    | slot ?J _ = _ =>
        assert (E : slot J 0 = Some (RtpPacket.mk 0 ta n0 r0 d0)) by buffer_slot
    end.
    rewrite E in Hq. injection Hq as <-. reflexivity.
  - match type of Hq with
    | slot ?J _ = _ =>
        assert (E : slot J 1 = Some (RtpPacket.mk 1 ta n1 r1 d1)) by buffer_slot
    end.
    rewrite E in Hq. injection Hq as <-. reflexivity.
Qed.
End Gap.

(** C8. Gap stall.  On a reachable buffer where the slot of a sequence
    number [g] of the window is empty, an [add] that leaves that slot empty
    and the origin at or before [g] returns no frame with a packet at or
    beyond [g].  Concretely, on a fresh buffer, after packets 0 and 1 (one
    timestamp) and packets 3 and 4 (any timestamps, the same one included)
    have been added, nothing has been returned, the origin is 0 and slot 2
    is empty; and in any further stream of packets other than packet 2
    (carrying that timestamp when they go before the gap) no [add] returns
    a frame for as long as sequence number 2 stays inside the window.
    Whatever the capacity, no [add] of a stream of packets that all carry
    one timestamp (such as 0, 1, 3, 4 of the claim) returns a frame. *)
Theorem gap_stall :
  (forall jb o g p f jb' o',
     reachable jb -> _origin jb = Some o -> o <= g < o + _capacity jb ->
     slot jb g = None ->
     add p jb = (Val (Some f), jb') ->
     _origin jb' = Some o' -> o' <= g -> slot jb' g = None ->
     forall q, q ∈ JitterFrame.packets f -> RtpPacket.sequence_number q < g) /\
  (forall c pf jb0 T t3 t4 p0 p1 p3 p4,
     init c pf = inr jb0 -> 8 <= c ->
     tagged 0 T p0 -> tagged 1 T p1 -> tagged 3 t3 p3 -> tagged 4 t4 p4 ->
     let jb := stored [p0; p1; p3; p4] (with_origin 0 jb0) in
     add_trace [p0; p1; p3; p4] jb0 =
     [ (Val None, stored [p0] (with_origin 0 jb0));
       (Val None, stored [p0; p1] (with_origin 0 jb0));
       (Val None, stored [p0; p1; p3] (with_origin 0 jb0));
       (Val None, jb) ] /\
     _origin jb = Some 0 /\ slot jb 2 = None /\
     forall qs,
       Forall (fun q => RtpPacket.sequence_number q <> 2 /\
                        (RtpPacket.sequence_number q < 2 ->
                         RtpPacket.timestamp q = T)) qs ->
       Forall (fun r => exists o', _origin (snd r) = Some o' /\
                          o' <= 2 < o' + _capacity (snd r)) (add_trace qs jb) ->
       Forall (fun r => fst r = Val None /\ slot (snd r) 2 = None)
         (add_trace qs jb)) /\
  (forall c pf jb0 T qs,
     init c pf = inr jb0 ->
     Forall (fun q => RtpPacket.timestamp q = T) qs ->
     Forall (fun r => forall f, fst r <> Val (Some f)) (add_trace qs jb0)).
Proof.
  split; [|split].
  - intros jb o g p f jb' o' Hr _ _ _ Ha Ho' Hg _ q Hq.
    destruct (reachable_inv jb Hr) as [Hs Hinv].
    destruct (add_frame_before_origin jb p f jb' Hs Hinv Ha) as (o'' & Ho'' & Hlt).
    rewrite Ho' in Ho''. injection Ho'' as <-.
    specialize (Hlt q Hq). lia.
  - intros c pf jb0 T t3 t4 p0 p1 p3 p4 Hi Hc T0 T1 T3 T4.
    apply init_fresh in Hi. subst jb0. literal_packets. cbv zeta.
    assert (Hc4 : 4 <= c) by lia. assert (Hc5 : 5 <= c) by lia.
    match goal with
    | |- _ /\ _origin ?J = _ /\ _ =>
        assert (Hst : stalled 0 2 T J) by (apply gap_state; exact Hc5)
    end.
    split; [|split; [reflexivity|split; [apply Hst|]]].
    + cbn [add_trace].
      rewrite in_order_1 by assumption. cbn [snd].
      rewrite in_order_2 by assumption. cbn [snd].
      rewrite gap_3 by assumption. cbn [snd].
      rewrite gap_4 by assumption. reflexivity.
    + intros qs Hqs Hwin.
      exact (add_trace_keeps_stalled 2 T qs _ 0 Hst Hqs Hwin).
  - intros c pf jb0 T qs Hi Hqs.
    destruct (init_inv c pf jb0 Hi) as [Hs Hinv].
    apply (add_trace_uniform T qs jb0 Hs); [|exact Hqs].
    intros j q Hq. destruct (Hinv j q Hq) as (o & Ho & _).
    apply init_fresh in Hi. subst jb0. discriminate.
Qed.

Lemma gap_stall_witness :
  (let jb := snd (add ex0 (fresh 16 0)) in
   let p := example_packet 1 2000 Byte.x01 in
   let f := JitterFrame.mk [Byte.x00] [ex0] 1000 7000 10 in
   fst (add p jb) = Val (Some f) /\
   forall q, q ∈ JitterFrame.packets f -> RtpPacket.sequence_number q < 2) /\
  (let q3 := example_packet 3 1000 Byte.x03 in
   let q4 := example_packet 4 1000 Byte.x04 in
   fst <$> add_trace [ex0; ex1; q3; q4] (fresh 16 0) =
     [Val None; Val None; Val None; Val None] /\
   Forall (fun r => fst r = Val None /\ slot (snd r) 2 = None)
     (add_trace [example_packet 5 2000 Byte.x05]
        (stored [ex0; ex1; q3; q4] (with_origin 0 (fresh 16 0))))).
Proof.
  destruct gap_stall as (Hgen & Hex & _). split.
  - cbv zeta. split; [vm_compute; reflexivity|].
    apply (Hgen (snd (add ex0 (fresh 16 0))) 0 2 (example_packet 1 2000 Byte.x01)
             (JitterFrame.mk [Byte.x00] [ex0] 1000 7000 10)
             (snd (add (example_packet 1 2000 Byte.x01) (snd (add ex0 (fresh 16 0)))))
             1).
    + eapply reach_add; [apply (reach_init 16 0); reflexivity|].
      apply surjective_pairing.
    + reflexivity.
    + split; [apply Z.leb_le|apply Z.ltb_lt]; vm_compute; reflexivity.
    + vm_compute. reflexivity.
    + vm_compute. reflexivity.
    + vm_compute. reflexivity.
    + lia.
    + vm_compute. reflexivity.
  - cbv zeta.
    destruct (Hex 16 0 (fresh 16 0) 1000 1000 1000 ex0 ex1
                (example_packet 3 1000 Byte.x03) (example_packet 4 1000 Byte.x04))
      as (Htr & _ & _ & Hmore);
      [reflexivity | lia | split; reflexivity | split; reflexivity
      | split; reflexivity | split; reflexivity |].
    split; [rewrite Htr; reflexivity|].
    apply Hmore.
    + constructor; [|constructor]. split; [vm_compute; discriminate|].
      intros H. vm_compute in H. discriminate.
    + constructor; [|constructor]. exists 0.
      split; [vm_compute; reflexivity|].
      split; [apply Z.leb_le|apply Z.ltb_lt]; vm_compute; reflexivity.
Defined.

(** ** Prefetch depths 0 and 1 *)

Lemma agree01_bind {A B} (m : M A) (k : A -> M B) :
  preserves m -> agree01 m -> (forall a, agree01 (k a)) -> agree01 (bind m k).
Proof.
  intros Hp Hm Hk jb Hpf. unfold bind. rewrite (Hm jb Hpf).
  destruct (m jb) as [[a|e] jb1] eqn:E; cbn [lift_prefetch fst snd].
  - apply Hk. destruct (Hp jb _ jb1 E) as (_ & -> & _). exact Hpf.
  - reflexivity.
Qed.

Lemma agree01_ret {A} (a : A) : agree01 (ret a).
Proof. intros jb _. reflexivity. Qed.

Lemma agree01_raise {A} (e : exn) : agree01 (@raise A e).
Proof. intros jb _. reflexivity. Qed.

Lemma agree01_get_capacity : agree01 get_capacity.
Proof. intros jb _. reflexivity. Qed.

Lemma agree01_get_origin : agree01 get_origin.
Proof. intros jb _. reflexivity. Qed.

Lemma agree01_set_origin o : agree01 (set_origin o).
Proof. intros jb _. reflexivity. Qed.

Lemma agree01_py_mod a b : agree01 (py_mod a b).
Proof. unfold py_mod. destruct (b =? 0); [apply agree01_raise|apply agree01_ret]. Qed.

Lemma agree01_getitem pos : agree01 (getitem pos).
Proof.
  intros jb _. unfold getitem, lift_prefetch. cbn [_packets set_prefetch].
  destruct (py_index _ pos); [|reflexivity].
  destruct (_packets jb !! n); reflexivity.
Qed.

Lemma agree01_setitem pos v : agree01 (setitem pos v).
Proof.
  intros jb _. unfold setitem, lift_prefetch. cbn [_packets set_prefetch].
  destruct (py_index _ pos); reflexivity.
Qed.

Create HintDb agree.
#[local] Hint Resolve agree01_ret agree01_raise agree01_get_capacity
  agree01_get_origin agree01_set_origin agree01_py_mod agree01_getitem
  agree01_setitem : agree.

Ltac agree_step :=
  first [ solve [auto with agree]
        | apply agree01_bind; [solve [repeat preserves_step] | | intros ?] ].

Lemma agree01_origin_int : agree01 origin_int.
Proof.
  unfold origin_int. agree_step; [agree_step|]. destruct a; agree_step.
Qed.
#[local] Hint Resolve agree01_origin_int : agree.

Lemma agree01_remove_loop n : agree01 (remove_loop n).
Proof.
  induction n as [|n IH]; cbn [remove_loop]; [apply agree01_ret|].
  repeat agree_step.
Qed.

Lemma agree01_remove count : agree01 (remove count).
Proof.
  unfold remove. agree_step; [agree_step|].
  destruct (count <=? a); [apply agree01_remove_loop|apply agree01_raise].
Qed.
#[local] Hint Resolve agree01_remove : agree.

Lemma hold_frame_cases (count : Z) (l : locals) :
  (exists l1, hold_frame count l = ret l1 /\ l_frames l1 = l_frames l) \/
  hold_frame count l = raise UnboundLocalError.
Proof.
  unfold hold_frame. destruct (l_frame l); [left; eauto|].
  destruct (l_timestamp l); [|right; reflexivity].
  destruct (l_ntp_timestamp l); [|right; reflexivity].
  destruct (l_rtp_diff l); [|right; reflexivity].
  left. eexists. split; reflexivity.
Qed.

(** At a boundary [frames] is at least 1, which passes the test for both
    depths. *)
Lemma agree01_scan_packet continue count l packet :
  (forall l', 0 <= l_frames l' -> agree01 (continue l')) ->
  0 <= l_frames l ->
  agree01 (scan_packet continue count l packet).
Proof.
  intros Hk Hl jb Hpf. unfold scan_packet.
  destruct (l_timestamp l); [|apply Hk; [exact Hl|exact Hpf]].
  destruct (negb _); [|apply Hk; [exact Hl|exact Hpf]].
  destruct (hold_frame_cases count l) as [(l1 & -> & Hl1)| ->]; [|reflexivity].
  rewrite (bind_Val (ret l1) _ (set_prefetch 1 jb) _ l1 eq_refl).
  rewrite (bind_Val (ret l1) _ jb _ l1 eq_refl).
  rewrite (bind_Val get_prefetch _ (set_prefetch 1 jb) _ _ eq_refl).
  rewrite (bind_Val get_prefetch _ jb _ _ eq_refl).
  cbn [_prefetch set_prefetch]. rewrite Hpf.
  destruct (Z.leb_spec 1 (l_frames l1 + 1)); [|lia].
  destruct (Z.leb_spec 0 (l_frames l1 + 1)); [|lia].
  assert (Hr : agree01 (remove (l_remove l1) >> ret (l_frame l1)))
    by repeat agree_step.
  apply Hr. exact Hpf.
Qed.

Lemma agree01_scan fuel :
  forall count l, 0 <= l_frames l -> agree01 (scan fuel count l).
Proof.
  induction fuel as [|fuel IH]; intros count l Hl; cbn [scan]; [apply agree01_ret|].
  do 4 (agree_step; [agree_step|]).
  destruct a2; [|apply agree01_ret].
  apply agree01_scan_packet; [|exact Hl]. intros l' Hl'. apply IH. exact Hl'.
Qed.

Lemma agree01__remove_frame s : agree01 (_remove_frame s).
Proof.
  unfold _remove_frame. agree_step; [agree_step|].
  apply agree01_scan. cbn. lia.
Qed.

Lemma agree01_establish_origin p : agree01 (establish_origin p).
Proof.
  unfold establish_origin. agree_step; [agree_step|].
  destruct a as [o|]; [|repeat agree_step].
  destruct (_ <=? _).
  - agree_step; [repeat agree_step|]. repeat agree_step.
  - destruct (_ <? _); apply agree01_ret.
Qed.

Lemma agree01_fit_window p : agree01 (fit_window p).
Proof.
  unfold fit_window. do 2 (agree_step; [agree_step|]). cbv zeta.
  destruct (_ <=? _).
  - agree_step; [repeat agree_step|]. repeat agree_step.
  - destruct (_ <=? _); repeat agree_step.
Qed.

Lemma agree01_store p : agree01 (store p).
Proof. unfold store. repeat agree_step. Qed.

Lemma agree01_add p : agree01 (add p).
Proof.
  unfold add.
  apply agree01_bind;
    [apply preserves_establish_origin|apply agree01_establish_origin|].
  intros late. destruct late; [apply agree01_ret|].
  apply agree01_bind; [apply preserves_fit_window|apply agree01_fit_window|].
  intros _.
  apply agree01_bind; [apply preserves_store|apply agree01_store|].
  intros _. apply agree01__remove_frame.
Qed.

Lemma add_trace_agree (ps : list RtpPacket.t) :
  forall jb, _prefetch jb = 0 ->
    Forall2 same_step (add_trace ps jb) (add_trace ps (set_prefetch 1 jb)).
Proof.
  induction ps as [|p ps IH]; intros jb Hpf; cbn [add_trace]; [constructor|].
  rewrite (agree01_add p jb Hpf). cbn [lift_prefetch snd].
  constructor.
  - split; [reflexivity|]. unfold same_state. cbn. tauto.
  - apply IH.
    destruct (add p jb) as [r jb'] eqn:E. cbn [snd].
    destruct (preserves_add p jb r jb' E) as (_ & -> & _). exact Hpf.
Qed.

(** C9. Prefetch 0/1 equivalence: for every power-of-two capacity and every
    finite sequence of packets, the buffers constructed with [prefetch = 0]
    and with [prefetch = 1] give the same outcome at every [add] and have
    the same capacity, origin and slot contents after every call. *)
Theorem prefetch_0_1_equivalence (c : Z) (ps : list RtpPacket.t) :
  is_pow2 c ->
  exists jb0 jb1,
    init c 0 = inr jb0 /\ init c 1 = inr jb1 /\
    Forall2 same_step (add_trace ps jb0) (add_trace ps jb1).
Proof.
  intros Hc. exists (fresh c 0), (fresh c 1).
  split; [apply init_pow2, Hc|]. split; [apply init_pow2, Hc|].
  apply (add_trace_agree ps (fresh c 0)). reflexivity.
Qed.

Lemma prefetch_0_1_equivalence_witness :
  is_pow2 4 /\
  exists jb0 jb1,
    init 4 0 = inr jb0 /\ init 4 1 = inr jb1 /\
    Forall2 same_step
      (add_trace [ex0; ex1; ex2; ex3; ex4] jb0)
      (add_trace [ex0; ex1; ex2; ex3; ex4] jb1).
Proof.
  assert (H4 : is_pow2 4) by (exists 2; split; [lia|reflexivity]).
  split; [exact H4|].
  exact (prefetch_0_1_equivalence 4 [ex0; ex1; ex2; ex3; ex4] H4).
Defined.

(** ** Further properties of [add] *)

(** X1. On a buffer with at least one slot, built by [__init__] and used
    through [add] and [remove], [add] never raises. *)
Theorem add_never_raises (jb : JitterBuffer) (p : RtpPacket.t) :
  reachable jb -> 0 < _capacity jb ->
  exists r jb', add p jb = (Val r, jb').
Proof.
  intros Hr Hc. destruct (reachable_inv jb Hr) as [Hs _].
  destruct (add_cases p jb Hs Hc) as [[_ Hd]|(jb1 & o1 & _ & _ & Hpost)].
  - exists None, jb. exact Hd.
  - destruct Hpost as [E|(ps & f & _ & E)]; rewrite E; eauto.
Qed.

Lemma add_never_raises_witness :
  exists r jb', add ex1 (snd (add ex0 (fresh 4 0))) = (Val r, jb').
Proof.
  apply add_never_raises.
  - eapply reach_add; [apply (reach_init 4 0); reflexivity|].
    apply surjective_pairing.
  - apply Z.ltb_lt. vm_compute. reflexivity.
Defined.

(** X2. A frame returned by [add] is well formed: it has at least one
    packet and fewer than [capacity]; its packets have consecutive
    sequence numbers, the last one just below the origin that [add]
    leaves, and all carry the timestamp of the frame; its data is the
    concatenation of their payloads in that order; [ntp_timestamp] and
    [rtp_diff] are those of its first packet. *)
Theorem returned_frame_well_formed (jb : JitterBuffer) (p : RtpPacket.t)
    (f : JitterFrame.t) (jb' : JitterBuffer) :
  reachable jb -> add p jb = (Val (Some f), jb') ->
  exists o1 p0,
    head (JitterFrame.packets f) = Some p0 /\
    Z.of_nat (length (JitterFrame.packets f)) < _capacity jb /\
    (forall (i : nat) q, JitterFrame.packets f !! i = Some q ->
       RtpPacket.sequence_number q = o1 + Z.of_nat i /\
       RtpPacket.timestamp q = JitterFrame.timestamp f) /\
    _origin jb' = Some (o1 + Z.of_nat (length (JitterFrame.packets f))) /\
    JitterFrame.data f = join_data (JitterFrame.packets f) /\
    JitterFrame.timestamp f = RtpPacket.timestamp p0 /\
    JitterFrame.ntp_timestamp f = RtpPacket.ntp_timestamp p0 /\
    JitterFrame.rtp_diff f = RtpPacket.rtp_diff p0.
Proof.
  intros Hr Ha. destruct (reachable_inv jb Hr) as [Hs Hinv].
  destruct (Z.eq_dec (_capacity jb) 0) as [H0|H0].
  { exfalso. exact (add_capacity_0 p jb _ jb' H0 Ha f eq_refl). }
  assert (Hc : 0 < _capacity jb) by (destruct Hs; lia).
  destruct (add_cases p jb Hs Hc) as [[_ Hd]|(jb1 & o1 & Hp & Ho1 & Hpost)].
  { rewrite Hd in Ha. discriminate. }
  destruct (placed_props p jb jb1 Hs Hc Hp) as (Hs1 & Hc1 & _ & _ & _ & Hinv1).
  specialize (Hinv1 Hinv).
  rewrite Ha in Hpost. destruct Hpost as [E|(ps & f' & Hf & E)]; [discriminate|].
  injection E as <- ->.
  destruct Hf as (Hmk & Hlen & Hrun & Hts & _).
  apply mk_frame_packets in Hmk.
  destruct Hmk as (Hps & _ & Hdata & (p0 & Hhead & Hft & Hfn & Hfr)).
  rewrite Hps. exists o1, p0.
  split; [exact Hhead|]. split; [lia|]. split.
  { intros i q Hi. pose proof (lookup_lt_Some _ _ _ Hi) as Hlt. split.
    - apply (slot_sequence_number jb1 o1 (o1 + Z.of_nat i) q);
        [lia|exact Hinv1|exact Ho1|lia|apply Hrun, Hi].
    - apply Hts. apply list_elem_of_lookup. eauto. }
  split.
  { unfold removed. cbn [_origin]. f_equal. lia. }
  repeat split; assumption.
Qed.

Lemma returned_frame_well_formed_witness :
  let jb := snd (add ex2 (snd (add ex1 (snd (add ex0 (fresh 4 0)))))) in
  let f := JitterFrame.mk [Byte.x00; Byte.x01; Byte.x02] [ex0; ex1; ex2]
             1000 7000 10 in
  add ex3 jb = (Val (Some f), snd (add ex3 jb)) /\
  exists o1 p0,
    head (JitterFrame.packets f) = Some p0 /\
    Z.of_nat (length (JitterFrame.packets f)) < _capacity jb /\
    (forall (i : nat) q, JitterFrame.packets f !! i = Some q ->
       RtpPacket.sequence_number q = o1 + Z.of_nat i /\
       RtpPacket.timestamp q = JitterFrame.timestamp f) /\
    _origin (snd (add ex3 jb)) =
      Some (o1 + Z.of_nat (length (JitterFrame.packets f))) /\
    JitterFrame.data f = join_data (JitterFrame.packets f) /\
    JitterFrame.timestamp f = RtpPacket.timestamp p0 /\
    JitterFrame.ntp_timestamp f = RtpPacket.ntp_timestamp p0 /\
    JitterFrame.rtp_diff f = RtpPacket.rtp_diff p0.
Proof.
  cbv zeta. split; [vm_compute; reflexivity|].
  apply (returned_frame_well_formed
           (snd (add ex2 (snd (add ex1 (snd (add ex0 (fresh 4 0)))))))
           ex3
           (JitterFrame.mk [Byte.x00; Byte.x01; Byte.x02] [ex0; ex1; ex2]
              1000 7000 10)
           (snd (add ex3 (snd (add ex2 (snd (add ex1 (snd (add ex0 (fresh 4 0)))))))))).
  - eapply reach_add; [|apply surjective_pairing].
    eapply reach_add; [|apply surjective_pairing].
    eapply reach_add; [|apply surjective_pairing].
    apply (reach_init 4 0). reflexivity.
  - vm_compute. reflexivity.
Defined.

(** X3. A packet that [add] accepts is not lost by that call: it is then
    in its slot, or it is one of the packets of the frame the call
    returns. *)
Theorem accepted_packet_kept_or_emitted (jb : JitterBuffer) (p : RtpPacket.t)
    (r : outcome (option JitterFrame.t)) (jb' : JitterBuffer) :
  shape jb -> 0 < _capacity jb -> accepted p jb -> add p jb = (r, jb') ->
  slot jb' (RtpPacket.sequence_number p) = Some p \/
  exists f, r = Val (Some f) /\ p ∈ JitterFrame.packets f.
Proof.
  intros Hs Hc Hacc Ha.
  destruct (add_cases p jb Hs Hc) as [[Hnone _]|(jb1 & o1 & Hp & Ho1 & Hpost)].
  { exfalso. unfold placed in Hnone. cbv zeta in Hnone.
    destruct (_origin jb) as [o|] eqn:Ho; [|discriminate].
    destruct (Hacc o Ho) as [Hb|Hf].
    - destruct (Z.leb_spec (RtpPacket.sequence_number p) (o - MAX_MISORDER));
        [discriminate|lia].
    - destruct (_ <=? _) in Hnone; [discriminate|].
      destruct (Z.ltb_spec (RtpPacket.sequence_number p) o); [lia|].
      destruct (_ <=? _) in Hnone; [discriminate|].
      destruct (_ <=? _) in Hnone; discriminate. }
  destruct (placed_props p jb jb1 Hs Hc Hp)
    as (Hs1 & Hc1 & _ & Hslot & (o1' & Ho1' & Hw) & _).
  rewrite Ho1 in Ho1'. injection Ho1' as <-.
  rewrite Ha in Hpost. destruct Hpost as [E|(ps & f & Hf & E)].
  - injection E as _ ->. left. exact Hslot.
  - injection E as -> ->. destruct Hf as (Hmk & Hlen & Hrun & _).
    apply mk_frame_packets in Hmk. destruct Hmk as (Hps & _).
    set (s := RtpPacket.sequence_number p) in *.
    destruct (Z.lt_ge_cases (s - o1) (Z.of_nat (length ps))) as [Hin|Hout].
    + right. exists f. split; [reflexivity|]. rewrite Hps.
      destruct (lookup_lt_is_Some_2 ps (Z.to_nat (s - o1)) ltac:(lia)) as [q Hq].
      pose proof (Hrun _ _ Hq) as Hq'. rewrite Z2Nat.id in Hq' by lia.
      replace (o1 + (s - o1)) with s in Hq' by lia.
      rewrite Hslot in Hq'. injection Hq' as ->.
      apply list_elem_of_lookup. eauto.
    + left. rewrite slot_removed_kept; [exact Hslot|lia|].
      rewrite Hc1. lia.
Qed.

Lemma accepted_packet_kept_or_emitted_witness :
  let jb := snd (add ex0 (fresh 4 0)) in
  slot (snd (add ex1 jb)) 1 = Some ex1 \/
  exists f, fst (add ex1 jb) = Val (Some f) /\ ex1 ∈ JitterFrame.packets f.
Proof.
  cbv zeta.
  apply (accepted_packet_kept_or_emitted (snd (add ex0 (fresh 4 0))) ex1
           (fst (add ex1 (snd (add ex0 (fresh 4 0)))))).
  - split; [apply Z.leb_le|]; vm_compute; reflexivity.
  - apply Z.ltb_lt. vm_compute. reflexivity.
  - intros o Ho. vm_compute in Ho. injection Ho as <-. right.
    apply Z.leb_le. vm_compute. reflexivity.
  - apply surjective_pairing.
Defined.

(** A buffer that holds one packet, at its origin, has no complete frame. *)
Lemma lone_packet (x s : Z) (p : RtpPacket.t) (E : JitterBuffer) :
  shape E -> 0 < _capacity E ->
  (forall j q, _packets E !! j <> Some (Some q)) ->
  let J := with_slot s (Some p) (with_origin s E) in
  _remove_frame x J = (Val None, J) /\
  _origin J = Some s /\ slot J s = Some p /\
  (forall j q, _packets J !! j = Some (Some q) -> q = p).
Proof.
  intros Hs Hc Hempty J.
  assert (Hpk : forall j q, _packets J !! j = Some (Some q) -> q = p).
  { intros j q Hq. unfold J, with_slot, with_origin in Hq. cbn [_packets] in Hq.
    apply list_lookup_insert_Some in Hq.
    destruct Hq as [(_ & Heq & _)|(_ & Hq)]; [congruence|].
    exfalso. exact (Hempty j q Hq). }
  split; [|split; [reflexivity|split; [|exact Hpk]]].
  - apply (scan_single _ _ s).
    + apply with_slot_shape, with_origin_shape, Hs.
    + exact Hc.
    + reflexivity.
    + intros n Hn. cbn [_capacity J with_slot with_origin] in Hn.
      unfold J. rewrite slot_with_slot_ne.
      * unfold slot. cbn [_packets _capacity with_origin].
        destruct (_packets E !! _) as [[q|]|] eqn:Eq; try reflexivity.
        exfalso. exact (Hempty _ q Eq).
      * exact Hc.
      * cbn [_capacity with_origin]. intros Hm. symmetry in Hm.
        apply (window_index_inj (s + n) s) in Hm; lia.
  - apply slot_with_slot_eq; [apply with_origin_shape, Hs|exact Hc].
Qed.

(** X4. The first packet: on a freshly constructed buffer with at least
    one slot, [add] returns nothing, sets the origin to the sequence number
    of the packet and stores the packet, and nothing else, in its slot. *)
Theorem first_packet_sets_origin (c pf : Z) (jb0 : JitterBuffer) (p : RtpPacket.t) :
  init c pf = inr jb0 -> 0 < c ->
  exists jb',
    add p jb0 = (Val None, jb') /\
    _origin jb' = Some (RtpPacket.sequence_number p) /\
    slot jb' (RtpPacket.sequence_number p) = Some p /\
    (forall j q, _packets jb' !! j = Some (Some q) -> q = p).
Proof.
  intros Hi Hc. destruct (init_inv c pf jb0 Hi) as [Hs Hinv].
  apply init_fresh in Hi. subst jb0.
  set (s := RtpPacket.sequence_number p).
  destruct (lone_packet s s p (fresh c pf) Hs Hc) as (Hscan & Ho & Hslot & Hpk).
  { intros j q Hq. destruct (Hinv j q Hq) as (o & Ho & _). discriminate. }
  cbv zeta in Hscan.
  exists (with_slot s (Some p) (with_origin s (fresh c pf))).
  split; [|split; [exact Ho|split; [exact Hslot|exact Hpk]]].
  rewrite add_placed by assumption. unfold placed. cbn [_origin fresh]. exact Hscan.
Qed.

Lemma first_packet_sets_origin_witness :
  exists jb',
    add ex3 (fresh 4 0) = (Val None, jb') /\
    _origin jb' = Some (RtpPacket.sequence_number ex3) /\
    slot jb' (RtpPacket.sequence_number ex3) = Some ex3 /\
    (forall j q, _packets jb' !! j = Some (Some q) -> q = ex3).
Proof.
  apply (first_packet_sets_origin 4 0 (fresh 4 0) ex3); [reflexivity|lia].
Defined.

(** X5. Window reset: a packet at least [MAX_MISORDER] behind the origin,
    or at least twice the capacity ahead of it, makes [add] discard every
    buffered packet without returning a frame; the buffer then holds that
    packet alone and its origin is the packet's sequence number. *)
Theorem jump_resets_window (jb : JitterBuffer) (o : Z) (p : RtpPacket.t) :
  shape jb -> 0 < _capacity jb -> _origin jb = Some o ->
  RtpPacket.sequence_number p <= o - MAX_MISORDER \/
  o + 2 * _capacity jb <= RtpPacket.sequence_number p ->
  exists jb',
    add p jb = (Val None, jb') /\
    _origin jb' = Some (RtpPacket.sequence_number p) /\
    slot jb' (RtpPacket.sequence_number p) = Some p /\
    (forall j q, _packets jb' !! j = Some (Some q) -> q = p).
Proof.
  intros Hs Hc Ho Hjump.
  set (s := RtpPacket.sequence_number p) in *.
  destruct (lone_packet s s p (removed (_capacity jb) o jb)
              (removed_shape _ _ _ Hs) Hc) as (Hscan & Ho' & Hslot & Hpk).
  { intros j q Hq. exact (flushed_empty s o jb j q Hs Hc Hq). }
  cbv zeta in Hscan.
  exists (with_slot s (Some p) (flushed s o jb)).
  split; [|split; [exact Ho'|split; [exact Hslot|exact Hpk]]].
  rewrite add_placed by assumption. unfold placed. rewrite Ho. cbv zeta. fold s.
  destruct (Z.leb_spec s (o - MAX_MISORDER)) as [Hb|Hb]; [exact Hscan|].
  destruct Hjump as [Hj|Hj]; [lia|].
  destruct (Z.ltb_spec s o); [lia|].
  destruct (Z.leb_spec (2 * _capacity jb) (s - o)); [exact Hscan|lia].
Qed.

Lemma jump_resets_window_witness :
  let jb := snd (add ex1 (snd (add ex0 (fresh 4 0)))) in
  let p := example_packet 8 2000 Byte.x08 in
  exists jb',
    add p jb = (Val None, jb') /\
    _origin jb' = Some (RtpPacket.sequence_number p) /\
    slot jb' (RtpPacket.sequence_number p) = Some p /\
    (forall j q, _packets jb' !! j = Some (Some q) -> q = p).
Proof.
  cbv zeta.
  apply (jump_resets_window (snd (add ex1 (snd (add ex0 (fresh 4 0))))) 0
           (example_packet 8 2000 Byte.x08)).
  - split; [apply Z.leb_le|]; vm_compute; reflexivity.
  - apply Z.ltb_lt. vm_compute. reflexivity.
  - vm_compute. reflexivity.
  - right. apply Z.leb_le. vm_compute. reflexivity.
Defined.

(** X6. The origin only moves forward: unless the packet is at least
    [MAX_MISORDER] behind the origin, [add] leaves an origin that is not
    below the one it found. *)
Theorem origin_moves_forward (jb : JitterBuffer) (o : Z) (p : RtpPacket.t)
    (r : outcome (option JitterFrame.t)) (jb' : JitterBuffer) :
  shape jb -> 0 < _capacity jb -> _origin jb = Some o ->
  o - MAX_MISORDER < RtpPacket.sequence_number p ->
  add p jb = (r, jb') ->
  exists o', _origin jb' = Some o' /\ o <= o'.
Proof.
  intros Hs Hc Ho Hnear Ha.
  destruct (add_cases p jb Hs Hc) as [[_ Hd]|(jb1 & o1 & Hp & Ho1 & Hpost)].
  { rewrite Hd in Ha. injection Ha as _ <-. exists o. split; [exact Ho|lia]. }
  assert (Hle : o <= o1).
  { unfold placed in Hp. rewrite Ho in Hp. cbv zeta in Hp.
    set (s := RtpPacket.sequence_number p) in *.
    destruct (Z.leb_spec s (o - MAX_MISORDER)); [lia|].
    destruct (Z.ltb_spec s o); [discriminate|].
    destruct (Z.leb_spec (2 * _capacity jb) (s - o)).
    { injection Hp as <-. cbn [_origin with_slot flushed with_origin] in Ho1.
      injection Ho1 as <-. lia. }
    destruct (Z.leb_spec (_capacity jb) (s - o)).
    - injection Hp as <-. unfold with_slot, removed in Ho1. cbn [_origin] in Ho1.
      injection Ho1 as <-. lia.
    - injection Hp as <-. cbn [_origin with_slot] in Ho1.
      rewrite Ho in Ho1. injection Ho1 as <-. lia. }
  rewrite Ha in Hpost. destruct Hpost as [E|(ps & f & _ & E)].
  - injection E as _ ->. exists o1. split; [exact Ho1|exact Hle].
  - injection E as _ ->. eexists. split; [reflexivity|]. lia.
Qed.

Lemma origin_moves_forward_witness :
  let jb := snd (add ex2 (snd (add ex1 (snd (add ex0 (fresh 4 0)))))) in
  exists o', _origin (snd (add ex3 jb)) = Some o' /\ 0 <= o'.
Proof.
  cbv zeta.
  apply (origin_moves_forward
           (snd (add ex2 (snd (add ex1 (snd (add ex0 (fresh 4 0))))))) 0 ex3
           (fst (add ex3 (snd (add ex2 (snd (add ex1 (snd (add ex0 (fresh 4 0)))))))))).
  - split; [apply Z.leb_le|]; vm_compute; reflexivity.
  - apply Z.ltb_lt. vm_compute. reflexivity.
  - vm_compute. reflexivity.
  - apply Z.ltb_lt. vm_compute. reflexivity.
  - apply surjective_pairing.
Defined.

(** ** Further properties of [remove], [capacity] and [__init__] *)

(** X7. [remove(capacity)] on a buffer with an origin returns normally,
    empties every slot and moves the origin one full window ahead. *)
Theorem remove_capacity_empties (jb : JitterBuffer) (o : Z) :
  shape jb -> 0 < _capacity jb -> _origin jb = Some o ->
  exists jb',
    remove (_capacity jb) jb = (Val tt, jb') /\
    _origin jb' = Some (o + _capacity jb) /\
    _capacity jb' = _capacity jb /\
    forall (j : nat), (j < length (_packets jb'))%nat -> _packets jb' !! j = Some None.
Proof.
  intros Hs Hc Ho. exists (removed (_capacity jb) o jb).
  split; [apply remove_ok; try assumption; lia|].
  split; [unfold removed; cbn [_origin]; f_equal; lia|].
  split; [reflexivity|].
  intros j Hj. destruct (lookup_lt_is_Some_2 _ _ Hj) as [[q|] Hq]; [|exact Hq].
  exfalso. exact (flushed_empty 0 o jb j q Hs Hc Hq).
Qed.

Lemma remove_capacity_empties_witness :
  let jb := snd (add ex1 (snd (add ex0 (fresh 4 0)))) in
  exists jb',
    remove (_capacity jb) jb = (Val tt, jb') /\
    _origin jb' = Some (0 + _capacity jb) /\
    _capacity jb' = _capacity jb /\
    forall (j : nat), (j < length (_packets jb'))%nat -> _packets jb' !! j = Some None.
Proof.
  cbv zeta.
  apply (remove_capacity_empties (snd (add ex1 (snd (add ex0 (fresh 4 0))))) 0).
  - split; [apply Z.leb_le|]; vm_compute; reflexivity.
  - apply Z.ltb_lt. vm_compute. reflexivity.
  - vm_compute. reflexivity.
Defined.

Lemma clear_slots_add (n m : nat) : forall o cap l,
  clear_slots (n + m) o cap l =
  clear_slots m (o + Z.of_nat n) cap (clear_slots n o cap l).
Proof.
  induction n as [|n IH]; intros o cap l.
  - cbn [Nat.add clear_slots]. rewrite Z.add_0_r. reflexivity.
  - cbn [Nat.add clear_slots]. rewrite IH. f_equal. lia.
Qed.

(** X8. Two calls of [remove] in a row act as one: [remove(a)] followed by
    [remove(b)] is [remove(a + b)], as long as the total does not exceed
    the capacity. *)
Theorem remove_twice (jb : JitterBuffer) (o a b : Z) :
  shape jb -> _origin jb = Some o ->
  0 <= a -> 0 <= b -> a + b <= _capacity jb ->
  (remove a >> remove b) jb = remove (a + b) jb.
Proof.
  intros Hs Ho Ha Hb Hab.
  destruct (Z.eq_dec (_capacity jb) 0) as [H0|H0].
  { assert (a = 0) by lia. assert (b = 0) by lia. subst a b.
    rewrite (bind_Val _ _ _ _ _ (remove_nonpos 0 jb ltac:(lia) ltac:(lia))).
    reflexivity. }
  assert (Hc : 0 < _capacity jb) by (destruct Hs; lia).
  rewrite (bind_Val _ _ _ _ _ (remove_ok a jb o Hs Hc Ho ltac:(lia))).
  rewrite (remove_ok b (removed a o jb) (o + Z.of_nat (Z.to_nat a)));
    [|apply removed_shape, Hs|exact Hc|reflexivity|cbn [_capacity removed]; lia].
  rewrite (remove_ok (a + b) jb o Hs Hc Ho Hab).
  unfold removed. cbn [_capacity _origin _packets _prefetch].
  replace (Z.to_nat (a + b)) with (Z.to_nat a + Z.to_nat b)%nat by lia.
  rewrite clear_slots_add.
  replace (o + Z.of_nat (Z.to_nat a + Z.to_nat b)%nat)
    with (o + Z.of_nat (Z.to_nat a) + Z.of_nat (Z.to_nat b)) by lia.
  reflexivity.
Qed.

Lemma remove_twice_witness :
  let jb := snd (add ex1 (snd (add ex0 (fresh 4 0)))) in
  (remove 1 >> remove 2) jb = remove (1 + 2) jb.
Proof.
  cbv zeta.
  apply (remove_twice (snd (add ex1 (snd (add ex0 (fresh 4 0))))) 0 1 2).
  - split; [apply Z.leb_le|]; vm_compute; reflexivity.
  - vm_compute. reflexivity.
  - lia.
  - lia.
  - apply Z.leb_le. vm_compute. reflexivity.
Defined.

(** X9. The [capacity] property never changes: after any sequence of
    calls of [add] and [remove], returning or raising, it still returns the
    capacity the buffer was constructed with and changes nothing. *)
Theorem capacity_is_fixed (c pf : Z) (jb0 : JitterBuffer) (calls : list call) :
  init c pf = inr jb0 ->
  capacity (foldl after_call jb0 calls) = (Val c, foldl after_call jb0 calls).
Proof.
  intros Hi.
  assert (Hc0 : _capacity jb0 = c) by (apply init_fresh in Hi; subst jb0; reflexivity).
  clear Hi. revert jb0 Hc0.
  induction calls as [|k calls IH]; intros jb0 Hc0; cbn [foldl].
  - unfold capacity, get_capacity. rewrite Hc0. reflexivity.
  - apply IH. destruct k as [p|n]; cbn [after_call].
    + destruct (add p jb0) as [r jb1] eqn:E.
      destruct (preserves_add p jb0 r jb1 E) as (Hcap & _).
      cbn [snd]. rewrite Hcap. exact Hc0.
    + destruct (remove n jb0) as [r jb1] eqn:E.
      destruct (preserves_remove n jb0 r jb1 E) as (Hcap & _).
      cbn [snd]. rewrite Hcap. exact Hc0.
Qed.

Lemma capacity_is_fixed_witness :
  let calls := [call_remove 1; call_add ex0; call_add ex1; call_remove 9;
                call_add ex3; call_remove 2] in
  capacity (foldl after_call (fresh 4 0) calls) =
  (Val 4, foldl after_call (fresh 4 0) calls).
Proof.
  cbv zeta. apply (capacity_is_fixed 4 0 (fresh 4 0)). reflexivity.
Defined.

Lemma with_slot_same (s : Z) (p : RtpPacket.t) (jb : JitterBuffer) :
  slot jb s = Some p -> with_slot s (Some p) jb = jb.
Proof.
  intros H. apply slot_Some_lookup in H. destruct jb as [cap og l pf].
  unfold with_slot. cbn [_capacity _origin _packets _prefetch] in *.
  rewrite list_insert_id by exact H. reflexivity.
Qed.

(** X10. A duplicate changes nothing: when [add] of a packet has returned
    nothing, adding the same packet again returns nothing and leaves the
    buffer as it is. *)
Theorem duplicate_add_is_idempotent (jb : JitterBuffer) (p : RtpPacket.t)
    (jb' : JitterBuffer) :
  shape jb -> 0 < _capacity jb ->
  add p jb = (Val None, jb') ->
  add p jb' = (Val None, jb').
Proof.
  intros Hs Hc Ha.
  destruct (add_cases p jb Hs Hc) as [[_ Hd]|(jb1 & o1 & Hp & Ho1 & Hpost)].
  { rewrite Hd in Ha. injection Ha as <-. exact Hd. }
  destruct (placed_props p jb jb1 Hs Hc Hp)
    as (Hs1 & Hc1 & _ & Hslot & (o1' & Ho1' & Hw) & _).
  rewrite Ho1 in Ho1'. injection Ho1' as <-.
  assert (Hscan : _remove_frame (RtpPacket.sequence_number p) jb1 = (Val None, jb')).
  { rewrite <- Ha. rewrite add_placed by assumption. rewrite Hp. reflexivity. }
  assert (Hjb' : jb' = jb1).
  { rewrite Ha in Hpost. destruct Hpost as [E|(ps & f & _ & E)];
      [injection E as ->; reflexivity|discriminate]. }
  subst jb'.
  rewrite add_placed by (try exact Hs1; lia).
  unfold placed. rewrite Ho1. cbv zeta. rewrite Hc1.
  set (s := RtpPacket.sequence_number p) in *.
  destruct (Z.leb_spec s (o1 - MAX_MISORDER)); [unfold MAX_MISORDER in *; lia|].
  destruct (Z.ltb_spec s o1); [lia|].
  destruct (Z.leb_spec (2 * _capacity jb) (s - o1)); [lia|].
  destruct (Z.leb_spec (_capacity jb) (s - o1)); [lia|].
  rewrite (with_slot_same s p jb1 Hslot). exact Hscan.
Qed.

Lemma duplicate_add_is_idempotent_witness :
  let jb := snd (add ex0 (fresh 4 0)) in
  add ex1 (snd (add ex1 jb)) = (Val None, snd (add ex1 jb)).
Proof.
  cbv zeta.
  apply (duplicate_add_is_idempotent (snd (add ex0 (fresh 4 0))) ex1).
  - split; [apply Z.leb_le|]; vm_compute; reflexivity.
  - apply Z.ltb_lt. vm_compute. reflexivity.
  - vm_compute. reflexivity.
Defined.

(** X11. For every capacity other than 0 the test of [__init__] is exact:
    construction succeeds, with [capacity] empty slots, no origin and the
    given prefetch depth, exactly for the powers of two, and fails with the
    assertion for every other integer, the negative ones included. *)
Theorem init_exact_for_nonzero_capacity (c pf : Z) :
  c <> 0 ->
  (is_pow2 c <-> init c pf = inr (fresh c pf)) /\
  (~ is_pow2 c <-> init c pf = inl AssertionError).
Proof.
  intros Hc. destruct (init_nonzero_capacity c pf Hc) as [Hyes Hno].
  assert (Hdec : is_pow2 c \/ ~ is_pow2 c).
  { unfold init in Hno.
    destruct (Z.eqb_spec (Z.land c (c - 1)) 0) as [E|E].
    - left. destruct c as [|q|q]; [lia|apply pow2_of_land_pred, E|].
      assert (Z.land (Z.neg q) (Z.neg q - 1) < 0) by (apply Z.land_neg; lia). lia.
    - right. intros (k & Hk & ->). apply E, land_pred_pow2, Hk. }
  split; split.
  - exact Hyes.
  - intros Hi. destruct Hdec as [H|H]; [exact H|].
    rewrite (Hno H) in Hi. discriminate.
  - exact Hno.
  - intros Hi Hp. rewrite (Hyes Hp) in Hi. discriminate.
Qed.

Lemma init_exact_for_nonzero_capacity_witness :
  (is_pow2 1024 <-> init 1024 3 = inr (fresh 1024 3)) /\
  (~ is_pow2 (-4) <-> init (-4) 0 = inl AssertionError) /\
  (~ is_pow2 12 <-> init 12 0 = inl AssertionError).
Proof.
  split; [apply (init_exact_for_nonzero_capacity 1024 3); lia|].
  split; [apply (init_exact_for_nonzero_capacity (-4) 0); lia|].
  apply (init_exact_for_nonzero_capacity 12 0); lia.
Defined.

(** ** A buffer without slots *)

Lemma flush_capacity_0 (jb : JitterBuffer) :
  _capacity jb = 0 ->
  (let* cap := get_capacity in remove cap) jb = (Val tt, jb).
Proof.
  intros H0. rewrite (bind_Val get_capacity _ jb jb _ eq_refl).
  apply remove_nonpos; lia.
Qed.

Lemma fit_store_capacity_0 (p : RtpPacket.t) (jb : JitterBuffer) (o : Z)
    (k : M (option JitterFrame.t)) :
  _capacity jb = 0 -> _origin jb = Some o -> o <= RtpPacket.sequence_number p ->
  (fit_window p >> store p >> k) jb =
  (Raise ZeroDivisionError, with_origin (RtpPacket.sequence_number p) jb).
Proof.
  intros H0 Ho Hle.
  assert (Hfit : fit_window p jb =
                 (Val tt, with_origin (RtpPacket.sequence_number p) jb)).
  { unfold fit_window.
    rewrite (bind_Val _ _ _ _ _ (origin_int_some _ _ Ho)).
    rewrite (bind_Val get_capacity _ jb jb _ eq_refl). cbv zeta. rewrite H0.
    destruct (Z.leb_spec (2 * 0) (RtpPacket.sequence_number p - o)); [|lia].
    rewrite (bind_Val _ _ _ _ _ (flush_capacity_0 jb H0)). reflexivity. }
  rewrite (bind_Val _ _ _ _ _ Hfit).
  apply bind_Raise. unfold store.
  rewrite (bind_Val get_capacity _ _ _ _ eq_refl).
  cbn [_capacity with_origin]. rewrite H0. reflexivity.
Qed.

Lemma add_capacity_0_outcome (p : RtpPacket.t) (jb : JitterBuffer) r jb' :
  _capacity jb = 0 -> add p jb = (r, jb') ->
  r = Val None \/ r = Raise ZeroDivisionError.
Proof.
  intros H0 Ha. unfold add in Ha.
  destruct (_origin jb) as [o|] eqn:Ho.
  - unfold establish_origin in Ha.
    rewrite (bind_Val (bind get_origin _) _ jb
               (if RtpPacket.sequence_number p <=? o - MAX_MISORDER
                then with_origin (RtpPacket.sequence_number p) jb else jb)
               (if RtpPacket.sequence_number p <=? o - MAX_MISORDER then false
                else RtpPacket.sequence_number p <? o)) in Ha.
    + destruct (RtpPacket.sequence_number p <=? o - MAX_MISORDER).
      * rewrite (fit_store_capacity_0 p _ (RtpPacket.sequence_number p)) in Ha
          by (try reflexivity; try exact H0; lia).
        injection Ha as <- _. right. reflexivity.
      * destruct (Z.ltb_spec (RtpPacket.sequence_number p) o).
        -- injection Ha as <- _. left. reflexivity.
        -- rewrite (fit_store_capacity_0 p jb o) in Ha by assumption.
           injection Ha as <- _. right. reflexivity.
    + rewrite (bind_Val get_origin _ jb jb _ eq_refl). rewrite Ho.
      destruct (RtpPacket.sequence_number p <=? o - MAX_MISORDER).
      * rewrite (bind_Val _ _ _ _ _ (flush_capacity_0 jb H0)). reflexivity.
      * destruct (RtpPacket.sequence_number p <? o); reflexivity.
  - rewrite (bind_Val _ _ _ _ _ (establish_origin_none p jb Ho)) in Ha.
    rewrite (fit_store_capacity_0 p _ (RtpPacket.sequence_number p)) in Ha
      by (try reflexivity; try exact H0; lia).
    injection Ha as <- _. right. reflexivity.
Qed.

(** X12. A buffer constructed with capacity 0 is unusable: its first [add]
    raises [ZeroDivisionError] (after setting the origin), and every later
    [add] either raises that error or drops the packet as late; no packet
    is ever stored and no frame is ever returned. *)
Theorem capacity_zero_buffer_is_unusable (pf : Z) (jb0 : JitterBuffer) :
  init 0 pf = inr jb0 ->
  (forall p, add p jb0 =
             (Raise ZeroDivisionError, with_origin (RtpPacket.sequence_number p) jb0)) /\
  (forall ps,
     Forall (fun r => (fst r = Val None \/ fst r = Raise ZeroDivisionError) /\
                      _packets (snd r) = [])
       (add_trace ps jb0)).
Proof.
  intros Hi. apply init_fresh in Hi. subst jb0. split.
  - intros p. unfold add.
    rewrite (bind_Val _ _ _ _ _ (establish_origin_none p (fresh 0 pf) eq_refl)).
    rewrite (fit_store_capacity_0 p _ (RtpPacket.sequence_number p));
      [reflexivity|reflexivity|reflexivity|lia].
  - intros ps.
    assert (Hgen : forall jb, _capacity jb = 0 -> _packets jb = [] ->
              Forall (fun r => (fst r = Val None \/ fst r = Raise ZeroDivisionError) /\
                               _packets (snd r) = []) (add_trace ps jb)).
    { induction ps as [|p ps IH]; intros jb H0 Hnil; cbn [add_trace];
        [constructor|].
      destruct (add p jb) as [r jb'] eqn:E. cbn [snd].
      destruct (preserves_add p jb r jb' E) as (Hcap & _ & Hlen).
      assert (Hnil' : _packets jb' = []).
      { apply length_zero_iff_nil. rewrite Hlen, Hnil. reflexivity. }
      constructor.
      - split; [exact (add_capacity_0_outcome p jb r jb' H0 E)|exact Hnil'].
      - apply IH; [rewrite Hcap; exact H0|exact Hnil']. }
    apply Hgen; reflexivity.
Qed.

Lemma capacity_zero_buffer_is_unusable_witness :
  add ex0 (fresh 0 0) = (Raise ZeroDivisionError, with_origin 0 (fresh 0 0)) /\
  Forall (fun r => (fst r = Val None \/ fst r = Raise ZeroDivisionError) /\
                   _packets (snd r) = [])
    (add_trace [ex3; ex0; ex4] (fresh 0 0)).
Proof.
  destruct (capacity_zero_buffer_is_unusable 0 (fresh 0 0) eq_refl) as [Hfirst Hall].
  split; [exact (Hfirst ex0)|exact (Hall [ex3; ex0; ex4])].
Defined.

(** ** Further properties of the scan *)

(** The scan up to the first boundary, when the first frame is complete. *)
Lemma scan_reaches_boundary (jb : JitterBuffer) (o : Z) (p0 : RtpPacket.t)
    (rest : list RtpPacket.t) (q' : RtpPacket.t) :
  let ps := p0 :: rest in
  shape jb -> 0 < _capacity jb -> _origin jb = Some o -> _prefetch jb <= 1 ->
  Z.of_nat (length ps) < _capacity jb ->
  run_at jb o ps ->
  (forall q, q ∈ ps -> RtpPacket.timestamp q = RtpPacket.timestamp p0) ->
  slot jb (o + Z.of_nat (length ps)) = Some q' ->
  RtpPacket.timestamp q' <> RtpPacket.timestamp p0 ->
  forall fuel (k : nat) l,
    (k <= length ps)%nat -> (length ps - k < fuel)%nat ->
    l_frame l = None -> l_frames l = 0 -> l_packets l = take k ps ->
    (k = O -> l_timestamp l = None) ->
    ((0 < k)%nat ->
       l_timestamp l = Some (RtpPacket.timestamp p0) /\
       l_ntp_timestamp l = Some (RtpPacket.ntp_timestamp p0) /\
       l_rtp_diff l = Some (RtpPacket.rtp_diff p0)) ->
    scan fuel (Z.of_nat k) l jb =
    (Val (Some (JitterFrame.mk (join_data ps) ps (RtpPacket.timestamp p0)
                  (RtpPacket.ntp_timestamp p0) (RtpPacket.rtp_diff p0))),
     removed (Z.of_nat (length ps)) o jb).
Proof.
  intros ps Hs Hc Ho Hpf Hlen Hrun Hts Hq' Hne.
  induction fuel as [|fuel IH]; intros k l Hk Hfuel Hlf Hfr Hlp Hk0 Hkpos; [lia|].
  rewrite (scan_S _ _ _ _ o) by assumption.
  destruct (decide (k < length ps)%nat) as [Hlt|Hge].
  - destruct (lookup_lt_is_Some_2 ps k Hlt) as [q Hq].
    rewrite (Hrun k q Hq). unfold scan_packet.
    replace (Z.of_nat k + 1) with (Z.of_nat (S k)) by lia.
    assert (Htq : RtpPacket.timestamp q = RtpPacket.timestamp p0).
    { apply Hts. apply list_elem_of_lookup. eauto. }
    destruct k as [|k].
    + rewrite Hk0 by reflexivity.
      assert (q = p0) by (cbn in Hq; congruence). subst q.
      apply IH; cbn [l_frame l_frames l_packets l_timestamp l_ntp_timestamp l_rtp_diff];
        [lia | lia | exact Hlf | exact Hfr | rewrite Hlp; reflexivity
        | intros H; discriminate H | intros _; repeat split].
    + destruct (Hkpos ltac:(lia)) as (Ht & Hn & Hr). rewrite Ht.
      destruct (Z.eqb_spec (RtpPacket.timestamp q) (RtpPacket.timestamp p0));
        [|contradiction].
      cbn [negb].
      apply IH; cbn [l_frame l_frames l_packets l_timestamp l_ntp_timestamp l_rtp_diff];
        [lia | lia | exact Hlf | exact Hfr
        | rewrite Hlp; symmetry; apply take_S_r; exact Hq
        | intros H; discriminate H | intros _; repeat split; assumption].
  - assert (k = length ps) by lia. subst k.
    rewrite Hq'.
    destruct (Hkpos ltac:(cbn; lia)) as (Ht & Hn & Hr).
    rewrite (scan_packet_boundary _ (Z.of_nat (length ps)) l q' jb o
               (RtpPacket.timestamp p0) (RtpPacket.ntp_timestamp p0)
               (RtpPacket.rtp_diff p0) Hs Hc Ho);
      [|lia|exact Hlf|exact Ht|exact Hn|exact Hr|exact Hne|lia].
    rewrite Hlp, take_ge by lia. reflexivity.
Qed.

(** X13. With [prefetch <= 1] the scan returns the first frame as soon as
    it is complete: when the slots from the origin on hold a run of packets
    with one timestamp followed by a packet with another, [_remove_frame]
    returns the frame made of that run and removes exactly its packets. *)
Theorem first_complete_frame_is_returned (x : Z) (jb : JitterBuffer) (o : Z)
    (ps : list RtpPacket.t) (f : JitterFrame.t) (q' : RtpPacket.t) :
  shape jb -> _origin jb = Some o -> _prefetch jb <= 1 ->
  mk_frame ps = Some f ->
  Z.of_nat (length ps) < _capacity jb ->
  (forall (i : nat) q, ps !! i = Some q ->
     slot jb (o + Z.of_nat i) = Some q /\
     RtpPacket.timestamp q = JitterFrame.timestamp f) ->
  slot jb (o + Z.of_nat (length ps)) = Some q' ->
  RtpPacket.timestamp q' <> JitterFrame.timestamp f ->
  _remove_frame x jb = (Val (Some f), removed (Z.of_nat (length ps)) o jb).
Proof.
  intros Hs Ho Hpf Hmk Hlen Hrun Hq' Hne.
  destruct ps as [|p0 rest]; [discriminate|]. injection Hmk as <-.
  cbn [JitterFrame.timestamp] in *.
  assert (Hc : 0 < _capacity jb) by lia.
  unfold _remove_frame. rewrite (bind_Val get_capacity _ jb jb _ eq_refl).
  assert (Hrun1 : run_at jb o (p0 :: rest)).
  { intros i q Hi. apply Hrun, Hi. }
  assert (Hts1 : forall q, q ∈ p0 :: rest ->
                   RtpPacket.timestamp q = RtpPacket.timestamp p0).
  { intros q Hq. apply list_elem_of_lookup in Hq. destruct Hq as (i & Hi).
    apply (Hrun i q Hi). }
  change (scan (Z.to_nat (_capacity jb)) 0 locals0 jb)
    with (scan (Z.to_nat (_capacity jb)) (Z.of_nat 0) locals0 jb).
  apply (scan_reaches_boundary jb o p0 rest q' Hs Hc Ho Hpf Hlen Hrun1 Hts1 Hq' Hne
           (Z.to_nat (_capacity jb)) O locals0);
    [lia | lia | reflexivity | reflexivity | reflexivity | reflexivity
    | intros H; lia].
Qed.

Lemma first_complete_frame_is_returned_witness :
  let jb := stored [ex0; ex1; ex2; ex3] (with_origin 0 (fresh 4 0)) in
  _remove_frame 3 jb =
  (Val (Some (JitterFrame.mk [Byte.x00; Byte.x01; Byte.x02] [ex0; ex1; ex2]
                1000 7000 10)),
   removed 3 0 jb).
Proof.
  cbv zeta.
  apply (first_complete_frame_is_returned 3
           (stored [ex0; ex1; ex2; ex3] (with_origin 0 (fresh 4 0))) 0
           [ex0; ex1; ex2]
           (JitterFrame.mk [Byte.x00; Byte.x01; Byte.x02] [ex0; ex1; ex2]
              1000 7000 10) ex3).
  - split; [apply Z.leb_le|]; vm_compute; reflexivity.
  - reflexivity.
  - apply Z.leb_le. vm_compute. reflexivity.
  - reflexivity.
  - apply Z.ltb_lt. vm_compute. reflexivity.
  - intros i q Hi.
    destruct i as [|[|[|i]]]; cbn in Hi; try discriminate;
      injection Hi as <-; split; vm_compute; reflexivity.
  - vm_compute. reflexivity.
  - vm_compute. discriminate.
Defined.

(** ** A frame of any size, received in order *)

Lemma slot_with_slot_other (s s' o : Z) (v : option RtpPacket.t) (jb : JitterBuffer) :
  0 < _capacity jb ->
  o <= s < o + _capacity jb -> o <= s' < o + _capacity jb -> s <> s' ->
  slot (with_slot s v jb) s' = slot jb s'.
Proof.
  intros Hc Hs Hs' Hne. apply slot_with_slot_ne; [exact Hc|].
  intros Hm. apply Hne. apply (window_same_slot _ _ o (_capacity jb)); assumption.
Qed.

(** One more packet of the frame: nothing is returned. *)
Lemma add_in_sequence (s0 T : Z) (ps : list RtpPacket.t) (k : nat)
    (jb : JitterBuffer) (p : RtpPacket.t) :
  in_sequence s0 T ps -> filled s0 ps k jb ->
  ps !! k = Some p -> Z.of_nat k + 1 < _capacity jb ->
  let jb1 := with_slot (s0 + Z.of_nat k) (Some p) jb in
  add p jb = (Val None, jb1) /\ filled s0 ps (S k) jb1.
Proof.
  intros Hseq (Hs & Ho & Hrun & Hempty) Hp Hk jb1.
  assert (Hc : 0 < _capacity jb) by lia.
  destruct (Hseq k p Hp) as [Hsp HTp].
  pose proof (lookup_lt_Some _ _ _ Hp) as Hklen.
  assert (Hrun1 : run_at jb1 s0 (take k ps)).
  { intros i q Hi. pose proof (lookup_lt_Some _ _ _ Hi) as Hlt.
    rewrite length_take in Hlt.
    unfold jb1. rewrite (slot_with_slot_other _ _ s0) by lia. apply Hrun, Hi. }
  assert (Hhere : slot jb1 (s0 + Z.of_nat k) = Some p).
  { apply slot_with_slot_eq; assumption. }
  assert (Hempty1 : forall i, Z.of_nat (S k) <= i < _capacity jb ->
                      slot jb1 (s0 + i) = None).
  { intros i Hi. unfold jb1. rewrite (slot_with_slot_other _ _ s0) by lia.
    apply Hempty. lia. }
  assert (Hfilled : filled s0 ps (S k) jb1).
  { split; [apply with_slot_shape, Hs|]. split; [exact Ho|]. split; [|exact Hempty1].
    rewrite (take_S_r ps k p Hp). apply run_at_snoc; [exact Hrun1|].
    rewrite length_take. replace (k `min` length ps)%nat with k by lia.
    exact Hhere. }
  split; [|exact Hfilled].
  rewrite add_placed by assumption. unfold placed. rewrite Ho, Hsp. cbv zeta.
  destruct (Z.leb_spec (s0 + Z.of_nat k) (s0 - MAX_MISORDER));
    [unfold MAX_MISORDER in *; lia|].
  destruct (Z.ltb_spec (s0 + Z.of_nat k) s0); [lia|].
  destruct (Z.leb_spec (2 * _capacity jb) (s0 + Z.of_nat k - s0)); [lia|].
  destruct (Z.leb_spec (_capacity jb) (s0 + Z.of_nat k - s0)); [lia|].
  fold jb1.
  apply (scan_stalls _ jb1 s0 (s0 + Z.of_nat (S k)) T).
  - apply with_slot_shape, Hs.
  - exact Ho.
  - cbn [_capacity jb1 with_slot]. lia.
  - apply Hempty1. lia.
  - intros x q Hx Hq.
    destruct (lookup_lt_is_Some_2 (take (S k) ps) (Z.to_nat (x - s0))) as [q0 Hq0].
    { rewrite length_take. lia. }
    destruct Hfilled as (_ & _ & Hrun2 & _).
    pose proof (Hrun2 _ _ Hq0) as Hslot. rewrite Z2Nat.id in Hslot by lia.
    replace (s0 + (x - s0)) with x in Hslot by lia.
    rewrite Hq in Hslot. injection Hslot as ->.
    apply lookup_take_Some in Hq0. destruct Hq0 as [Hq0 _].
    apply (Hseq _ _ Hq0).
Qed.

(** The packets after the first one, then the packet that closes the
    frame. *)
Lemma add_trace_in_sequence (c s0 T : Z) (p0 : RtpPacket.t)
    (rest0 : list RtpPacket.t) (q : RtpPacket.t) :
  let ps := p0 :: rest0 in
  in_sequence s0 T ps -> Z.of_nat (length ps) < c ->
  RtpPacket.sequence_number q = s0 + Z.of_nat (length ps) ->
  RtpPacket.timestamp q <> T ->
  forall rest (k : nat) jb,
    filled s0 ps k jb -> _capacity jb = c -> _prefetch jb <= 1 ->
    (1 <= k <= length ps)%nat -> drop k ps = rest ->
    fst <$> add_trace (rest ++ [q]) jb =
    replicate (length rest) (Val None) ++
    [Val (Some (JitterFrame.mk (join_data ps) ps (RtpPacket.timestamp p0)
                  (RtpPacket.ntp_timestamp p0) (RtpPacket.rtp_diff p0)))].
Proof.
  intros ps Hseq Hlen Hq HTq.
  assert (HT0 : RtpPacket.timestamp p0 = T) by (apply (Hseq O p0 eq_refl)).
  induction rest as [|p rest IH]; intros k jb Hf Hcap Hpf Hk Hdrop.
  - (* the closing packet *)
    assert (k = length ps).
    { apply (f_equal length) in Hdrop. rewrite length_drop in Hdrop.
      cbn [length] in Hdrop. lia. }
    subst k. destruct Hf as (Hs & Ho & Hrun & Hempty).
    rewrite take_ge in Hrun by lia.
    assert (Hc : 0 < _capacity jb) by lia.
    cbn [app add_trace fmap list_fmap length replicate]. f_equal.
    rewrite add_placed by assumption. unfold placed. rewrite Ho, Hq. cbv zeta.
    set (n := Z.of_nat (length ps)) in *.
    destruct (Z.leb_spec (s0 + n) (s0 - MAX_MISORDER));
      [unfold MAX_MISORDER in *; lia|].
    destruct (Z.ltb_spec (s0 + n) s0); [lia|].
    destruct (Z.leb_spec (2 * _capacity jb) (s0 + n - s0)); [lia|].
    destruct (Z.leb_spec (_capacity jb) (s0 + n - s0)); [lia|].
    set (jb1 := with_slot (s0 + n) (Some q) jb).
    unfold _remove_frame. rewrite (bind_Val get_capacity _ jb1 jb1 _ eq_refl).
    change (scan (Z.to_nat (_capacity jb1)) 0 locals0 jb1)
      with (scan (Z.to_nat (_capacity jb1)) (Z.of_nat 0) locals0 jb1).
    assert (Hs1 : shape jb1) by (apply with_slot_shape, Hs).
    assert (Hlen1 : Z.of_nat (length (p0 :: rest0)) < _capacity jb1).
    { cbn [_capacity jb1 with_slot]. fold ps. lia. }
    assert (Hrun1 : run_at jb1 s0 (p0 :: rest0)).
    { intros i x Hi. pose proof (lookup_lt_Some _ _ _ Hi) as Hlt.
      unfold jb1. rewrite (slot_with_slot_other _ _ s0) by (fold ps in Hlt; lia).
      apply Hrun, Hi. }
    assert (Hts1 : forall x, x ∈ p0 :: rest0 ->
                     RtpPacket.timestamp x = RtpPacket.timestamp p0).
    { intros x Hx. apply list_elem_of_lookup in Hx. destruct Hx as (i & Hi).
      rewrite HT0. apply (Hseq i x Hi). }
    assert (Hq1 : slot jb1 (s0 + Z.of_nat (length (p0 :: rest0))) = Some q).
    { apply slot_with_slot_eq; assumption. }
    assert (Hne1 : RtpPacket.timestamp q <> RtpPacket.timestamp p0).
    { rewrite HT0. exact HTq. }
    rewrite (scan_reaches_boundary jb1 s0 p0 rest0 q Hs1 Hc Ho Hpf Hlen1 Hrun1
               Hts1 Hq1 Hne1 (Z.to_nat (_capacity jb1)) O locals0);
      [reflexivity | lia | cbn [_capacity jb1 with_slot]; fold ps; lia
      | reflexivity | reflexivity | reflexivity | reflexivity | intros H'; lia].
  - (* one more packet of the frame *)
    assert (Hp : ps !! k = Some p).
    { rewrite <- (Nat.add_0_r k), <- lookup_drop, Hdrop. reflexivity. }
    pose proof (lookup_lt_Some _ _ _ Hp) as Hklt.
    destruct (add_in_sequence s0 T ps k jb p Hseq Hf Hp ltac:(lia)) as [Ha Hf1].
    cbv zeta in Ha, Hf1.
    cbn [app add_trace fmap list_fmap length replicate]. rewrite Ha. cbn [fst snd].
    f_equal. apply (IH (S k)); [exact Hf1|exact Hcap|exact Hpf|lia|].
    rewrite (drop_S ps p k Hp) in Hdrop. injection Hdrop as Hdrop. exact Hdrop.
Qed.

(** X14. In-order assembly of a frame of any size: on a fresh buffer with
    [prefetch <= 1], adding the packets of a frame (consecutive sequence
    numbers, one timestamp, fewer than [capacity] of them) returns nothing,
    and adding the next packet, which carries another timestamp, returns
    the frame made of exactly those packets. *)
Theorem in_order_frame_assembly (c pf : Z) (jb0 : JitterBuffer) (s0 T : Z)
    (ps : list RtpPacket.t) (q : RtpPacket.t) (f : JitterFrame.t) :
  init c pf = inr jb0 -> pf <= 1 ->
  mk_frame ps = Some f -> Z.of_nat (length ps) < c ->
  in_sequence s0 T ps ->
  RtpPacket.sequence_number q = s0 + Z.of_nat (length ps) ->
  RtpPacket.timestamp q <> T ->
  fst <$> add_trace (ps ++ [q]) jb0 =
  replicate (length ps) (Val None) ++ [Val (Some f)].
Proof.
  intros Hi Hpf Hmk Hlen Hseq Hq HTq.
  destruct (init_inv c pf jb0 Hi) as [Hs Hinv].
  apply init_fresh in Hi. subst jb0.
  destruct ps as [|p0 rest0]; [discriminate|]. injection Hmk as <-.
  assert (Hc : 0 < c) by lia.
  destruct (Hseq O p0 eq_refl) as [Hs0 _]. rewrite Z.add_0_r in Hs0.
  set (jb1 := with_slot s0 (Some p0) (with_origin s0 (fresh c pf))).
  assert (Ha : add p0 (fresh c pf) = (Val None, jb1)).
  { destruct (lone_packet s0 s0 p0 (fresh c pf) Hs Hc) as (Hscan & _).
    { intros j x Hx. destruct (Hinv j x Hx) as (o & Ho & _). discriminate. }
    rewrite add_placed by assumption. unfold placed. cbn [_origin fresh].
    rewrite Hs0. exact Hscan. }
  assert (Hf1 : filled s0 (p0 :: rest0) 1 jb1).
  { split; [apply with_slot_shape, with_origin_shape, Hs|].
    split; [reflexivity|]. split.
    - intros i x Hi. destruct i as [|i]; [|discriminate]. injection Hi as <-.
      rewrite Z.add_0_r.
      apply slot_with_slot_eq; [apply with_origin_shape, Hs|exact Hc].
    - intros i Hi. cbn [_capacity jb1 with_slot with_origin fresh] in Hi.
      unfold jb1. rewrite (slot_with_slot_other _ _ s0);
        [apply slot_fresh|exact Hc
        |cbn [_capacity with_origin fresh]; lia
        |cbn [_capacity with_origin fresh]; lia|lia]. }
  cbn [app add_trace fmap list_fmap length replicate]. rewrite Ha. cbn [fst snd].
  f_equal.
  apply (add_trace_in_sequence c s0 T p0 rest0 q Hseq Hlen Hq HTq rest0 1%nat jb1);
    [exact Hf1|reflexivity|exact Hpf|cbn [length]; lia|reflexivity].
Qed.

Lemma in_order_frame_assembly_witness :
  fst <$> add_trace ([ex0; ex1; ex2] ++ [ex3]) (fresh 8 1) =
  replicate (length [ex0; ex1; ex2]) (Val None) ++
  [Val (Some (JitterFrame.mk [Byte.x00; Byte.x01; Byte.x02] [ex0; ex1; ex2]
                1000 7000 10))].
Proof.
  apply (in_order_frame_assembly 8 1 (fresh 8 1) 0 1000 [ex0; ex1; ex2] ex3).
  - reflexivity.
  - lia.
  - reflexivity.
  - cbn. lia.
  - intros i x Hi.
    destruct i as [|[|[|i]]]; cbn in Hi; try discriminate;
      injection Hi as <-; split; vm_compute; reflexivity.
  - vm_compute. reflexivity.
  - vm_compute. discriminate.
Defined.

(** ** The effect of [_remove_frame] and [remove] on the slots *)

(** X15. [_remove_frame] on a buffer with an origin never raises and is
    all or nothing: it returns nothing and leaves the buffer untouched, or
    it returns a frame, advances the origin by the number of packets of
    the frame, empties exactly their slots and leaves the rest of the
    window as it was. *)
Theorem scan_is_all_or_nothing (x : Z) (jb : JitterBuffer) (o : Z)
    (r : outcome (option JitterFrame.t)) (jb' : JitterBuffer) :
  shape jb -> 0 < _capacity jb -> _origin jb = Some o ->
  _remove_frame x jb = (r, jb') ->
  (r = Val None /\ jb' = jb) \/
  exists f,
    let n := Z.of_nat (length (JitterFrame.packets f)) in
    r = Val (Some f) /\ 0 < n < _capacity jb /\
    _origin jb' = Some (o + n) /\
    (forall (i : nat) q, JitterFrame.packets f !! i = Some q ->
       slot jb (o + Z.of_nat i) = Some q /\ slot jb' (o + Z.of_nat i) = None) /\
    (forall s, o + n <= s < o + _capacity jb -> slot jb' s = slot jb s).
Proof.
  intros Hs Hc Ho Hr.
  destruct (_remove_frame_post jb o Hs Hc Ho x) as [E|(ps & f & Hf & E)];
    rewrite Hr in E.
  - left. injection E as -> ->. split; reflexivity.
  - right. injection E as -> ->. exists f. cbv zeta.
    destruct Hf as (Hmk & Hlen & Hrun & _).
    apply mk_frame_packets in Hmk. destruct Hmk as (-> & Hpos & _).
    split; [reflexivity|]. split; [lia|]. split.
    { unfold removed. cbn [_origin]. f_equal. lia. }
    split.
    + intros i q Hi. pose proof (lookup_lt_Some _ _ _ Hi) as Hlt.
      split; [apply Hrun, Hi|].
      apply slot_removed_cleared; [exact Hs|exact Hc|lia].
    + intros s Hsr. apply slot_removed_kept; [exact Hc|lia].
Qed.

Lemma scan_is_all_or_nothing_witness :
  let jb := stored [ex0; ex1; ex2; ex3] (with_origin 0 (fresh 4 0)) in
  (fst (_remove_frame 3 jb) = Val None /\ snd (_remove_frame 3 jb) = jb) \/
  exists f,
    let n := Z.of_nat (length (JitterFrame.packets f)) in
    fst (_remove_frame 3 jb) = Val (Some f) /\ 0 < n < _capacity jb /\
    _origin (snd (_remove_frame 3 jb)) = Some (0 + n) /\
    (forall (i : nat) q, JitterFrame.packets f !! i = Some q ->
       slot jb (0 + Z.of_nat i) = Some q /\
       slot (snd (_remove_frame 3 jb)) (0 + Z.of_nat i) = None) /\
    (forall s, 0 + n <= s < 0 + _capacity jb ->
       slot (snd (_remove_frame 3 jb)) s = slot jb s).
Proof.
  cbv zeta.
  apply (scan_is_all_or_nothing 3
           (stored [ex0; ex1; ex2; ex3] (with_origin 0 (fresh 4 0))) 0).
  - split; [apply Z.leb_le|]; vm_compute; reflexivity.
  - apply Z.ltb_lt. vm_compute. reflexivity.
  - reflexivity.
  - apply surjective_pairing.
Defined.

(** X16. [remove(count)] with [0 <= count <= capacity] on a buffer with an
    origin empties exactly the [count] oldest slots of the window, leaves
    the others as they were and advances the origin by [count]. *)
Theorem remove_clears_oldest (jb : JitterBuffer) (o count : Z) :
  shape jb -> _origin jb = Some o -> 0 <= count <= _capacity jb ->
  exists jb',
    remove count jb = (Val tt, jb') /\
    _origin jb' = Some (o + count) /\
    (forall s, o <= s < o + count -> slot jb' s = None) /\
    (forall s, o + count <= s < o + _capacity jb -> slot jb' s = slot jb s).
Proof.
  intros Hs Ho Hcount.
  destruct (Z.eq_dec count 0) as [->|Hpos].
  { exists jb. split; [apply remove_nonpos; lia|].
    split; [rewrite Z.add_0_r; exact Ho|]. split; [intros s Hsr; lia|reflexivity]. }
  assert (Hc : 0 < _capacity jb) by lia.
  exists (removed count o jb).
  split; [apply remove_ok; try assumption; lia|].
  split; [unfold removed; cbn [_origin]; f_equal; lia|].
  split.
  - intros s Hsr. replace s with (o + (s - o)) by lia.
    apply slot_removed_cleared; [exact Hs|exact Hc|lia].
  - intros s Hsr. apply slot_removed_kept; [exact Hc|lia].
Qed.

Lemma remove_clears_oldest_witness :
  let jb := snd (add ex2 (snd (add ex1 (snd (add ex0 (fresh 4 0)))))) in
  exists jb',
    remove 2 jb = (Val tt, jb') /\
    _origin jb' = Some (0 + 2) /\
    (forall s, 0 <= s < 0 + 2 -> slot jb' s = None) /\
    (forall s, 0 + 2 <= s < 0 + _capacity jb -> slot jb' s = slot jb s).
Proof.
  cbv zeta.
  apply (remove_clears_oldest
           (snd (add ex2 (snd (add ex1 (snd (add ex0 (fresh 4 0))))))) 0 2).
  - split; [apply Z.leb_le|]; vm_compute; reflexivity.
  - vm_compute. reflexivity.
  - split; [lia|]. apply Z.leb_le. vm_compute. reflexivity.
Defined.

(** ** Frames and the origin *)

(** The origin at which [add] starts its scan is not below the one it
    found, unless the packet is a backward jump. *)
Lemma placed_origin (p : RtpPacket.t) (jb jb1 : JitterBuffer) (o o1 : Z) :
  _origin jb = Some o -> o - MAX_MISORDER < RtpPacket.sequence_number p ->
  placed p jb = Some jb1 -> _origin jb1 = Some o1 -> o <= o1.
Proof.
  intros Ho Hnear Hp Ho1. unfold placed in Hp. rewrite Ho in Hp. cbv zeta in Hp.
  set (s := RtpPacket.sequence_number p) in *.
  destruct (Z.leb_spec s (o - MAX_MISORDER)); [lia|].
  destruct (Z.ltb_spec s o); [discriminate|].
  destruct (Z.leb_spec (2 * _capacity jb) (s - o)).
  { injection Hp as <-. cbn [_origin with_slot flushed with_origin] in Ho1.
    injection Ho1 as <-. lia. }
  destruct (Z.leb_spec (_capacity jb) (s - o)).
  - injection Hp as <-. unfold with_slot, removed in Ho1. cbn [_origin] in Ho1.
    injection Ho1 as <-. lia.
  - injection Hp as <-. cbn [_origin with_slot] in Ho1.
    rewrite Ho in Ho1. injection Ho1 as <-. lia.
Qed.

(** X17. Frames come out in sequence order: unless the packet is a
    backward jump, a frame returned by [add] consists of packets whose
    sequence numbers lie between the origin before the call and the origin
    after it, so that a later frame never reaches back before an earlier
    one. *)
Theorem frame_lies_between_origins (jb : JitterBuffer) (o : Z) (p : RtpPacket.t)
    (f : JitterFrame.t) (jb' : JitterBuffer) :
  reachable jb -> _origin jb = Some o ->
  o - MAX_MISORDER < RtpPacket.sequence_number p ->
  add p jb = (Val (Some f), jb') ->
  exists o', _origin jb' = Some o' /\
    forall q, q ∈ JitterFrame.packets f -> o <= RtpPacket.sequence_number q < o'.
Proof.
  intros Hr Ho Hnear Ha. destruct (reachable_inv jb Hr) as [Hs Hinv].
  destruct (Z.eq_dec (_capacity jb) 0) as [H0|H0].
  { exfalso. exact (add_capacity_0 p jb _ jb' H0 Ha f eq_refl). }
  assert (Hc : 0 < _capacity jb) by (destruct Hs; lia).
  destruct (add_cases p jb Hs Hc) as [[_ Hd]|(jb1 & o1 & Hp & Ho1 & Hpost)].
  { rewrite Hd in Ha. discriminate. }
  pose proof (placed_origin p jb jb1 o o1 Ho Hnear Hp Ho1) as Hle.
  destruct (placed_props p jb jb1 Hs Hc Hp) as (Hs1 & Hc1 & _ & _ & _ & Hinv1).
  specialize (Hinv1 Hinv).
  rewrite Ha in Hpost. destruct Hpost as [E|(ps & f' & Hf & E)]; [discriminate|].
  injection E as <- ->.
  destruct Hf as (Hmk & Hlen & Hrun & _).
  apply mk_frame_packets in Hmk. destruct Hmk as (Hps & _).
  exists (o1 + Z.of_nat (length ps)). split.
  { unfold removed. cbn [_origin]. f_equal. lia. }
  intros q Hq. rewrite Hps in Hq.
  apply list_elem_of_lookup in Hq. destruct Hq as (i & Hi).
  pose proof (lookup_lt_Some _ _ _ Hi) as Hlt.
  rewrite (slot_sequence_number jb1 o1 (o1 + Z.of_nat i) q);
    [lia|lia|exact Hinv1|exact Ho1|lia|apply Hrun, Hi].
Qed.

Lemma frame_lies_between_origins_witness :
  let jb := snd (add ex2 (snd (add ex1 (snd (add ex0 (fresh 4 0)))))) in
  let f := JitterFrame.mk [Byte.x00; Byte.x01; Byte.x02] [ex0; ex1; ex2]
             1000 7000 10 in
  exists o', _origin (snd (add ex3 jb)) = Some o' /\
    forall q, q ∈ JitterFrame.packets f -> 0 <= RtpPacket.sequence_number q < o'.
Proof.
  cbv zeta.
  apply (frame_lies_between_origins
           (snd (add ex2 (snd (add ex1 (snd (add ex0 (fresh 4 0))))))) 0 ex3
           (JitterFrame.mk [Byte.x00; Byte.x01; Byte.x02] [ex0; ex1; ex2]
              1000 7000 10)
           (snd (add ex3 (snd (add ex2 (snd (add ex1 (snd (add ex0 (fresh 4 0)))))))))).
  - eapply reach_add; [|apply surjective_pairing].
    eapply reach_add; [|apply surjective_pairing].
    eapply reach_add; [|apply surjective_pairing].
    apply (reach_init 4 0). reflexivity.
  - vm_compute. reflexivity.
  - apply Z.ltb_lt. vm_compute. reflexivity.
  - vm_compute. reflexivity.
Defined.

(** X18. When [add] returns a frame, the packet that closed it stays in
    the buffer: the slot of the new origin holds a packet whose timestamp
    differs from that of the frame, the first packet of the next frame. *)
Theorem next_frame_starts_at_origin (jb : JitterBuffer) (p : RtpPacket.t)
    (f : JitterFrame.t) (jb' : JitterBuffer) :
  shape jb -> 0 < _capacity jb -> add p jb = (Val (Some f), jb') ->
  exists o' q',
    _origin jb' = Some o' /\ slot jb' o' = Some q' /\
    RtpPacket.timestamp q' <> JitterFrame.timestamp f.
Proof.
  intros Hs Hc Ha.
  destruct (add_cases p jb Hs Hc) as [[_ Hd]|(jb1 & o1 & Hp & Ho1 & Hpost)].
  { rewrite Hd in Ha. discriminate. }
  destruct (placed_props p jb jb1 Hs Hc Hp) as (Hs1 & Hc1 & _).
  rewrite Ha in Hpost. destruct Hpost as [E|(ps & f' & Hf & E)]; [discriminate|].
  injection E as <- ->.
  destruct Hf as (_ & Hlen & _ & _ & (q' & Hq' & Hne)).
  exists (o1 + Z.of_nat (length ps)), q'. split.
  { unfold removed. cbn [_origin]. f_equal. lia. }
  split; [|exact Hne].
  rewrite slot_removed_kept; [exact Hq'|lia|lia].
Qed.

Lemma next_frame_starts_at_origin_witness :
  let jb := snd (add ex2 (snd (add ex1 (snd (add ex0 (fresh 4 0)))))) in
  let f := JitterFrame.mk [Byte.x00; Byte.x01; Byte.x02] [ex0; ex1; ex2]
             1000 7000 10 in
  exists o' q',
    _origin (snd (add ex3 jb)) = Some o' /\ slot (snd (add ex3 jb)) o' = Some q' /\
    RtpPacket.timestamp q' <> JitterFrame.timestamp f.
Proof.
  cbv zeta.
  apply (next_frame_starts_at_origin
           (snd (add ex2 (snd (add ex1 (snd (add ex0 (fresh 4 0)))))))
           ex3
           (JitterFrame.mk [Byte.x00; Byte.x01; Byte.x02] [ex0; ex1; ex2]
              1000 7000 10)).
  - split; [apply Z.leb_le|]; vm_compute; reflexivity.
  - apply Z.ltb_lt. vm_compute. reflexivity.
  - vm_compute. reflexivity.
Defined.
